(** * YT_Downloader: a shallow embedding of the two downloader scripts

    [youtube_playlist_downloader.py] and [youtube_video_downloader.py] are
    thin orchestration layers over the external [yt_dlp] library.  The
    embedding below follows the Python source function by function:

    - Python [str] values are sequences of Unicode code points;
    - dictionaries are finite maps ([gmap]) from [str] keys to values;
    - exceptions are values carrying their class, and [except C] matches by
      [isinstance], i.e. along the class hierarchy;
    - logging, calls into [yt_dlp], directory creation and terminal output
      are effects on an explicit [world], threaded through a state and
      exception monad;
    - the thread pool of [download_videos] is a scheduler-driven machine
      whose steps are single download attempts. *)

From Stdlib Require Import ZArith NArith Ascii String List Bool Lia.
From Stdlib Require Import Floats.SpecFloat.
From stdpp Require Import base option list gmap.

Local Open Scope N_scope.

(* ===================================================================== *)
(** * Python strings *)
(* ===================================================================== *)

(** A Python [str] is a sequence of code points; a character is a [str] of
    length one, represented here by its code point. *)
Abbreviation str := (list N).

(** String literals of the source, which are all ASCII. *)
Definition py (s : string) : str := map N_of_ascii (list_ascii_of_string s).

Definition chr (s : string) : N :=
  match s with
  | String a _ => N_of_ascii a
  | EmptyString => 0
  end.

(** [sep.join(parts)] for the empty separator used by the source. *)
Definition join_empty (parts : list str) : str := concat parts.

(* ===================================================================== *)
(** * Filename Sanitizer ([create_safe_filename]) *)
(* ===================================================================== *)

Section Sanitizer.

(** [str.isalnum] consults the Unicode character database.  The ASCII
    range is written out; the table for the code points from 128 on is
    not part of the repository and is taken as a parameter. *)
Variable unicode_isalnum : N -> bool.

Definition ascii_isalnum (c : N) : bool :=
  ((48 <=? c) && (c <=? 57)) || ((65 <=? c) && (c <=? 90))
  || ((97 <=? c) && (c <=? 122)).

Definition isalnum (c : N) : bool :=
  if c <? 128 then ascii_isalnum c else unicode_isalnum c.

(** [c in [" ", "-", "_"]] *)
Definition in_kept_punctuation (c : N) : bool :=
  bool_decide (c ∈ [chr " "; chr "-"; chr "_"]).

(** The generator expression of the source yields, for each character
    [c] of [filename], the one-character string [c] or ["_"]. *)
Definition safe_piece (c : N) : str :=
  if isalnum c || in_kept_punctuation c then [c] else py "_".

Definition create_safe_filename (filename : str) : str :=
  join_empty (map safe_piece filename).

(** The character written for [c]. *)
Definition safe_char (c : N) : N :=
  if isalnum c || in_kept_punctuation c then c else chr "_".

(** The characters the sanitizer lets through. *)
Definition allowed_char (c : N) : bool :=
  isalnum c || in_kept_punctuation c.

End Sanitizer.

(* ===================================================================== *)
(** * Exceptions *)
(* ===================================================================== *)

(** Exception classes: the Python built-ins the two scripts can meet, the
    three classes of [yt_dlp] they name, and arbitrary further subclasses.
    [yt_dlp.DownloadError] and [yt_dlp.utils.ExtractorError] both derive
    from [yt_dlp.utils.YoutubeDLError], which derives from [Exception]. *)
Inductive exn_class : Type :=
| BaseException
| PyException
| KeyboardInterrupt
| LookupError
| KeyError
| TypeError
| AttributeError
| ValueError
| ArithmeticError
| OverflowError
| OSError
| YoutubeDLError
| ExtractorError
| DownloadError
| Subclass (name : string) (parent : exn_class).

#[global] Instance exn_class_eq_dec : EqDecision exn_class.
Proof. solve_decision. Defined.

(** Method resolution order (single inheritance): the class, then its
    ancestors. *)
Fixpoint mro (c : exn_class) : list exn_class :=
  c :: match c with
       | BaseException => []
       | PyException | KeyboardInterrupt => [BaseException]
       | LookupError | TypeError | AttributeError | ValueError
       | ArithmeticError | OSError | YoutubeDLError =>
           [PyException; BaseException]
       | KeyError => [LookupError; PyException; BaseException]
       | OverflowError => [ArithmeticError; PyException; BaseException]
       | ExtractorError | DownloadError =>
           [YoutubeDLError; PyException; BaseException]
       | Subclass _ parent => mro parent
       end.

Definition issubclass (c d : exn_class) : bool := bool_decide (d ∈ mro c).

(** An exception instance: its class and [str(error)]. *)
Record exn : Type := mkExn { exn_class_of : exn_class; exn_str : str }.

Definition isinstance (e : exn) (c : exn_class) : bool :=
  issubclass (exn_class_of e) c.

(** [except (C1, C2, ...)] *)
Definition isinstance_any (e : exn) (cs : list exn_class) : bool :=
  existsb (isinstance e) cs.

(** The outcome of running Python code: a value, or a raised exception. *)
Inductive result (A : Type) : Type :=
| Ret (a : A)
| Raise (e : exn).
Arguments Ret {A} a.
Arguments Raise {A} e.

(* ===================================================================== *)
(** * The world: log, library calls, directories, terminal *)
(* ===================================================================== *)

Inductive level : Type := INFO | WARNING | ERROR.

(** Arguments of a [logger] call, formatted lazily by [logging]. *)
Inductive log_arg : Type :=
| LInt (n : Z)
| LStr (s : str).

(** [logger.<level>(fmt, *args)] *)
Record log_record : Type :=
  mkLog { log_level : level; log_fmt : string; log_args : list log_arg }.

(** Values found in the dictionaries the scripts handle. *)
Inductive pyval : Type :=
| PyNone
| PyBool (b : bool)
| PyInt (n : Z)
| PyStr (s : str)
| PyEntries (l : list (option (gmap str str))).

#[global] Instance pyval_eq_dec : EqDecision pyval.
Proof. solve_decision. Defined.

(** An options dictionary handed to [yt_dlp.YoutubeDL], in source order. *)
Abbreviation ydl_opts := (list (string * pyval)).

(** Calls into the external library. *)
Inductive event : Type :=
| EvExtractInfo (opts : ydl_opts) (url : str)
| EvDownload (opts : ydl_opts) (urls : list str).

Record world : Type := mkWorld {
  logs : list log_record;          (* records emitted so far, oldest first *)
  events : list event;             (* library calls so far, oldest first *)
  dirs : gset str;                 (* directories created so far *)
  tty : list (str * str)           (* [tqdm.write(s, end)] calls so far *)
}.

Definition emit (r : log_record) (w : world) : world :=
  mkWorld (logs w ++ [r]) (events w) (dirs w) (tty w).

Definition record_event (ev : event) (w : world) : world :=
  mkWorld (logs w) (events w ++ [ev]) (dirs w) (tty w).

Definition add_dir (d : str) (w : world) : world :=
  mkWorld (logs w) (events w) ({[ d ]} ∪ dirs w) (tty w).

Definition add_tty (s e : str) (w : world) : world :=
  mkWorld (logs w) (events w) (dirs w) (tty w ++ [(s, e)]).

(** Is the library call a [download]? *)
Definition is_download (ev : event) : bool :=
  match ev with EvDownload _ _ => true | _ => false end.

(** ** The state and exception monad *)

Definition M (A : Type) : Type := world -> result A * world.

Definition ret {A} (a : A) : M A := fun w => (Ret a, w).

Definition raise {A} (e : exn) : M A := fun w => (Raise e, w).

Definition bind {A B} (m : M A) (k : A -> M B) : M B :=
  fun w =>
    match m w with
    | (Ret a, w') => k a w'
    | (Raise e, w') => (Raise e, w')
    end.

Notation "'do' x <- m ; k" := (bind m (fun x => k))
  (at level 10, x name, m at level 100, k at level 200,
   format "'[v' 'do'  x  <-  m ; '/' k ']'").
Notation "'run' m ; k" := (bind m (fun _ => k))
  (at level 10, m at level 100, k at level 200,
   format "'[v' 'run'  m ; '/' k ']'").

(** [try: body  except cs1 as error: h1 error  except cs2 as error: ...]:
    the first clause whose classes match the raised exception handles it;
    an exception no clause matches propagates. *)
Fixpoint find_handler {A} (e : exn)
    (clauses : list (list exn_class * (exn -> M A))) : option (M A) :=
  match clauses with
  | [] => None
  | (cs, h) :: rest =>
      if isinstance_any e cs then Some (h e) else find_handler e rest
  end.

Definition try_except {A} (body : M A)
    (clauses : list (list exn_class * (exn -> M A))) : M A :=
  fun w =>
    match body w with
    | (Ret a, w') => (Ret a, w')
    | (Raise e, w') =>
        match find_handler e clauses with
        | Some h => h w'
        | None => (Raise e, w')
        end
    end.

Definition logger (l : level) (fmt : string) (args : list log_arg) : M unit :=
  fun w => (Ret tt, emit (mkLog l fmt args) w).

(** [d[key]]: a missing key raises [KeyError], whose [str] is the [repr]
    of the key. *)
Definition subscript {V} (d : gmap str V) (key : string) : M V :=
  match d !! py key with
  | Some v => ret v
  | None => raise (mkExn KeyError (py "'" ++ py key ++ py "'"))
  end.

(** [d.get(key, default)] *)
Definition dict_get {V} (d : gmap str V) (key : string) (default : V) : V :=
  match d !! py key with
  | Some v => v
  | None => default
  end.

(** [for x in xs: body x] followed by [orelse], where the body may
    [return] out of the enclosing function ([Some v]) or fall through to
    the next iteration ([None]). *)
Fixpoint for_each {A R} (xs : list A) (body : A -> M (option R))
    (orelse : M R) : M R :=
  match xs with
  | [] => orelse
  | x :: rest =>
      do r <- body x;
      match r with
      | Some v => ret v
      | None => for_each rest body orelse
      end
  end.

(** [range(n)] *)
Definition range (n : nat) : list nat := seq 0 n.

(* ===================================================================== *)
(** * Paths ([os.path] on POSIX) *)
(* ===================================================================== *)

Definition startswith_sep (p : str) : bool :=
  match p with
  | c :: _ => bool_decide (c = chr "/")
  | [] => false
  end.

Definition endswith_sep (p : str) : bool :=
  match last p with
  | Some c => bool_decide (c = chr "/")
  | None => false
  end.

(** [os.path.join(a, b)] *)
Definition os_path_join (a b : str) : str :=
  if startswith_sep b then b
  else if bool_decide (a = []) || endswith_sep a then a ++ b
  else a ++ py "/" ++ b.

(** [p[p.rfind("/") + 1:]], scanning with the component read so far. *)
Fixpoint after_last_sep (p : str) (acc : str) : str :=
  match p with
  | [] => acc
  | c :: rest =>
      if bool_decide (c = chr "/") then after_last_sep rest []
      else after_last_sep rest (acc ++ [c])
  end.

(** [os.path.basename(p)] *)
Definition os_path_basename (p : str) : str := after_last_sep p [].

(* ===================================================================== *)
(** * Configuration and the external library *)
(* ===================================================================== *)

Record DownloadConfig : Type := mkConfig {
  max_retries : nat;
  max_workers : nat;
  video_format : str;
  output_template : str
}.

(** [config = DownloadConfig()] *)
Definition config : DownloadConfig :=
  {| max_retries := 5;
     max_workers := 4;
     video_format :=
       py "bestvideo[ext=mp4]+bestaudio[ext=m4a]/best[ext=mp4]/best";
     output_template := py "%(title)s.%(ext)s" |}.

(** The two operations of [yt_dlp.YoutubeDL] the scripts use.  What they
    answer is outside the program; an answer may depend on how many
    library calls were made before it (first argument). *)
Record YoutubeDL : Type := mkYoutubeDL {
  extract_info : nat -> ydl_opts -> str -> result (option (gmap str pyval));
  download : nat -> ydl_opts -> list str -> result unit
}.

(** [ydl.extract_info(url, download=False)] *)
Definition ydl_extract_info (lib : YoutubeDL) (opts : ydl_opts) (url : str)
    : M (option (gmap str pyval)) :=
  fun w =>
    (extract_info lib (length (events w)) opts url,
     record_event (EvExtractInfo opts url) w).

(** [ydl.download(urls)] *)
Definition ydl_download (lib : YoutubeDL) (opts : ydl_opts) (urls : list str)
    : M unit :=
  fun w =>
    (download lib (length (events w)) opts urls,
     record_event (EvDownload opts urls) w).

(* ===================================================================== *)
(** * Single-Item Downloader ([download_video]) *)
(* ===================================================================== *)

Section PlaylistDownloader.

Variable cfg : DownloadConfig.
Variable lib : YoutubeDL.

Definition download_opts (output_path : str) : ydl_opts :=
  [ ("format"%string, PyStr (video_format cfg));
    ("outtmpl"%string,
      PyStr (os_path_join output_path (output_template cfg)));
    ("quiet"%string, PyBool true);
    ("no_warnings"%string, PyBool true) ].

(** [video_info.get("title", "Unknown video")] *)
Definition title_of (video_info : gmap str str) : str :=
  dict_get video_info "title" (py "Unknown video").

(** [f"https://www.youtube.com/watch?v={id}"] *)
Definition watch_url (id : str) : str :=
  py "https://www.youtube.com/watch?v=" ++ id.

(** The body of the [try] statement of one attempt.  Constructing the
    [YoutubeDL] object and entering it as a context manager are taken
    not to fail. *)
Definition attempt_try (video_info : gmap str str) (output_path : str)
    : M (option bool) :=
  do id <- subscript video_info "id";
  let video_url := watch_url id in
  run ydl_download lib (download_opts output_path) [video_url];
  ret (Some true).

(** One iteration of the retry loop: the [try] with its [except]. *)
Definition attempt_body (video_info : gmap str str) (output_path : str)
    (attempt : nat) : M (option bool) :=
  try_except (attempt_try video_info output_path)
    [ ([DownloadError],
       fun error =>
         run logger WARNING "Attempt %d failed for %s: %s"
               [ LInt (Z.of_nat attempt + 1);
                 LStr (title_of video_info);
                 LStr (exn_str error) ];
         ret None) ].

(** The statements after the loop. *)
Definition attempts_exhausted (video_info : gmap str str) : M bool :=
  run logger ERROR "Failed to download %s after %d attempts"
        [ LStr (title_of video_info); LInt (Z.of_nat (max_retries cfg)) ];
  ret false.

Definition download_video (video_info : gmap str str) (output_path : str)
    : M bool :=
  for_each (range (max_retries cfg))
    (attempt_body video_info output_path)
    (attempts_exhausted video_info).

(* =================================================================== *)
(** * Metadata Fetcher of the playlist script ([get_playlist_info]) *)
(* =================================================================== *)

Definition playlist_info_opts : ydl_opts :=
  [ ("quiet"%string, PyBool true);
    ("no_warnings"%string, PyBool true);
    ("extract_flat"%string, PyStr (py "in_playlist"));
    ("force_generic_extractor"%string, PyBool true) ].

Definition get_playlist_info (playlist_url : str)
    : M (option (gmap str pyval)) :=
  try_except (ydl_extract_info lib playlist_info_opts playlist_url)
    [ ([ExtractorError],
       fun error =>
         run logger ERROR "Failed to extract playlist information: %s"
               [ LStr (exn_str error) ];
         ret None);
      ([YoutubeDLError],
       fun error =>
         run logger ERROR "A YouTube-DL error occurred: %s"
               [ LStr (exn_str error) ];
         ret None) ].

End PlaylistDownloader.

(* ===================================================================== *)
(** * Metadata Fetcher of the video script ([get_video_info]) *)
(* ===================================================================== *)

Definition video_info_opts : ydl_opts :=
  [ ("quiet"%string, PyBool true); ("no_warnings"%string, PyBool true) ].

Definition get_video_info (lib : YoutubeDL) (url : str)
    : M (option (gmap str pyval)) :=
  try_except (ydl_extract_info lib video_info_opts url)
    [ ([DownloadError; ExtractorError],
       fun e =>
         run logger ERROR "Error retrieving video information: %s"
               [ LStr (exn_str e) ];
         ret None) ].

(* ===================================================================== *)
(** * Vocabulary for the statements about [download_video] *)
(* ===================================================================== *)

Section DownloadVideoSpec.

Variable cfg : DownloadConfig.
Variable lib : YoutubeDL.
Variable video_info : gmap str str.
Variable output_path : str.

(** What the [try] body of attempt [j] (counted from 0) meets when
    [download_video] is entered in world [w] and the attempts before it
    have each made one library call: the missing-key error of the URL
    construction, or the answer of the library to the download call. *)
Definition attempt_outcome (w : world) (j : nat) : result unit :=
  match video_info !! py "id" with
  | None => Raise (mkExn KeyError (py "'id'"))
  | Some id =>
      download lib (length (events w) + j)
        (download_opts cfg output_path) [watch_url id]
  end.

Definition fails_with_download_error (r : result unit) : Prop :=
  exists e, r = Raise e /\ isinstance e DownloadError = true.

Definition error_text (r : result unit) : str :=
  match r with
  | Raise e => exn_str e
  | Ret _ => []
  end.

(** The warning logged after attempt [j] has failed. *)
Definition attempt_warning (w : world) (j : nat) : log_record :=
  mkLog WARNING "Attempt %d failed for %s: %s"
    [ LInt (Z.of_nat j + 1);
      LStr (title_of video_info);
      LStr (error_text (attempt_outcome w j)) ].

(** The record logged once every attempt has failed. *)
Definition exhaustion_record : log_record :=
  mkLog ERROR "Failed to download %s after %d attempts"
    [ LStr (title_of video_info); LInt (Z.of_nat (max_retries cfg)) ].

(** The download calls of [k] attempts. *)
Definition download_calls (k : nat) : list event :=
  match video_info !! py "id" with
  | None => []
  | Some id =>
      repeat (EvDownload (download_opts cfg output_path) [watch_url id]) k
  end.

(** The world after [made] download calls of which the first [failed]
    were answered by the download error and logged: nothing but these
    calls and warnings is added. *)
Definition after_attempts (w : world) (failed made : nat) : world :=
  mkWorld (logs w ++ map (attempt_warning w) (seq 0 failed))
          (events w ++ download_calls made)
          (dirs w) (tty w).

(** The world after the first [k] attempts have failed with the download
    error: [k] download calls and [k] warnings. *)
Definition after_failed_attempts (w : world) (k : nat) : world :=
  after_attempts w k k.

End DownloadVideoSpec.

(** ** Concrete libraries and inputs used in examples *)

Definition empty_world : world := mkWorld [] [] ∅ [].

(** A library whose [download] raises the download error on every call, as
    the mock of [test_download_video_failure] does. *)
Definition failing_library : YoutubeDL :=
  {| extract_info := fun _ _ _ => Raise (mkExn ExtractorError (py "Test error"));
     download := fun _ _ _ => Raise (mkExn DownloadError (py "Test error")) |}.

(** A library whose [download] raises the download error on its first two
    calls and succeeds from the third on. *)
Definition third_time_lucky : YoutubeDL :=
  {| extract_info := fun _ _ _ => Ret (Some ∅);
     download := fun n _ _ =>
       if (n <? 2)%nat then Raise (mkExn DownloadError (py "Test error"))
       else Ret tt |}.

(** A library whose [download] fails once with the download error and then
    with an operating-system error. *)
Definition disk_full_library : YoutubeDL :=
  {| extract_info := fun _ _ _ => Ret (Some ∅);
     download := fun n _ _ =>
       if (n <? 1)%nat then Raise (mkExn DownloadError (py "Test error"))
       else Raise (mkExn OSError (py "No space left on device")) |}.

Definition video_abc123 : gmap str str := {[ py "id" := py "abc123" ]}.

Definition video_without_id : gmap str str := {[ py "title" := py "Untitled" ]}.

(** A library whose [extract_info] raises the general library error
    [yt_dlp.utils.YoutubeDLError] itself. *)
Definition general_error_library : YoutubeDL :=
  {| extract_info := fun _ _ _ =>
       Raise (mkExn YoutubeDLError (py "Test error"));
     download := fun _ _ _ => Ret tt |}.




Definition playlist_url_abc123 : str :=
  py "https://www.youtube.com/playlist?list=abc123".

Definition video_url_example : str :=
  py "https://www.youtube.com/watch?v=dQw4w9WgXcQ".

(* ===================================================================== *)
(** * URL Validator ([validate_url]) *)
(* ===================================================================== *)

(** The fragment of Python's [re] syntax the pattern uses. *)
Inductive regex : Type :=
| Void                          (* matches nothing; arises in derivatives *)
| Eps                           (* the empty pattern *)
| Chr (c : N)                   (* a literal character *)
| Dot                           (* [.]: any character but a line feed *)
| Seq (a b : regex)             (* [ab] *)
| Alt (a b : regex)             (* [a|b] *)
| Opt (a : regex)               (* [a?] *)
| Star (a : regex)              (* [a*] *)
| Plus (a : regex).             (* [a+] *)

Definition line_feed : N := 10.

Fixpoint nullable (r : regex) : bool :=
  match r with
  | Void | Chr _ | Dot => false
  | Eps | Opt _ | Star _ => true
  | Seq a b => nullable a && nullable b
  | Alt a b => nullable a || nullable b
  | Plus a => nullable a
  end.

(** The pattern left to match once the character [c] has been read. *)
Fixpoint der (c : N) (r : regex) : regex :=
  match r with
  | Void | Eps => Void
  | Chr d => if bool_decide (c = d) then Eps else Void
  | Dot => if bool_decide (c = line_feed) then Void else Eps
  | Seq a b =>
      if nullable a then Alt (Seq (der c a) b) (der c b)
      else Seq (der c a) b
  | Alt a b => Alt (der c a) (der c b)
  | Opt a => der c a
  | Star a => Seq (der c a) (Star a)
  | Plus a => Seq (der c a) (Star a)
  end.

(** [bool(re.match(r, s))]: does some prefix of [s] match [r]? *)
Fixpoint re_match (r : regex) (s : str) : bool :=
  nullable r ||
  match s with
  | [] => false
  | c :: rest => re_match (der c r) rest
  end.

(** A run of literal characters. *)
Fixpoint lit_chars (cs : str) : regex :=
  match cs with
  | [] => Eps
  | [c] => Chr c
  | c :: rest => Seq (Chr c) (lit_chars rest)
  end.

Definition lit (s : string) : regex := lit_chars (py s).

(** [r"^(https?://)?(www\.)?(youtube\.com|youtu\.be)/.+"]; the anchor [^]
    holds where [re.match] starts, at the beginning of the string. *)
Definition youtube_regex : regex :=
  Seq (Opt (Seq (lit "http") (Seq (Opt (Chr (chr "s"))) (lit "://"))))
  (Seq (Opt (lit "www."))
  (Seq (Alt (lit "youtube.com") (lit "youtu.be"))
  (Seq (Chr (chr "/"))
       (Plus Dot)))).

Definition validate_url (url : str) : bool := re_match youtube_regex url.

(** ** The language of a pattern *)

Fixpoint lang (r : regex) (s : str) : Prop :=
  match r with
  | Void => False
  | Eps => s = []
  | Chr c => s = [c]
  | Dot => exists c, s = [c] /\ c <> line_feed
  | Seq a b => exists p q, s = p ++ q /\ lang a p /\ lang b q
  | Alt a b => lang a s \/ lang b s
  | Opt a => s = [] \/ lang a s
  | Star a => exists ps, s = concat ps /\ Forall (lang a) ps
  | Plus a => exists p ps, s = p ++ concat ps /\ lang a p /\ Forall (lang a) ps
  end.

(** ** The shapes of URL named by the specification *)

Definition scheme_prefixes : list str := [ []; py "http://"; py "https://" ].
Definition www_prefixes : list str := [ []; py "www." ].
Definition host_tokens : list str := [ py "youtube.com"; py "youtu.be" ].

(** An optional scheme, an optional [www.], a host token, a slash and the
    text [path], followed by [rest]. *)
Definition url_shape (path rest : str) (s : str) : Prop :=
  exists scheme www host,
    scheme ∈ scheme_prefixes /\ www ∈ www_prefixes /\ host ∈ host_tokens
    /\ s = scheme ++ www ++ host ++ py "/" ++ path ++ rest.

(** "an optional scheme, an optional [www.], a host token and a slash
    followed by a non-empty path" *)
Definition has_nonempty_path (s : str) : Prop :=
  exists path, path <> [] /\ url_shape path [] s.

(** The same, the path starting with a character other than a line
    feed. *)
Definition has_path_on_first_line (s : str) : Prop :=
  exists c rest, c <> line_feed /\ url_shape [c] rest s.

(* ===================================================================== *)
(** * Batch Orchestrator ([download_videos]) *)
(* ===================================================================== *)

(** [if video]: [None] and the empty dictionary are falsy. *)
Definition truthy (video : option (gmap str str)) : bool :=
  match video with
  | None => false
  | Some d => negb (bool_decide (d = ∅))
  end.

(** A call [download_video(video, output_path)] handed to the executor. *)
Record task : Type := mkTask { task_video : gmap str str; task_path : str }.

(** [executor.submit(download_video, video, output_path)] for one element
    of [videos], under the filter [if video]. *)
Definition submit (output_path : str) (video : option (gmap str str))
    : option task :=
  if truthy video
  then match video with
       | Some d => Some (mkTask d output_path)
       | None => None
       end
  else None.

(** [[executor.submit(download_video, video, output_path)
      for video in videos if video]]: the calls submitted, in order. *)
Definition submissions (videos : list (option (gmap str str)))
    (output_path : str) : list task :=
  omap (submit output_path) videos.

(** A call being executed by a worker thread: the future it belongs to
    (its index in [futures]) and the attempts its retry loop has yet to
    make. *)
Record active : Type := mkActive {
  active_future : nat;
  active_task : task;
  active_attempts : list nat
}.

(** The executor of [concurrent.futures.ThreadPoolExecutor]:
    - [queue]: the work queue, first in first out;
    - [workers]: the calls in progress, one per busy worker thread;
    - [started]: the calls begun so far, in the order they began;
    - [finished]: the futures completed so far with their outcomes, in
      completion order;
    - [pool_world]: the world shared by all threads. *)
Record pool : Type := mkPool {
  queue : list (nat * task);
  workers : list active;
  started : list (nat * task);
  finished : list (nat * result bool);
  pool_world : world
}.

Section BatchOrchestrator.

Variable cfg : DownloadConfig.
Variable lib : YoutubeDL.

(** Free worker threads take calls from the head of the queue. *)
Fixpoint dispatch (free : nat) (p : pool) : pool :=
  match free, queue p with
  | S free', (i, t) :: rest =>
      dispatch free'
        (mkPool rest
           (workers p ++ [mkActive i t (range (max_retries cfg))])
           (started p ++ [(i, t)])
           (finished p) (pool_world p))
  | _, _ => p
  end.

Definition dispatch_free (p : pool) : pool :=
  dispatch (max_workers cfg - length (workers p)) p.

(** One step of a call in progress: the next iteration of the retry loop
    of [download_video], or the statements after the loop. *)
Definition task_step (a : active) : M (option bool) :=
  match active_attempts a with
  | [] =>
      do r <- attempts_exhausted cfg (task_video (active_task a));
      ret (Some r)
  | attempt :: _ =>
      attempt_body cfg lib (task_video (active_task a))
        (task_path (active_task a)) attempt
  end.

(** The worker thread at position [i] runs its call for one step.  A
    call that returns or raises completes its future and frees the
    thread, which takes the next call from the queue. *)
Definition worker_step (i : nat) (p : pool) : pool :=
  match workers p !! i with
  | None => p
  | Some a =>
      match task_step a (pool_world p) with
      | (Ret None, w') =>
          mkPool (queue p)
            (<[ i := mkActive (active_future a) (active_task a)
                       (tail (active_attempts a)) ]> (workers p))
            (started p) (finished p) w'
      | (Ret (Some r), w') =>
          dispatch_free
            (mkPool (queue p) (delete i (workers p)) (started p)
               (finished p ++ [(active_future a, Ret r)]) w')
      | (Raise e, w') =>
          dispatch_free
            (mkPool (queue p) (delete i (workers p)) (started p)
               (finished p ++ [(active_future a, Raise e)]) w')
      end
  end.

(** The scheduler picks which busy thread runs next. *)
Definition pool_step (choice : nat) (p : pool) : pool :=
  match workers p with
  | [] => p
  | _ :: _ => worker_step (choice mod length (workers p)) p
  end.

(** [steps] scheduling decisions, the [t]-th of them being [sched t]. *)
Fixpoint run_pool (sched : nat -> nat) (t steps : nat) (p : pool) : pool :=
  match steps with
  | O => p
  | S steps' => run_pool sched (S t) steps' (pool_step (sched t) p)
  end.

(** The executor once [futures] have been submitted. *)
Definition submitted_pool (futures : list task) (w : world) : pool :=
  dispatch_free (mkPool (imap (fun i t => (i, t)) futures) [] [] [] w).

(** No call takes more steps than its attempts and the final
    statements. *)
Definition enough_steps (futures : list task) : nat :=
  length futures * S (max_retries cfg).

(** The executor when the [with] block is left: every submitted call has
    run to its end ([shutdown(wait=True)]). *)
Definition final_pool (sched : nat -> nat) (futures : list task)
    (w : world) : pool :=
  run_pool sched 0 (enough_steps futures) (submitted_pool futures w).

(** [for future in as_completed(futures): future.result()]: the first
    exception met among the completed futures is raised again. *)
Fixpoint collect_results (completed : list (nat * result bool))
    : result unit :=
  match completed with
  | [] => Ret tt
  | (_, Ret _) :: rest => collect_results rest
  | (_, Raise e) :: _ => Raise e
  end.

(** [download_videos].  The scheduling of the worker threads is outside
    the program and given by [sched]; the progress bar of [tqdm] is not
    modelled. *)
Definition download_videos (sched : nat -> nat)
    (videos : list (option (gmap str str))) (output_path : str) : M unit :=
  fun w =>
    if bool_decide (max_workers cfg = 0%nat)
    then (Raise (mkExn ValueError
                   (py "max_workers must be greater than 0")), w)
    else
      let futures := submissions videos output_path in
      let p := final_pool sched futures w in
      (collect_results (finished p), pool_world p).

End BatchOrchestrator.

(* ===================================================================== *)
(** * Collection-level Download Flow ([download_playlist]) *)
(* ===================================================================== *)

(** [if not playlist_info]: [None] and the empty dictionary are falsy. *)
Definition info_truthy (info : option (gmap str pyval)) : bool :=
  match info with
  | None => false
  | Some d => negb (bool_decide (d = ∅))
  end.

Section PlaylistFlow.

Variable unicode_isalnum : N -> bool.
Variable cfg : DownloadConfig.
Variable lib : YoutubeDL.

(** The answer of the operating system to [os.makedirs(path,
    exist_ok=True)]. *)
Variable makedirs : str -> result unit.

Variable sched : nat -> nat.

(** [os.makedirs(path, exist_ok=True)] *)
Definition os_makedirs (path : str) : M unit :=
  fun w =>
    match makedirs path with
    | Ret _ => (Ret tt, add_dir path w)
    | Raise e => (Raise e, w)
    end.

(** [create_safe_filename] applied to the value found under ["title"]:
    a string is sanitized; a list is iterated and its first element has
    no [isalnum]; the other values are not iterable. *)
Definition safe_title (title : pyval) : M str :=
  match title with
  | PyStr s => ret (create_safe_filename unicode_isalnum s)
  | PyEntries [] => ret []
  | PyEntries (_ :: _) =>
      raise (mkExn AttributeError (py "object has no attribute 'isalnum'"))
  | PyNone | PyBool _ | PyInt _ =>
      raise (mkExn TypeError (py "object is not iterable"))
  end.

(** [download_videos(playlist_info["entries"], playlist_path)]: a list
    of entries is handed over; the other values are not iterable, except
    a string, whose characters are truthy but are not dictionaries. *)
Definition download_entries (entries : pyval) (playlist_path : str)
    : M unit :=
  match entries with
  | PyEntries videos => download_videos cfg lib sched videos playlist_path
  | PyStr [] => download_videos cfg lib sched [] playlist_path
  | PyStr (_ :: _) =>
      if bool_decide (max_workers cfg = 0%nat)
      then raise (mkExn ValueError
                    (py "max_workers must be greater than 0"))
      else if bool_decide (max_retries cfg = 0%nat)
      then raise (mkExn AttributeError
                    (py "'str' object has no attribute 'get'"))
      else raise (mkExn TypeError
                    (py "string indices must be integers"))
  | PyNone | PyBool _ | PyInt _ =>
      if bool_decide (max_workers cfg = 0%nat)
      then raise (mkExn ValueError
                    (py "max_workers must be greater than 0"))
      else raise (mkExn TypeError (py "object is not iterable"))
  end.

(** [logger.info] takes the title as found. *)
Definition title_arg (title : pyval) : log_arg :=
  match title with
  | PyStr s => LStr s
  | PyInt n => LInt n
  | PyBool b => LInt (if b then 1 else 0)
  | PyNone => LStr (py "None")
  | PyEntries _ => LStr (py "[]")
  end.

Definition download_playlist (playlist_url storage_location : str)
    : M unit :=
  do playlist_info <- get_playlist_info lib playlist_url;
  match playlist_info with
  | Some info =>
      if info_truthy playlist_info then
        match info !! py "entries" with
        | None => logger ERROR "No videos found in the playlist." []
        | Some entries =>
            let playlist_title :=
              dict_get info "title" (PyStr (py "Untitled Playlist")) in
            do safe_playlist_title <- safe_title playlist_title;
            let playlist_path :=
              os_path_join storage_location safe_playlist_title in
            do created <-
              try_except
                (run os_makedirs playlist_path; ret true)
                [ ([OSError],
                   fun error =>
                     run logger ERROR "Failed to create directory %s: %s"
                           [ LStr playlist_path; LStr (exn_str error) ];
                     ret false) ];
            if (created : bool) then
              run logger INFO "Downloading playlist: %s"
                    [ title_arg playlist_title ];
              run download_entries entries playlist_path;
              logger INFO "Playlist download complete!" []
            else ret tt
        end
      else logger ERROR "Failed to retrieve playlist information." []
  | None => logger ERROR "Failed to retrieve playlist information." []
  end.

End PlaylistFlow.

(** ** Vocabulary for the statements about [download_playlist] *)

(** The metadata fetch gave nothing, or a dictionary without ["entries"]. *)
Definition absent_or_without_entries (info : option (gmap str pyval)) : Prop :=
  match info with
  | None => True
  | Some d => d !! py "entries" = None
  end.

(** The record logged when the flow gives up. *)
Definition abort_record (info : option (gmap str pyval)) : log_record :=
  if info_truthy info
  then mkLog ERROR "No videos found in the playlist." []
  else mkLog ERROR "Failed to retrieve playlist information." [].

(** A library whose [extract_info] returns a playlist without entries. *)
Definition library_without_entries : YoutubeDL :=
  {| extract_info := fun _ _ _ =>
       Ret (Some {[ py "title" := PyStr (py "Test Playlist") ]});
     download := fun _ _ _ => Ret tt |}.

(** An operating system that creates every directory asked for. *)
Definition makedirs_ok : str -> result unit := fun _ => Ret tt.

(** The scheduler that always runs the first busy thread. *)
Definition first_thread : nat -> nat := fun _ => 0%nat.

(** ** Vocabulary for the statements about [download_videos] *)

Section BatchSpec.

Variable cfg : DownloadConfig.

(** A call as the worker thread begins it. *)
Definition begin_call (it : nat * task) : active :=
  mkActive (fst it) (snd it) (range (max_retries cfg)).

(** The futures with their positions in [futures]. *)
Definition numbered (futures : list task) : list (nat * task) :=
  imap (fun i t => (i, t)) futures.

(** The steps the calls in the executor can still take. *)
Definition steps_left (p : pool) : nat :=
  sum_list_with (fun a => S (length (active_attempts a))) (workers p)
  + length (queue p) * S (max_retries cfg).

(** What holds of the executor throughout:
    - the calls begun and the calls queued are the submitted ones, in
      submission order;
    - the futures in progress and completed are those begun, each once;
    - the calls in progress are submitted ones;
    - threads are busy while calls are queued;
    - no more threads are busy than the executor has. *)
Record pool_inv (futures : list task) (p : pool) : Prop := mkPoolInv {
  inv_order : started p ++ queue p = numbered futures;
  inv_once :
    map active_future (workers p) ++ map fst (finished p)
    ≡ₚ map fst (started p);
  inv_calls :
    Forall (fun a => (active_future a, active_task a) ∈ numbered futures)
      (workers p);
  inv_busy : workers p = [] -> queue p = [];
  inv_bound : (length (workers p) <= max_workers cfg)%nat
}.

(** A record [download_video] logs for the call [t]. *)
Definition logged_for (t : task) (r : log_record) : Prop :=
  r = exhaustion_record cfg (task_video t)
  \/ exists attempt msg,
       r = mkLog WARNING "Attempt %d failed for %s: %s"
             [ LInt (Z.of_nat attempt + 1);
               LStr (title_of (task_video t));
               LStr msg ].

(** A library call [download_video] makes for the call [t]. *)
Definition called_for (t : task) (ev : event) : Prop :=
  exists id,
    task_video t !! py "id" = Some id
    /\ ev = EvDownload (download_opts cfg (task_path t)) [watch_url id].

(** World [w'] extends [w] by records and library calls of the calls
    [futures] only. *)
Definition extends_by (futures : list task) (w w' : world) : Prop :=
  exists records calls,
    logs w' = logs w ++ records
    /\ events w' = events w ++ calls
    /\ Forall (fun r => exists t, t ∈ futures /\ logged_for t r) records
    /\ Forall (fun ev => exists t, t ∈ futures /\ called_for t ev) calls
    /\ dirs w' = dirs w /\ tty w' = tty w.

End BatchSpec.

(** A second entry, with a title. *)
Definition video_xyz789 : gmap str str :=
  {[ py "id" := py "xyz789"; py "title" := py "Second video" ]}.

(** A library whose every call succeeds. *)
Definition working_library : YoutubeDL :=
  {| extract_info := fun _ _ _ =>
       Ret (Some {[ py "title" := PyStr (py "Test Playlist");
                    py "entries" :=
                      PyEntries [ Some {[ py "id" := py "video1" ]};
                                  Some {[ py "id" := py "video2" ]} ] ]});
     download := fun _ _ _ => Ret tt |}.

(** A scheduler that alternates between the busy threads. *)
Definition round_robin : nat -> nat := fun t => t.

(* ===================================================================== *)
(** * Numbers: Python [int] and [float] *)
(* ===================================================================== *)

(** A Python [float] is an IEEE 754 binary64 number. *)
Abbreviation float := spec_float.

Definition float_prec : Z := 53.
Definition float_emax : Z := 1024.

(** [float(n)] for an [int] within range: the nearest float, ties to
    even. *)
Definition float_of_int (n : Z) : float :=
  binary_normalize float_prec float_emax n 0 false.

Definition is_infinite (x : float) : bool :=
  match x with
  | S754_infinity _ => true
  | _ => false
  end.

(** [a / b] on two [int]s: the float nearest to the exact quotient, ties
    to even; a zero divisor and a quotient beyond the floats raise. *)
Definition int_true_divide (a b : Z) : M float :=
  if (b =? 0)%Z then
    raise (mkExn (Subclass "ZeroDivisionError" ArithmeticError)
             (py "division by zero"))
  else
    let q :=
      match a with
      | Z0 => S754_zero (b <? 0)%Z
      | _ =>
          SFdiv float_prec float_emax
            (S754_finite (a <? 0)%Z (Z.to_pos (Z.abs a)) 0)
            (S754_finite (b <? 0)%Z (Z.to_pos (Z.abs b)) 0)
      end in
    if is_infinite q then
      raise (mkExn OverflowError
               (py "integer division result too large for a float"))
    else ret q.

(** [x * y] on two [float]s. *)
Definition float_mul (x y : float) : float := SFmul float_prec float_emax x y.

(** The decimal digits of a natural number. *)
Fixpoint uint_digits (u : Decimal.uint) : str :=
  match u with
  | Decimal.Nil => []
  | Decimal.D0 u => 48 :: uint_digits u
  | Decimal.D1 u => 49 :: uint_digits u
  | Decimal.D2 u => 50 :: uint_digits u
  | Decimal.D3 u => 51 :: uint_digits u
  | Decimal.D4 u => 52 :: uint_digits u
  | Decimal.D5 u => 53 :: uint_digits u
  | Decimal.D6 u => 54 :: uint_digits u
  | Decimal.D7 u => 55 :: uint_digits u
  | Decimal.D8 u => 56 :: uint_digits u
  | Decimal.D9 u => 57 :: uint_digits u
  end.

Definition decimal (n : Z) : str := uint_digits (N.to_uint (Z.to_N n)).

(** The integer nearest to [num / den], ties to even ([den] positive). *)
Definition round_half_even (num den : Z) : Z :=
  let q := (num / den)%Z in
  let r := (num mod den)%Z in
  match (2 * r ?= den)%Z with
  | Lt => q
  | Gt => (q + 1)%Z
  | Eq => if Z.even q then q else (q + 1)%Z
  end.

(** The number of tenths nearest to the magnitude [m * 2^e]. *)
Definition tenths (m : positive) (e : Z) : Z :=
  match e with
  | Zneg k => round_half_even (Zpos m * 10) (2 ^ Zpos k)
  | _ => (Zpos m * 10 * 2 ^ e)%Z
  end.

(** [format(x, ".1f")]: the decimal numeral with one fractional digit
    nearest to [x], ties to even, with the sign of [x]. *)
Definition format_f1 (x : float) : str :=
  match x with
  | S754_nan => py "nan"
  | S754_infinity s => (if s then py "-" else []) ++ py "inf"
  | S754_zero s => (if s then py "-" else []) ++ py "0.0"
  | S754_finite s m e =>
      let t := tenths m e in
      (if s then py "-" else [])
        ++ decimal (t / 10) ++ py "." ++ decimal (t mod 10)
  end.

(* ===================================================================== *)
(** * Progress Reporter ([progress_hook]) *)
(* ===================================================================== *)

(** Truth value of a Python value. *)
Definition py_truthy (v : pyval) : bool :=
  match v with
  | PyNone => false
  | PyBool b => b
  | PyInt n => negb (n =? 0)%Z
  | PyStr s => negb (bool_decide (s = []))
  | PyEntries l => negb (bool_decide (l = []))
  end.

(** The operand of an arithmetic operator: an [int] ([bool] included), or
    a [TypeError]. *)
Definition as_int (v : pyval) : M Z :=
  match v with
  | PyInt n => ret n
  | PyBool b => ret (if b then 1 else 0)%Z
  | PyNone | PyStr _ | PyEntries _ =>
      raise (mkExn TypeError (py "unsupported operand type(s) for /"))
  end.

(** [(downloaded_bytes / total_bytes) * 100] *)
Definition percentage (downloaded_bytes total_bytes : pyval) : M float :=
  do a <- as_int downloaded_bytes;
  do b <- as_int total_bytes;
  do q <- int_true_divide a b;
  ret (float_mul q (float_of_int 100)).

(** [os.path.basename(v)] *)
Definition basename_of (v : pyval) : M str :=
  match v with
  | PyStr p => ret (os_path_basename p)
  | PyNone | PyBool _ | PyInt _ | PyEntries _ =>
      raise (mkExn TypeError
               (py "expected str, bytes or os.PathLike object"))
  end.

(** [tqdm.write(s, end=e)]; [end] defaults to a line feed. *)
Definition tqdm_write (s e : str) : M unit :=
  fun w => (Ret tt, add_tty s e w).

Definition progress_hook (d : gmap str pyval) : M unit :=
  do status <- subscript d "status";
  if bool_decide (status = PyStr (py "downloading")) then
    let total_bytes := dict_get d "total_bytes" PyNone in
    let downloaded_bytes := dict_get d "downloaded_bytes" (PyInt 0) in
    if py_truthy total_bytes then
      do progress <- percentage downloaded_bytes total_bytes;
      do file <- subscript d "filename";
      do filename <- basename_of file;
      tqdm_write
        (py "Downloading " ++ filename ++ py ": " ++ format_f1 progress
           ++ py "%")
        [13]
    else ret tt
  else
    do status' <- subscript d "status";
    if bool_decide (status' = PyStr (py "finished")) then
      do file <- subscript d "filename";
      do filename <- basename_of file;
      tqdm_write ([line_feed] ++ py "Finished downloading " ++ filename)
        [line_feed]
    else ret tt.

(** The dictionaries of [test_progress_hook]. *)
Definition progress_downloading : gmap str pyval :=
  {[ py "status" := PyStr (py "downloading");
     py "filename" := PyStr (py "/x/file.mp4");
     py "total_bytes" := PyInt 1000;
     py "downloaded_bytes" := PyInt 500 ]}.

Definition progress_finished : gmap str pyval :=
  {[ py "status" := PyStr (py "finished");
     py "filename" := PyStr (py "/x/file.mp4") ]}.


(** ** Further vocabulary for the statements about [download_videos] *)

(** The download calls the calls in the executor can still make. *)
Definition calls_left (cfg : DownloadConfig) (p : pool) : nat :=
  sum_list_with (fun a => length (active_attempts a)) (workers p)
  + length (queue p) * max_retries cfg.

(** No future has completed by raising an instance of the download
    error. *)
Definition no_download_error_raised
    (completed : list (nat * result bool)) : Prop :=
  Forall (fun ir => forall e, snd ir = Raise e ->
                      isinstance e DownloadError = false) completed.

(** Every future completed by returning. *)
Definition all_returned (completed : list (nat * result bool)) : Prop :=
  Forall (fun ir => exists b, snd ir = Ret b) completed.

(** The library's [download] fails with the download error only. *)
Definition download_fails_softly (lib : YoutubeDL) : Prop :=
  forall n opts urls e,
    download lib n opts urls = Raise e -> isinstance e DownloadError = true.


(** The calls in progress and queued all carry an identifier, and every
    future so far completed by returning. *)
Definition identified (t : task) : Prop := is_Some (task_video t !! py "id").

Definition pool_returning (p : pool) : Prop :=
  Forall (fun a => identified (active_task a)) (workers p)
  /\ Forall (fun it => identified (snd it)) (queue p)
  /\ all_returned (finished p).

(** No thread idles while a call is queued, and no more threads are busy
    than the executor has. *)
Definition pool_saturated (cfg : DownloadConfig) (p : pool) : Prop :=
  (length (workers p) <= max_workers cfg)%nat
  /\ (queue p <> [] -> length (workers p) = max_workers cfg).

(** ** Further vocabulary for the statements about [download_playlist] *)

(** The record logged when the directory cannot be created. *)
Definition directory_failure (playlist_path : str) (e : exn) : log_record :=
  mkLog ERROR "Failed to create directory %s: %s"
    [ LStr playlist_path; LStr (exn_str e) ].

(** The record logged when the flow has run to its end. *)
Definition playlist_complete : log_record :=
  mkLog INFO "Playlist download complete!" [].


(** A library that returns a playlist of two entries and whose every
    download fails with the download error. *)
Definition unreachable_library : YoutubeDL :=
  {| extract_info := extract_info working_library;
     download := download failing_library |}.

(** The exception of [video_info["id"]] on a dictionary without the
    key. *)
Definition missing_id : exn := mkExn KeyError (py "'id'").

(** A call whose dictionary has no ["id"]. *)
Definition unidentified (t : task) : Prop := task_video t !! py "id" = None.

(** The calls in progress and queued are the futures of their numbers; a
    call without identifier in progress has not used up its attempts;
    a future that completed by raising raised the missing key, and the
    future of a call without identifier completed by raising. *)
Definition pool_raising (futures : list task) (p : pool) : Prop :=
  Forall (fun a => futures !! active_future a = Some (active_task a)
                   /\ (unidentified (active_task a) ->
                       active_attempts a <> []))
    (workers p)
  /\ Forall (fun it => futures !! fst it = Some (snd it)) (queue p)
  /\ Forall (fun ir => (forall e, snd ir = Raise e -> e = missing_id)
                       /\ forall t, futures !! fst ir = Some t ->
                            unidentified t -> exists e, snd ir = Raise e)
       (finished p).

(* ===================================================================== *)
(** * Terminal input and output *)
(* ===================================================================== *)

(** [print(s)]: the text and a line feed on the standard output, the
    stream [tqdm.write] writes to. *)
Definition print (s : str) : M unit :=
  fun w => (Ret tt, add_tty s [line_feed] w).

(** [input(prompt)]: the prompt is written to the standard output without
    a line feed.  What the terminal answers, a line or an exception (the
    end of the input, an interrupt), is outside the program. *)
Definition input (prompt : string) (answer : result str) : M str :=
  fun w => (answer, add_tty (py prompt) [] w).

(** [c.isspace()] *)
Definition isspace (c : N) : bool :=
  bool_decide
    (c ∈ [ 9; 10; 11; 12; 13; 28; 29; 30; 31; 32; 133; 160; 5760;
           8192; 8193; 8194; 8195; 8196; 8197; 8198; 8199; 8200; 8201;
           8202; 8232; 8233; 8239; 8287; 12288 ]).

(** [s.lstrip()], [s.rstrip()] and [s.strip()] *)
Fixpoint lstrip (s : str) : str :=
  match s with
  | [] => []
  | c :: rest => if isspace c then lstrip rest else s
  end.

Definition rstrip (s : str) : str := reverse (lstrip (reverse s)).

Definition strip (s : str) : str := rstrip (lstrip s).

(* ===================================================================== *)
(** * Entry point of the playlist script ([main]) *)
(* ===================================================================== *)

Module youtube_playlist_downloader.

Section Main.

Variable unicode_isalnum : N -> bool.
Variable cfg : DownloadConfig.
Variable lib : YoutubeDL.
Variable makedirs : str -> result unit.
Variable sched : nat -> nat.

(** The answer of the operating system to [os.path.isdir(path)]. *)
Variable isdir : str -> bool.

(** [main], given the answers of the terminal to its two [input]
    calls. *)
Definition main (typed_url typed_location : result str) : M unit :=
  run print (py "YouTube Playlist Downloader");
  run print (py "===========================");
  do url_line <- input "Enter the URL of the YouTube playlist: " typed_url;
  let playlist_url := strip url_line in
  do location_line <- input "Enter the download location: " typed_location;
  let download_location := strip location_line in
  if negb (isdir download_location) then
    logger ERROR
      "Invalid download location. Please provide an existing directory." []
  else
    try_except
      (download_playlist unicode_isalnum cfg lib makedirs sched
         playlist_url download_location)
      [ ([KeyboardInterrupt],
         fun _ => logger INFO "Download interrupted by user." []);
        ([DownloadError],
         fun error =>
           logger ERROR "A download error occurred: %s"
             [ LStr (exn_str error) ]);
        ([ExtractorError],
         fun error =>
           logger ERROR "An extractor error occurred: %s"
             [ LStr (exn_str error) ]);
        ([YoutubeDLError],
         fun error =>
           logger ERROR "A YouTube-DL error occurred: %s"
             [ LStr (exn_str error) ]);
        ([OSError],
         fun error =>
           logger ERROR "An OS error occurred: %s"
             [ LStr (exn_str error) ]) ].

End Main.

End youtube_playlist_downloader.

(* ===================================================================== *)
(** * Single-Content Downloader ([download_youtube_content]) *)
(* ===================================================================== *)

(** [s.capitalize()] on ASCII text, which the two strings it is applied
    to are: the first letter in upper case, the others in lower case. *)
Definition ascii_upper (c : N) : N :=
  if (97 <=? c) && (c <=? 122) then c - 32 else c.

Definition ascii_lower (c : N) : N :=
  if (65 <=? c) && (c <=? 90) then c + 32 else c.

Definition capitalize (s : str) : str :=
  match s with
  | [] => []
  | c :: rest => ascii_upper c :: map ascii_lower rest
  end.

(** A value in the options of the video script: a plain value, or a list
    of callbacks. *)
Inductive opt_value : Type :=
| Plain (v : pyval)
| Callbacks (hooks : list (gmap str pyval -> M unit)).

(** The [ydl_opts] of [download_youtube_content], in source order. *)
Definition content_opts (output_location quality : str)
    : list (string * opt_value) :=
  [ ("format"%string,
      Plain (PyStr (if bool_decide (quality <> py "best")
                    then py "bestvideo[height<=" ++ quality
                           ++ py "]+bestaudio/best"
                    else py "best")));
    ("outtmpl"%string,
      Plain (PyStr (os_path_join output_location (py "%(title)s.%(ext)s"))));
    ("progress_hooks"%string, Callbacks [progress_hook]);
    ("quiet"%string, Plain (PyBool true));
    ("no_warnings"%string, Plain (PyBool true)) ].

(** The plain entries of the options, by which a library call is told
    from another. *)
Definition plain_entries (opts : list (string * opt_value)) : ydl_opts :=
  omap (fun entry =>
          match snd entry with
          | Plain v => Some (fst entry, v)
          | Callbacks _ => None
          end) opts.

(** The callbacks found under ["progress_hooks"]. *)
Fixpoint progress_hooks (opts : list (string * opt_value))
    : list (gmap str pyval -> M unit) :=
  match opts with
  | [] => []
  | (key, Callbacks hooks) :: rest =>
      if String.eqb key "progress_hooks" then hooks else progress_hooks rest
  | (_, Plain _) :: rest => progress_hooks rest
  end.

Section ContentDownloader.

Variable lib : YoutubeDL.

(** The status dictionaries the library hands to the progress hooks in
    the course of a [download] call.  Like the answer of the call they
    are outside the program, and may depend on how many library calls
    were made before (first argument). *)
Variable progress_reports :
  nat -> ydl_opts -> list str -> list (gmap str pyval).

(** The text logged for a list of entries; it depends on the order of the
    keys in the dictionaries of the list, which finite maps do not
    keep. *)
Variable repr_entries : list (option (gmap str str)) -> str.

(** [for hook in hooks: hook(status)] *)
Definition call_hooks (hooks : list (gmap str pyval -> M unit))
    (status : gmap str pyval) : M unit :=
  for_each hooks (fun hook => run hook status; ret (@None unit)) (ret tt).

(** [ydl.download(urls)] on a [YoutubeDL] object with progress hooks: the
    library calls the hooks with each status in turn, then answers.  A
    hook runs inside the call, so what it raises leaves the call. *)
Definition ydl_download_reporting (opts : list (string * opt_value))
    (urls : list str) : M unit :=
  fun w =>
    let n := length (events w) in
    (run for_each (progress_reports n (plain_entries opts) urls)
           (fun status =>
              run call_hooks (progress_hooks opts) status;
              ret (@None unit))
           (ret tt);
     fun w' => (download lib n (plain_entries opts) urls, w'))
      (record_event (EvDownload (plain_entries opts) urls) w).

(** The argument of [logger.info] for the value found under ["title"],
    which [%s] formats with [str]. *)
Definition shown (title : pyval) : log_arg :=
  match title with
  | PyStr s => LStr s
  | PyInt n => LInt n
  | PyBool b => LStr (if b then py "True" else py "False")
  | PyNone => LStr (py "None")
  | PyEntries l => LStr (repr_entries l)
  end.

Definition download_youtube_content
    (input_url output_location quality : str) : M unit :=
  if negb (validate_url input_url) then
    logger ERROR "Invalid YouTube URL provided: %s" [ LStr input_url ]
  else
    do video_info <- get_video_info lib input_url;
    match video_info with
    | Some info =>
        if info_truthy video_info then
          let is_playlist := bool_decide (is_Some (info !! py "entries")) in
          let content_type :=
            if is_playlist then py "playlist" else py "video" in
          do title <- subscript info "title";
          run logger INFO "Preparing to download %s: %s"
                [ LStr content_type; shown title ];
          let ydl_opts := content_opts output_location quality in
          try_except
            (run ydl_download_reporting ydl_opts [input_url];
             logger INFO "%s download complete!"
               [ LStr (capitalize content_type) ])
            [ ([DownloadError],
               fun e =>
                 logger ERROR "A download error occurred: %s"
                   [ LStr (exn_str e) ]);
              ([ExtractorError],
               fun e =>
                 logger ERROR "An extractor error occurred: %s"
                   [ LStr (exn_str e) ]);
              ([OSError],
               fun e =>
                 logger ERROR "An OS error occurred: %s"
                   [ LStr (exn_str e) ]) ]
        else ret tt
    | None => ret tt
    end.

End ContentDownloader.

(** [quality: str = "best"] *)
Definition default_quality : str := py "best".

(* ===================================================================== *)
(** * Entry point of the video script ([main]) *)
(* ===================================================================== *)

Module youtube_video_downloader.

Section Main.

Variable lib : YoutubeDL.
Variable progress_reports :
  nat -> ydl_opts -> list str -> list (gmap str pyval).
Variable repr_entries : list (option (gmap str str)) -> str.

(** The answer of the operating system to [os.path.isdir(path)]. *)
Variable isdir : str -> bool.

(** [main], given the answers of the terminal to its three [input]
    calls. *)
Definition main (typed_url typed_location typed_quality : result str)
    : M unit :=
  run print (py "YouTube Video/Playlist Downloader");
  run print (py "=================================");
  do user_video_url <-
    input "Enter the YouTube video or playlist URL: " typed_url;
  do user_storage_location <-
    input "Enter the storage location (absolute path): " typed_location;
  do user_quality <-
    input "Enter desired quality (e.g., 'best', '720', '480'): "
      typed_quality;
  if negb (isdir user_storage_location) then
    logger ERROR "Invalid storage location: %s"
      [ LStr user_storage_location ]
  else
    download_youtube_content lib progress_reports repr_entries
      user_video_url user_storage_location user_quality.

(** [sys.exit(0)] *)
Definition sys_exit_0 {A} : M A :=
  raise (mkExn (Subclass "SystemExit" BaseException) (py "0")).

(** The statements under [if __name__ == "__main__"]. *)
Definition script (typed_url typed_location typed_quality : result str)
    : M unit :=
  try_except (main typed_url typed_location typed_quality)
    [ ([KeyboardInterrupt],
       fun _ =>
         run print ([line_feed] ++ py "Download cancelled by user.");
         sys_exit_0) ].

End Main.

End youtube_video_downloader.

(** ** Vocabulary for the statements about the two entry points and
    [download_youtube_content] *)

(** No progress is reported. *)
Definition no_reports : nat -> ydl_opts -> list str -> list (gmap str pyval) :=
  fun _ _ _ => [].

(** For the runs in which no list of entries is logged, how one would be
    shown does not matter. *)
Definition repr_elided (l : list (option (gmap str str))) : str :=
  py "[...]".

(** The world once [main] of the playlist script has printed its banner
    and its two prompts. *)
Definition playlist_prompted (w : world) : world :=
  add_tty (py "Enter the download location: ") []
    (add_tty (py "Enter the URL of the YouTube playlist: ") []
       (add_tty (py "===========================") [line_feed]
          (add_tty (py "YouTube Playlist Downloader") [line_feed] w))).

(** The world once [main] of the video script has printed its banner and
    its three prompts. *)
Definition video_prompted (w : world) : world :=
  add_tty (py "Enter desired quality (e.g., 'best', '720', '480'): ") []
    (add_tty (py "Enter the storage location (absolute path): ") []
       (add_tty (py "Enter the YouTube video or playlist URL: ") []
          (add_tty (py "=================================") [line_feed]
             (add_tty (py "YouTube Video/Playlist Downloader") [line_feed]
                w)))).

(** A library whose playlist has an entry without identifier between two
    entries with one, and whose downloads succeed. *)
Definition library_with_unidentified_entry : YoutubeDL :=
  {| extract_info := fun _ _ _ =>
       Ret (Some {[ py "title" := PyStr (py "Test Playlist");
                    py "entries" :=
                      PyEntries [ Some video_abc123; Some video_without_id;
                                  Some video_xyz789 ] ]});
     download := fun _ _ _ => Ret tt |}.

(** Every path is an existing directory; none is. *)
Definition isdir_always : str -> bool := fun _ => true.
Definition isdir_never : str -> bool := fun _ => false.

(** ["playlist" if "entries" in info else "video"] *)
Definition content_kind (info : gmap str pyval) : str :=
  if bool_decide (is_Some (info !! py "entries"))
  then py "playlist" else py "video".

(** The exception of [info["title"]] on a dictionary without the key. *)
Definition missing_title : exn := mkExn KeyError (py "'title'").

(** The library calls [download_youtube_content] can make for a URL. *)
Definition content_fetch (input_url : str) : event :=
  EvExtractInfo video_info_opts input_url.

Definition content_download (input_url output_location quality : str)
    : event :=
  EvDownload (plain_entries (content_opts output_location quality))
    [input_url].

(** A library that knows one video, titled, and downloads it. *)
Definition video_library : YoutubeDL :=
  {| extract_info := fun _ _ _ =>
       Ret (Some {[ py "title" := PyStr (py "Test Video") ]});
     download := fun _ _ _ => Ret tt |}.

(** A library whose metadata has no title. *)
Definition untitled_library : YoutubeDL :=
  {| extract_info := fun _ _ _ =>
       Ret (Some {[ py "id" := PyStr (py "abc123") ]});
     download := fun _ _ _ => Ret tt |}.

(** A library that finds nothing. *)
Definition empty_library : YoutubeDL :=
  {| extract_info := fun _ _ _ => Ret None;
     download := fun _ _ _ => Ret tt |}.

(** A library that knows the video and whose disk is full. *)
Definition video_library_disk_full : YoutubeDL :=
  {| extract_info := extract_info video_library;
     download := fun _ _ _ =>
       Raise (mkExn OSError (py "[Errno 28] No space left on device")) |}.

(** The library reports the halfway point and the end of the download. *)
Definition two_reports : nat -> ydl_opts -> list str -> list (gmap str pyval) :=
  fun _ _ _ => [progress_downloading; progress_finished].

(** The exception of [sys.exit(0)]. *)
Definition system_exit_0 : exn :=
  mkExn (Subclass "SystemExit" BaseException) (py "0").

(** The user interrupts at a prompt. *)
Definition interrupt : exn := mkExn KeyboardInterrupt [].

(* ===================================================================== *)
(** * Properties of the retry loop *)
(* ===================================================================== *)

Lemma bind_ret_l {A B} (a : A) (k : A -> M B) w :
  bind (ret a) k w = k a w.
Proof. reflexivity. Qed.

Section RetryLoop.

Variable cfg : DownloadConfig.
Variable lib : YoutubeDL.
Variable video_info : gmap str str.
Variable output_path : str.

Local Abbreviation outcome :=
  (attempt_outcome cfg lib video_info output_path).
Local Abbreviation after :=
  (after_failed_attempts cfg lib video_info output_path).
Local Abbreviation body := (attempt_body cfg lib video_info output_path).
Local Abbreviation exhausted := (attempts_exhausted cfg video_info).

Lemma download_calls_length k :
  is_Some (video_info !! py "id") ->
  length (download_calls cfg video_info output_path k) = k.
Proof.
  intros [id Hid]. unfold download_calls. rewrite Hid.
  apply repeat_length.
Qed.

Lemma download_calls_S k id :
  video_info !! py "id" = Some id ->
  download_calls cfg video_info output_path (S k) =
  download_calls cfg video_info output_path k
    ++ [EvDownload (download_opts cfg output_path) [watch_url id]].
Proof.
  intros Hid. unfold download_calls. rewrite Hid.
  change (S k) with (1 + k)%nat. rewrite Nat.add_comm, repeat_app.
  reflexivity.
Qed.

Lemma after_failed_attempts_0 w : after w 0 = w.
Proof.
  destruct w as [l ev d t].
  unfold after_failed_attempts, after_attempts, download_calls.
  simpl. destruct (video_info !! py "id"); simpl; by rewrite !app_nil_r.
Qed.

(** What the [try] body does in the world reached after [j] failures. *)
Lemma attempt_try_outcome w j :
  (j = 0%nat \/ is_Some (video_info !! py "id")) ->
  attempt_try cfg lib video_info output_path (after w j) =
  match video_info !! py "id" with
  | None => (Raise (mkExn KeyError (py "'id'")), after w j)
  | Some id =>
      (match outcome w j with Ret _ => Ret (Some true) | Raise e => Raise e end,
       record_event
         (EvDownload (download_opts cfg output_path) [watch_url id])
         (after w j))
  end.
Proof.
  intros Hj. unfold attempt_try, subscript, attempt_outcome.
  destruct (video_info !! py "id") as [id|] eqn:Hid.
  - rewrite bind_ret_l. unfold bind, ydl_download. simpl.
    rewrite length_app, download_calls_length by (rewrite Hid; eauto).
    destruct (download lib _ _ _); reflexivity.
  - reflexivity.
Qed.

(** A failed attempt logs its warning and falls through. *)
Lemma attempt_body_fails w j :
  fails_with_download_error (outcome w j) ->
  body j (after w j) = (Ret None, after w (S j)).
Proof.
  intros (e & He & Hde).
  assert (Hid : is_Some (video_info !! py "id")).
  { unfold attempt_outcome in He.
    destruct (video_info !! py "id"); [eauto|].
    inversion He; subst. discriminate Hde. }
  unfold attempt_body, try_except.
  rewrite attempt_try_outcome by auto.
  destruct Hid as [id Hid]. rewrite Hid, He. simpl.
  unfold isinstance_any. simpl. rewrite Hde. simpl.
  unfold bind, logger, ret. cbn [fst snd]. f_equal.
  unfold after_failed_attempts, after_attempts, emit, record_event.
  cbn [logs events dirs tty]. f_equal.
  - rewrite seq_S, map_app, app_assoc. cbn [map Nat.add].
    unfold attempt_warning at 3. rewrite He. reflexivity.
  - rewrite (download_calls_S _ _ Hid), app_assoc. reflexivity.
Qed.

(** A completed download call returns success at once. *)
Lemma attempt_body_succeeds w j :
  outcome w j = Ret tt ->
  body j (after w j) =
  (Ret (Some true), after_attempts cfg lib video_info output_path w j (S j)).
Proof.
  intros Hok.
  assert (Hid : is_Some (video_info !! py "id")).
  { unfold attempt_outcome in Hok.
    destruct (video_info !! py "id"); [eauto|discriminate]. }
  unfold attempt_body, try_except.
  rewrite attempt_try_outcome by auto.
  destruct Hid as [id Hid]. rewrite Hid, Hok. f_equal.
  unfold after_failed_attempts, after_attempts, record_event.
  cbn [logs events dirs tty]. f_equal.
  by erewrite download_calls_S, app_assoc by eassumption.
Qed.

(** Any other exception leaves the loop and the function. *)
Lemma attempt_body_fatal w j e :
  (j = 0%nat \/ is_Some (video_info !! py "id")) ->
  outcome w j = Raise e ->
  isinstance e DownloadError = false ->
  body j (after w j) =
  (Raise e, after_attempts cfg lib video_info output_path w j (S j)).
Proof.
  intros Hj He Hde.
  unfold attempt_body, try_except.
  rewrite attempt_try_outcome by auto.
  unfold attempt_outcome in He.
  destruct (video_info !! py "id") as [id|] eqn:Hid.
  - unfold attempt_outcome. rewrite Hid, He.
    unfold find_handler, isinstance_any. simpl. rewrite Hde. simpl.
    f_equal. unfold after_failed_attempts, after_attempts, record_event.
    cbn [logs events dirs tty]. f_equal.
    by erewrite download_calls_S, app_assoc by eassumption.
  - inversion He; subst e. simpl. f_equal.
    unfold after_failed_attempts, after_attempts, download_calls.
    by rewrite Hid.
Qed.
(** Failed attempts are skipped one by one. *)
Lemma retry_loop_skips_failures w n : forall a m,
  (forall j, (a <= j < a + n)%nat -> fails_with_download_error (outcome w j)) ->
  for_each (seq a (n + m)) body exhausted (after w a) =
  for_each (seq (a + n) m) body exhausted (after w (a + n)).
Proof.
  induction n as [|n IH]; intros a m Hfail.
  - by rewrite Nat.add_0_r.
  - simpl. unfold bind at 1.
    rewrite attempt_body_fails by (apply Hfail; lia).
    rewrite IH by (intros j Hj; apply Hfail; lia).
    by replace (S a + n)%nat with (a + S n)%nat by lia.
Qed.

Lemma download_video_after_failures w k m :
  max_retries cfg = (k + m)%nat ->
  (forall j, (j < k)%nat -> fails_with_download_error (outcome w j)) ->
  download_video cfg lib video_info output_path w =
  for_each (seq k m) body exhausted (after w k).
Proof.
  intros Hmax Hfail. unfold download_video, range. rewrite Hmax.
  rewrite <- (after_failed_attempts_0 w) at 1.
  rewrite retry_loop_skips_failures by (intros j Hj; apply Hfail; lia).
  reflexivity.
Qed.

End RetryLoop.


(** C2. When the download call raises the download error on attempts
    [1 .. k-1] and completes on attempt [k], with [k] at most
    [max_retries], [download_video] returns [True] after exactly [k]
    download calls: the final world holds these [k] calls and the [k-1]
    warnings and nothing else (no further attempt, no look at the file). *)
Theorem download_video_success
    (cfg : DownloadConfig) (lib : YoutubeDL)
    (video_info : gmap str str) (output_path : str) (w : world) (k : nat) :
  (1 <= k <= max_retries cfg)%nat ->
  (forall j, (j < k - 1)%nat ->
     fails_with_download_error
       (attempt_outcome cfg lib video_info output_path w j)) ->
  attempt_outcome cfg lib video_info output_path w (k - 1) = Ret tt ->
  download_video cfg lib video_info output_path w =
    (Ret true, after_attempts cfg lib video_info output_path w (k - 1) k)
  /\ length (download_calls cfg video_info output_path k) = k.
Proof.
  intros Hk Hfail Hok. split.
  - rewrite (download_video_after_failures _ _ _ _ w (k - 1)
               (max_retries cfg - (k - 1))) by (auto with lia).
    destruct (max_retries cfg - (k - 1))%nat as [|m] eqn:Hm; [lia|].
    cbn [seq for_each]. unfold bind.
    rewrite (attempt_body_succeeds _ _ _ _ w (k - 1)) by done.
    by replace (S (k - 1)) with k by lia.
  - apply download_calls_length.
    unfold attempt_outcome in Hok.
    destruct (video_info !! py "id"); [eauto|discriminate].
Qed.

(** C10. For a [video_info] without the ["id"] key (and at least one
    attempt configured), [download_video] raises the missing-key error of
    the URL construction on the first attempt: it is not the download
    error, so it is neither retried nor turned into [False], and the world
    is left as it was (no download call, no log record). *)
Theorem download_video_missing_id
    (cfg : DownloadConfig) (lib : YoutubeDL)
    (video_info : gmap str str) (output_path : str) (w : world) :
  video_info !! py "id" = None ->
  (0 < max_retries cfg)%nat ->
  download_video cfg lib video_info output_path w =
    (Raise (mkExn KeyError (py "'id'")), w)
  /\ isinstance (mkExn KeyError (py "'id'")) DownloadError = false.
Proof.
  intros Hid Hmax. split; [|reflexivity].
  unfold download_video, range.
  destruct (max_retries cfg) as [|n]; [lia|].
  cbn [seq for_each]. unfold bind, attempt_body, try_except, attempt_try.
  unfold subscript. rewrite Hid. reflexivity.
Qed.

Lemma download_video_success_witness :
  download_video config third_time_lucky video_abc123 (py "/tmp") empty_world =
    (Ret true,
     after_attempts config third_time_lucky video_abc123 (py "/tmp")
       empty_world 2 3)
  /\ length (download_calls config video_abc123 (py "/tmp") 3) = 3%nat.
Proof.
  apply (download_video_success config third_time_lucky video_abc123
           (py "/tmp") empty_world 3).
  - simpl. lia.
  - intros j Hj. assert (j = 0 \/ j = 1)%nat as [-> | ->] by lia;
      eexists; split; vm_compute; reflexivity.
  - vm_compute. reflexivity.
Defined.

Lemma download_video_missing_id_witness :
  download_video config failing_library video_without_id (py "/tmp")
    empty_world = (Raise (mkExn KeyError (py "'id'")), empty_world)
  /\ isinstance (mkExn KeyError (py "'id'")) DownloadError = false.
Proof.
  apply (download_video_missing_id config failing_library video_without_id
           (py "/tmp") empty_world).
  - vm_compute. reflexivity.
  - simpl. lia.
Defined.

(** The runs of the two unit tests of [download_video]. *)
Example test_download_video_failure :
  fst (download_video config failing_library video_abc123 (py "/tmp")
         empty_world) = Ret false.
Proof. vm_compute. reflexivity. Qed.

Example test_download_video_third_attempt :
  let '(r, w) := download_video config third_time_lucky video_abc123
                   (py "/tmp") empty_world in
  r = Ret true /\ length (events w) = 3%nat /\ length (logs w) = 2%nat.
Proof. vm_compute. auto. Qed.

(* ===================================================================== *)
(** * Properties of the Metadata Fetchers *)
(* ===================================================================== *)







(** The two failure tests of the fetchers. *)
Example test_get_playlist_info_failure :
  fst (get_playlist_info failing_library playlist_url_abc123 empty_world)
  = Ret None.
Proof. reflexivity. Qed.

Example test_get_video_info_failure :
  fst (get_video_info
         {| extract_info := fun _ _ _ =>
              Raise (mkExn DownloadError (py "Test error"));
            download := fun _ _ _ => Ret tt |}
         video_url_example empty_world)
  = Ret None.
Proof. reflexivity. Qed.

(* ===================================================================== *)
(** * Properties of the Filename Sanitizer *)
(* ===================================================================== *)

Section SanitizerProperties.

Variable unicode_isalnum : N -> bool.

Local Abbreviation sanitize := (create_safe_filename unicode_isalnum).
Local Abbreviation keep := (allowed_char unicode_isalnum).
Local Abbreviation image := (safe_char unicode_isalnum).

(** The pieces joined by the source are single characters. *)
Lemma safe_piece_char c : safe_piece unicode_isalnum c = [image c].
Proof. unfold safe_piece, safe_char. by destruct (_ || _). Qed.

Lemma create_safe_filename_map filename :
  sanitize filename = map image filename.
Proof.
  unfold create_safe_filename, join_empty.
  induction filename as [|c rest IH]; [reflexivity|].
  cbn [map concat]. by rewrite IH, safe_piece_char.
Qed.

Lemma underscore_allowed : keep (chr "_") = true.
Proof. unfold allowed_char. apply orb_true_r. Qed.

Lemma safe_char_allowed c : keep (image c) = true.
Proof.
  unfold safe_char. fold (keep c).
  destruct (keep c) eqn:Hc; [exact Hc | apply underscore_allowed].
Qed.

Lemma safe_char_fixes_allowed c : keep c = true -> image c = c.
Proof. unfold safe_char, allowed_char. by intros ->. Qed.

End SanitizerProperties.

(** C7. [create_safe_filename] returns a string of the same length whose
    character at each position is the input character when that is
    alphanumeric, a space, a hyphen or an underscore, and an underscore
    otherwise; so the output has only characters of these four kinds. *)
Theorem create_safe_filename_spec
    (unicode_isalnum : N -> bool) (filename : str) :
  length (create_safe_filename unicode_isalnum filename) = length filename
  /\ (forall i c,
        filename !! i = Some c ->
        create_safe_filename unicode_isalnum filename !! i =
          Some (if isalnum unicode_isalnum c
                   || bool_decide (c ∈ [chr " "; chr "-"; chr "_"])
                then c else chr "_"))
  /\ Forall (fun c => allowed_char unicode_isalnum c = true)
       (create_safe_filename unicode_isalnum filename).
Proof.
  rewrite create_safe_filename_map. repeat split.
  - apply length_map.
  - intros i c Hc. rewrite list_lookup_fmap, Hc. reflexivity.
  - apply Forall_forall. intros c Hc. apply list_elem_of_fmap in Hc.
    destruct Hc as (c0 & -> & _). apply safe_char_allowed.
Qed.

(** C9. [create_safe_filename] is idempotent. *)
Theorem create_safe_filename_idempotent
    (unicode_isalnum : N -> bool) (filename : str) :
  create_safe_filename unicode_isalnum
    (create_safe_filename unicode_isalnum filename)
  = create_safe_filename unicode_isalnum filename.
Proof.
  rewrite !create_safe_filename_map, map_map.
  apply map_ext. intros c.
  apply safe_char_fixes_allowed, safe_char_allowed.
Qed.

(** The assertions of [test_create_safe_filename]; they involve ASCII
    only, so the table for the other code points plays no part. *)
Example test_create_safe_filename (unicode_isalnum : N -> bool) :
  create_safe_filename unicode_isalnum (py "Test Playlist") = py "Test Playlist"
  /\ create_safe_filename unicode_isalnum (py "Test/Playlist") = py "Test_Playlist"
  /\ create_safe_filename unicode_isalnum (py "Test:Playlist") = py "Test_Playlist".
Proof. repeat split. Qed.

(* ===================================================================== *)
(** * Properties of the URL Validator *)
(* ===================================================================== *)

(** ** The matcher decides the language of a pattern *)

Lemma nullable_lang r : nullable r = true <-> lang r [].
Proof.
  induction r as [| |c| |a IHa b IHb|a IHa b IHb|a IHa|a IHa|a IHa]; simpl.
  - split; [discriminate|tauto].
  - tauto.
  - split; discriminate.
  - split; [discriminate|]. by intros (c & ? & _).
  - rewrite andb_true_iff, IHa, IHb. split.
    + intros [Ha Hb]. by exists [], [].
    + intros (p & q & Hpq & Ha & Hb). symmetry in Hpq.
      apply app_eq_nil in Hpq as [-> ->]. tauto.
  - rewrite orb_true_iff, IHa, IHb. tauto.
  - tauto.
  - split; [|done]. intros _. by exists [].
  - rewrite IHa. split.
    + intros Ha. by exists [], [].
    + intros (p & ps & Hp & Ha & _). symmetry in Hp.
      apply app_eq_nil in Hp as [-> _]. exact Ha.
Qed.

(** A non-empty word made of pieces starts with a non-empty piece. *)
Lemma pieces_cons (P : str -> Prop) c s ps :
  c :: s = concat ps -> Forall P ps ->
  exists p ps', s = p ++ concat ps' /\ P (c :: p) /\ Forall P ps'.
Proof.
  induction ps as [|p0 ps IH]; intros Heq Hall; [discriminate|].
  apply Forall_cons in Hall as [Hp0 Hall]. simpl in Heq.
  destruct p0 as [|c0 p0].
  - by apply IH.
  - injection Heq as -> ->. by exists p0, ps.
Qed.

Lemma der_lang c r : forall s, lang (der c r) s <-> lang r (c :: s).
Proof.
  induction r as [| |d| |a IHa b IHb|a IHa b IHb|a IHa|a IHa|a IHa];
    intros s; simpl.
  - tauto.
  - split; [tauto|discriminate].
  - case_bool_decide as Hcd; simpl.
    + subst d. split; [by intros ->|congruence].
    + split; [tauto|]. intros Heq. congruence.
  - case_bool_decide as Hc; simpl.
    + split; [tauto|]. intros (c' & Heq & Hne). congruence.
    + split.
      * intros ->. by exists c.
      * intros (c' & Heq & _). congruence.
  - assert (Hseq : (exists p q, s = p ++ q /\ lang (der c a) p /\ lang b q)
                   <-> exists p q, c :: s = (c :: p) ++ q
                                   /\ lang a (c :: p) /\ lang b q).
    { split; intros (p & q & Hs & Ha & Hb); exists p, q.
      - subst s. by rewrite <- IHa.
      - simpl in Hs. injection Hs as ->. by rewrite IHa. }
    destruct (nullable a) eqn:Hnull; simpl; rewrite Hseq.
    + split.
      * intros [(p & q & Hs & Ha & Hb) | Hb]; [by exists (c :: p), q|].
        exists [], (c :: s). rewrite <- IHb, <- nullable_lang. auto.
      * intros (p & q & Hs & Ha & Hb). destruct p as [|c' p].
        -- simpl in Hs. subst q. right. by apply IHb.
        -- injection Hs as <- ->. left. by exists p, q.
    + split.
      * intros (p & q & Hs & Ha & Hb). by exists (c :: p), q.
      * intros (p & q & Hs & Ha & Hb). destruct p as [|c' p].
        -- apply nullable_lang in Ha. congruence.
        -- injection Hs as <- ->. by exists p, q.
  - by rewrite IHa, IHb.
  - rewrite IHa. split; [tauto|]. intros [?|?]; [discriminate|done].
  - split.
    + intros (p & q & -> & Ha & ps & -> & Hps).
      exists ((c :: p) :: ps). split; [done|].
      apply Forall_cons. by rewrite <- IHa.
    + intros (ps & Heq & Hps).
      destruct (pieces_cons _ _ _ _ Heq Hps) as (p & ps' & -> & Hp & Hps').
      exists p, (concat ps'). rewrite IHa. eauto.
  - split.
    + intros (p & q & -> & Ha & ps & -> & Hps).
      exists (c :: p), ps. by rewrite <- IHa.
    + intros (p & ps & Heq & Ha & Hps). destruct p as [|c' p].
      * destruct (pieces_cons _ _ _ _ Heq Hps) as (p & ps' & -> & Hp & Hps').
        exists p, (concat ps'). rewrite IHa. eauto.
      * injection Heq as <- ->. exists p, (concat ps). rewrite IHa. eauto.
Qed.

(** [re_match] holds exactly when a prefix of the string is in the
    language of the pattern. *)
Lemma re_match_lang s : forall r,
  re_match r s = true <-> exists p q, s = p ++ q /\ lang r p.
Proof.
  induction s as [|c s IH]; intros r; simpl; rewrite orb_true_iff.
  - rewrite nullable_lang. split.
    + intros [H|H]; [by exists [], []|discriminate].
    + intros (p & q & Hpq & Hp). left. symmetry in Hpq.
      by apply app_eq_nil in Hpq as [-> _].
  - rewrite nullable_lang, IH. split.
    + intros [H | (p & q & -> & Hp)]; [by exists [], (c :: s)|].
      exists (c :: p), q. by rewrite <- der_lang.
    + intros (p & q & Hpq & Hp). destruct p as [|c' p]; [by left|].
      injection Hpq as <- ->. right. exists p, q. by rewrite der_lang.
Qed.

Lemma lang_lit_chars cs : forall s, lang (lit_chars cs) s <-> s = cs.
Proof.
  induction cs as [|c cs IH]; intros s; [done|].
  destruct cs as [|c' cs]; [done|].
  change (lit_chars (c :: c' :: cs)) with (Seq (Chr c) (lit_chars (c' :: cs))).
  simpl lang. split.
  - intros (p & q & -> & -> & Hq). apply IH in Hq. by subst q.
  - intros ->. exists [c], (c' :: cs). by rewrite IH.
Qed.

(** ** The language of the pattern of [validate_url] *)

Lemma lang_lit l x : lang (lit l) x <-> x = py l.
Proof. apply lang_lit_chars. Qed.

Lemma lang_scheme x :
  lang (Opt (Seq (lit "http") (Seq (Opt (Chr (chr "s"))) (lit "://")))) x
  <-> x ∈ scheme_prefixes.
Proof.
  unfold scheme_prefixes. cbn [lang]. rewrite !elem_of_cons, elem_of_nil.
  split.
  - intros [-> | (p & q & -> & Hp & p' & q' & -> & Hs & Hq)]; [by left|].
    apply lang_lit in Hp, Hq. subst p q'.
    destruct Hs as [-> | ->]; auto.
  - intros [-> | [-> | [-> | []]]]; [by left| |]; right.
    + exists (py "http"), (py "://"). split; [done|].
      split; [by apply lang_lit|].
      exists [], (py "://"). split; [done|].
      split; [by left | by apply lang_lit].
    + exists (py "http"), (py "s://"). split; [done|].
      split; [by apply lang_lit|].
      exists [chr "s"], (py "://"). split; [done|].
      split; [by right | by apply lang_lit].
Qed.

Lemma lang_www x : lang (Opt (lit "www.")) x <-> x ∈ www_prefixes.
Proof.
  unfold www_prefixes. cbn [lang].
  rewrite lang_lit, !elem_of_cons, elem_of_nil. tauto.
Qed.

Lemma lang_host x :
  lang (Alt (lit "youtube.com") (lit "youtu.be")) x <-> x ∈ host_tokens.
Proof.
  unfold host_tokens. cbn [lang].
  rewrite !lang_lit, !elem_of_cons, elem_of_nil. tauto.
Qed.

Lemma lang_dots ps :
  Forall (lang Dot) ps -> Forall (fun c => c <> line_feed) (concat ps).
Proof.
  induction 1 as [|p ps (c & -> & Hc) _ IH]; [constructor|].
  simpl. by constructor.
Qed.

Lemma lang_path x :
  lang (Plus Dot) x
  <-> exists c cs, x = c :: cs /\ c <> line_feed
                   /\ Forall (fun c => c <> line_feed) cs.
Proof.
  cbn [lang]. split.
  - intros (p & ps & -> & (c & -> & Hc) & Hps).
    exists c, (concat ps). auto using lang_dots.
  - intros (c & cs & -> & Hc & Hcs).
    exists [c], (map (fun c => [c]) cs). repeat split.
    + simpl. f_equal. induction cs as [|c' cs IH]; [done|].
      simpl. f_equal. apply IH. by apply Forall_cons in Hcs as [_ ?].
    + by exists c.
    + induction Hcs as [|c' cs Hc' _ IH]; constructor; [by exists c'|done].
Qed.

Lemma youtube_regex_lang p :
  lang youtube_regex p
  <-> exists scheme www host c cs,
        scheme ∈ scheme_prefixes /\ www ∈ www_prefixes /\ host ∈ host_tokens
        /\ c <> line_feed /\ Forall (fun c => c <> line_feed) cs
        /\ p = scheme ++ www ++ host ++ py "/" ++ c :: cs.
Proof.
  unfold youtube_regex. split.
  - intros (scheme & p1 & -> & Hscheme & www & p2 & -> & Hwww
            & host & p3 & -> & Hhost & slash & path & -> & -> & Hpath).
    apply lang_scheme in Hscheme. apply lang_www in Hwww.
    apply lang_host in Hhost.
    apply lang_path in Hpath as (c & cs & -> & Hc & Hcs).
    by exists scheme, www, host, c, cs.
  - intros (scheme & www & host & c & cs
            & Hscheme & Hwww & Hhost & Hc & Hcs & ->).
    exists scheme, (www ++ host ++ py "/" ++ c :: cs).
    split; [done|]. split; [by apply lang_scheme|].
    exists www, (host ++ py "/" ++ c :: cs).
    split; [done|]. split; [by apply lang_www|].
    exists host, (py "/" ++ c :: cs).
    split; [done|]. split; [by apply lang_host|].
    exists (py "/"), (c :: cs).
    split; [done|]. split; [done|].
    apply lang_path. by exists c, cs.
Qed.

(** What [validate_url] accepts. *)
Lemma validate_url_accepts s :
  validate_url s = true <-> has_path_on_first_line s.
Proof.
  unfold validate_url, has_path_on_first_line, url_shape.
  rewrite re_match_lang. split.
  - intros (p & q & -> & Hp).
    apply youtube_regex_lang in Hp
      as (scheme & www & host & c & cs & Hs & Hw & Hh & Hc & _ & ->).
    exists c, (cs ++ q). split; [done|].
    exists scheme, www, host. repeat split; try done.
    by rewrite <- !app_assoc.
  - intros (c & rest & Hc & scheme & www & host & Hs & Hw & Hh & ->).
    exists (scheme ++ www ++ host ++ py "/" ++ [c]), rest. split.
    + by rewrite <- !app_assoc.
    + apply youtube_regex_lang. by exists scheme, www, host, c, [].
Qed.

Lemma path_on_first_line_nonempty s :
  has_path_on_first_line s -> has_nonempty_path s.
Proof.
  intros (c & rest & _ & scheme & www & host & Hs & Hw & Hh & ->).
  exists (c :: rest). split; [done|].
  exists scheme, www, host. repeat split; try done.
  by rewrite app_nil_r.
Qed.

(** C6, refuted as stated: a string with scheme, [www.], host, slash and
    a non-empty path is rejected when the path starts with a line feed,
    which [.] does not match. *)
Lemma validate_url_rejects_path_after_line_feed :
  has_nonempty_path (py "https://www.youtube.com/" ++ [line_feed] ++ py "watch?v=ID")
  /\ validate_url (py "https://www.youtube.com/" ++ [line_feed] ++ py "watch?v=ID")
     = false.
Proof.
  split; [|vm_compute; reflexivity].
  exists ([line_feed] ++ py "watch?v=ID"). split; [done|].
  exists (py "https://"), (py "www."), (py "youtube.com").
  unfold scheme_prefixes, www_prefixes, host_tokens.
  rewrite !elem_of_cons. repeat split; auto.
Qed.

(** C6, amended. [validate_url] returns true exactly when the string
    begins with an optional [http://] or [https://], an optional [www.],
    one of the host tokens [youtube.com] and [youtu.be], a slash and at
    least one character that is not a line feed; so it returns false for
    every string without a host token or without a non-empty path (a bare
    scheme and host among them), and true for the three example URLs. *)
Theorem validate_url_spec (s : str) :
  (validate_url s = true <-> has_path_on_first_line s)
  /\ (~ has_nonempty_path s -> validate_url s = false)
  /\ validate_url (py "https://www.youtube.com/watch?v=ID") = true
  /\ validate_url (py "https://youtu.be/ID") = true
  /\ validate_url (py "http://www.youtube.com/playlist?list=ID") = true
  /\ validate_url (py "https://www.youtube.com") = false
  /\ validate_url (py "https://www.youtube.com/") = false.
Proof.
  split; [apply validate_url_accepts|].
  split; [|repeat split; vm_compute; reflexivity].
  intros Hno. destruct (validate_url s) eqn:Hv; [|reflexivity].
  destruct Hno. by apply path_on_first_line_nonempty, validate_url_accepts.
Qed.

(** The assertions of [test_validate_url]. *)
Example test_validate_url :
  validate_url (py "https://www.youtube.com/watch?v=dQw4w9WgXcQ") = true
  /\ validate_url (py "https://youtu.be/dQw4w9WgXcQ") = true
  /\ validate_url
       (py "http://www.youtube.com/playlist?list=PLSbpzW6bgYdHZq8Pp5uohJM9LZA2oIRwh")
     = true
  /\ validate_url (py "https://www.google.com") = false
  /\ validate_url (py "not a url") = false
  /\ validate_url (py "https://www.youtube.com") = false.
Proof. repeat split; vm_compute; reflexivity. Qed.

(* ===================================================================== *)
(** * Properties of the Collection-level Download Flow *)
(* ===================================================================== *)

(** [get_playlist_info] makes one [extract_info] call, creates no
    directory and writes nothing to the terminal. *)
Lemma get_playlist_info_world (lib : YoutubeDL) (url : str) (w w1 : world)
    (r : result (option (gmap str pyval))) :
  get_playlist_info lib url w = (r, w1) ->
  events w1 = events w ++ [EvExtractInfo playlist_info_opts url]
  /\ dirs w1 = dirs w /\ tty w1 = tty w.
Proof.
  unfold get_playlist_info, try_except, ydl_extract_info.
  destruct (extract_info lib _ _ _) as [info|e].
  - intros [= <- <-]. auto.
  - unfold find_handler, isinstance_any. cbn [existsb].
    rewrite !orb_false_r.
    destruct (isinstance e ExtractorError);
      [|destruct (isinstance e YoutubeDLError)];
      intros [= <- <-]; auto.
Qed.

(** C5. When the metadata fetch returns nothing or a dictionary without an
    ["entries"] key, [download_playlist] logs an error and returns: it
    creates no directory and makes no download call, the only library
    call being the metadata fetch itself. *)
Theorem download_playlist_aborts
    (unicode_isalnum : N -> bool) (cfg : DownloadConfig) (lib : YoutubeDL)
    (makedirs : str -> result unit) (sched : nat -> nat)
    (playlist_url storage_location : str) (w w1 : world)
    (info : option (gmap str pyval)) :
  get_playlist_info lib playlist_url w = (Ret info, w1) ->
  absent_or_without_entries info ->
  download_playlist unicode_isalnum cfg lib makedirs sched
    playlist_url storage_location w
  = (Ret tt, emit (abort_record info) w1)
  /\ dirs (emit (abort_record info) w1) = dirs w
  /\ events (emit (abort_record info) w1)
     = events w ++ [EvExtractInfo playlist_info_opts playlist_url].
Proof.
  intros Hfetch Habsent.
  destruct (get_playlist_info_world _ _ _ _ _ Hfetch) as (Hev & Hdirs & _).
  split; [|by split].
  unfold download_playlist, bind. rewrite Hfetch.
  unfold abort_record. destruct info as [d|]; [|reflexivity].
  simpl in Habsent. destruct (info_truthy (Some d)); [|reflexivity].
  by rewrite Habsent.
Qed.

Lemma download_playlist_aborts_witness :
  let info := Some {[ py "title" := PyStr (py "Test Playlist") ]} in
  let w1 := record_event
              (EvExtractInfo playlist_info_opts playlist_url_abc123)
              empty_world in
  download_playlist (fun _ => false) config library_without_entries
    makedirs_ok first_thread playlist_url_abc123 (py "/downloads") empty_world
  = (Ret tt, emit (abort_record info) w1)
  /\ dirs (emit (abort_record info) w1) = dirs empty_world
  /\ events (emit (abort_record info) w1)
     = events empty_world
       ++ [EvExtractInfo playlist_info_opts playlist_url_abc123].
Proof.
  apply (download_playlist_aborts (fun _ => false) config
           library_without_entries makedirs_ok first_thread
           playlist_url_abc123 (py "/downloads") empty_world).
  - reflexivity.
  - vm_compute. reflexivity.
Defined.

(** The flow on a playlist without entries, run. *)
Example download_playlist_without_entries :
  let '(r, w) :=
    download_playlist (fun _ => false) config library_without_entries
      makedirs_ok first_thread playlist_url_abc123 (py "/downloads")
      empty_world in
  r = Ret tt
  /\ logs w = [mkLog ERROR "No videos found in the playlist." []]
  /\ dirs w = ∅
  /\ events w = [EvExtractInfo playlist_info_opts playlist_url_abc123].
Proof. vm_compute. auto. Qed.

(* ===================================================================== *)
(** * Properties of the Batch Orchestrator *)
(* ===================================================================== *)

Section Executor.

Variable cfg : DownloadConfig.
Variable lib : YoutubeDL.
Hypothesis has_workers : max_workers cfg <> 0%nat.

Local Abbreviation weight :=
  (fun a : active => S (length (active_attempts a))).

(** [dispatch] moves the first queued calls to free threads. *)
Lemma dispatch_take free : forall p,
  dispatch cfg free p =
  let k := min free (length (queue p)) in
  mkPool (drop k (queue p))
    (workers p ++ map (begin_call cfg) (take k (queue p)))
    (started p ++ take k (queue p))
    (finished p) (pool_world p).
Proof.
  induction free as [|free IH]; intros [q ws st fin w]; simpl.
  - by rewrite drop_0, !app_nil_r.
  - destruct q as [|[i t] q]; simpl.
    + by rewrite !app_nil_r.
    + rewrite IH. simpl. by rewrite <- !app_assoc.
Qed.

Lemma steps_left_dispatch free p :
  steps_left cfg (dispatch cfg free p) = steps_left cfg p.
Proof.
  rewrite dispatch_take. unfold steps_left. simpl.
  set (k := min free (length (queue p))).
  rewrite sum_list_with_app, length_drop.
  assert (Hk : (k <= length (queue p))%nat) by lia.
  assert (Hsum : sum_list_with weight
                   (map (begin_call cfg) (take k (queue p)))
                 = (k * S (max_retries cfg))%nat).
  { rewrite <- (length_take_le (queue p) k) at 2 by lia.
    induction (take k (queue p)) as [|it l IHl]; [done|].
    simpl. unfold range. rewrite length_seq, IHl. lia. }
  rewrite Hsum. nia.
Qed.

(** Handing queued calls to the free threads restores the invariant. *)
Lemma dispatch_free_inv futures p :
  started p ++ queue p = numbered futures ->
  map active_future (workers p) ++ map fst (finished p)
    ≡ₚ map fst (started p) ->
  Forall (fun a => (active_future a, active_task a) ∈ numbered futures)
    (workers p) ->
  (length (workers p) <= max_workers cfg)%nat ->
  pool_inv cfg futures (dispatch_free cfg p).
Proof.
  intros Horder Honce Hcalls Hbound.
  unfold dispatch_free. rewrite dispatch_take.
  set (k := min (max_workers cfg - length (workers p)) (length (queue p))).
  split; simpl.
  - by rewrite <- app_assoc, take_drop.
  - rewrite !map_app, map_map. simpl.
    rewrite <- Honce.
    change (map (fun x => fst x) (take k (queue p)))
      with (map fst (take k (queue p))).
    rewrite <- !app_assoc.
    apply Permutation_app_head, Permutation_app_comm.
  - apply Forall_app. split; [done|].
    apply Forall_forall. intros a Ha.
    apply list_elem_of_fmap in Ha as ([i t] & -> & Hit). simpl.
    rewrite <- Horder. apply elem_of_app. right.
    apply elem_of_take in Hit as (j & Hj & _).
    by eapply list_elem_of_lookup_2.
  - intros Hnil. apply app_eq_nil in Hnil as [Hws Htake].
    apply (f_equal length) in Htake.
    rewrite length_map, length_take in Htake. subst k.
    rewrite Hws in Htake. simpl in Htake.
    assert (Hq : length (queue p) = 0%nat) by lia.
    destruct (queue p); [|discriminate]. by rewrite drop_nil.
  - rewrite length_app, length_map, length_take. lia.
Qed.

(** ** One step of one call *)

(** What one iteration of the retry loop can do. *)
Lemma attempt_body_cases video_info output_path attempt w :
  match video_info !! py "id" with
  | None =>
      attempt_body cfg lib video_info output_path attempt w
      = (Raise (mkExn KeyError (py "'id'")), w)
  | Some id =>
      let call := EvDownload (download_opts cfg output_path)
                    [watch_url id] in
      match download lib (length (events w))
              (download_opts cfg output_path) [watch_url id] with
      | Ret _ =>
          attempt_body cfg lib video_info output_path attempt w
          = (Ret (Some true), record_event call w)
      | Raise e =>
          if isinstance e DownloadError
          then attempt_body cfg lib video_info output_path attempt w
               = (Ret None,
                  emit (mkLog WARNING "Attempt %d failed for %s: %s"
                          [ LInt (Z.of_nat attempt + 1);
                            LStr (title_of video_info);
                            LStr (exn_str e) ])
                    (record_event call w))
          else attempt_body cfg lib video_info output_path attempt w
               = (Raise e, record_event call w)
      end
  end.
Proof.
  unfold attempt_body, try_except, attempt_try, subscript.
  destruct (video_info !! py "id") as [id|]; [|reflexivity].
  rewrite bind_ret_l. unfold bind, ydl_download. simpl.
  destruct (download lib _ _ _) as [[]|e]; [reflexivity|].
  unfold isinstance_any. simpl. rewrite orb_false_r.
  destruct (isinstance e DownloadError); reflexivity.
Qed.

Lemma extends_by_refl futures w : extends_by cfg futures w w.
Proof. exists [], []. by rewrite !app_nil_r. Qed.

Lemma extends_by_trans futures w1 w2 w3 :
  extends_by cfg futures w1 w2 -> extends_by cfg futures w2 w3 ->
  extends_by cfg futures w1 w3.
Proof.
  intros (r1 & c1 & Hl1 & He1 & Hr1 & Hc1 & Hd1 & Ht1)
         (r2 & c2 & Hl2 & He2 & Hr2 & Hc2 & Hd2 & Ht2).
  exists (r1 ++ r2), (c1 ++ c2).
  rewrite Hl2, Hl1, He2, He1, Hd2, Hd1, Ht2, Ht1, !app_assoc.
  repeat split; by apply Forall_app.
Qed.

(** A step of a call adds only records and library calls of that call,
    and it goes on to a next step only from within the loop. *)
Lemma task_step_effect futures a w r w' :
  active_task a ∈ futures ->
  task_step cfg lib a w = (r, w') ->
  extends_by cfg futures w w'
  /\ (r = Ret None -> active_attempts a <> []).
Proof.
  intros Hin. unfold task_step.
  destruct (active_attempts a) as [|attempt rest].
  - unfold attempts_exhausted, bind, logger, ret. intros [= <- <-].
    split; [|discriminate].
    exists [exhaustion_record cfg (task_video (active_task a))], [].
    rewrite app_nil_r. repeat split; [|constructor].
    repeat constructor. exists (active_task a). split; [done|by left].
  - intros Hbody. split; [|done].
    pose proof (attempt_body_cases (task_video (active_task a))
                  (task_path (active_task a)) attempt w) as Hcases.
    destruct (task_video (active_task a) !! py "id") as [id|] eqn:Hid.
    + assert (Hcall : Forall (fun ev => exists t, t ∈ futures
                                 /\ called_for cfg t ev)
                [EvDownload (download_opts cfg (task_path (active_task a)))
                   [watch_url id]]).
      { repeat constructor. exists (active_task a). split; [done|].
        by exists id. }
      cbv zeta in Hcases.
      destruct (download lib _ _ _) as [[]|e].
      * rewrite Hcases in Hbody. injection Hbody as <- <-.
        eexists [], _. rewrite app_nil_r. repeat split; [constructor|done].
      * destruct (isinstance e DownloadError);
          rewrite Hcases in Hbody; injection Hbody as <- <-.
        -- eexists _, _. repeat split; [|exact Hcall].
           repeat constructor. exists (active_task a). split; [done|].
           right. by eexists _, _.
        -- eexists [], _. rewrite app_nil_r.
           repeat split; [constructor|done].
    + rewrite Hcases in Hbody. injection Hbody as <- <-.
      apply extends_by_refl.
Qed.

(** ** One step of the executor *)

Lemma weight_delete (ws : list active) i a :
  ws !! i = Some a ->
  sum_list_with weight ws
  = (weight a + sum_list_with weight (delete i ws))%nat.
Proof. intros Hi. by rewrite (delete_Permutation ws i a Hi) at 1. Qed.

Lemma numbered_elem futures i t :
  (i, t) ∈ numbered futures -> t ∈ futures.
Proof.
  intros Hin. apply list_elem_of_lookup in Hin as (j & Hj).
  unfold numbered in Hj. rewrite list_lookup_imap in Hj.
  destruct (futures !! j) as [t'|] eqn:Ht; [|discriminate].
  injection Hj as <- <-. by eapply list_elem_of_lookup_2.
Qed.

(** Completing a future keeps the invariant and uses up steps. *)
Lemma complete_inv futures p i a (r : result bool) w' :
  pool_inv cfg futures p ->
  workers p !! i = Some a ->
  let p' := dispatch_free cfg
              (mkPool (queue p) (delete i (workers p)) (started p)
                 (finished p ++ [(active_future a, r)]) w') in
  pool_inv cfg futures p'
  /\ (steps_left cfg p' < steps_left cfg p)%nat
  /\ pool_world p' = w'.
Proof.
  intros [Horder Honce Hcalls Hbusy Hbound] Hi p'. subst p'.
  split; [|split].
  - apply dispatch_free_inv; simpl; try done.
    + etransitivity; [|exact Honce].
      pose proof (Permutation_map active_future
                    (delete_Permutation _ _ _ Hi)) as Hperm.
      simpl in Hperm. rewrite Hperm, map_app. simpl.
      rewrite app_assoc. symmetry. apply Permutation_cons_append.
    + by apply Forall_delete.
    + rewrite length_delete by eauto. lia.
  - unfold dispatch_free. rewrite steps_left_dispatch.
    unfold steps_left. simpl. rewrite (weight_delete _ _ _ Hi). lia.
  - unfold dispatch_free. by rewrite dispatch_take.
Qed.

Lemma worker_step_inv futures p i a :
  pool_inv cfg futures p ->
  workers p !! i = Some a ->
  pool_inv cfg futures (worker_step cfg lib i p)
  /\ (steps_left cfg (worker_step cfg lib i p) < steps_left cfg p)%nat
  /\ extends_by cfg futures (pool_world p)
       (pool_world (worker_step cfg lib i p)).
Proof.
  intros Hinv Hi. unfold worker_step. rewrite Hi.
  assert (Hin : active_task a ∈ futures).
  { eapply numbered_elem, (Forall_lookup_1 _ _ _ _ (inv_calls _ _ _ Hinv) Hi). }
  destruct (task_step cfg lib a (pool_world p)) as [r w'] eqn:Hstep.
  destruct (task_step_effect futures a _ _ _ Hin Hstep) as [Hext Hloop].
  destruct r as [[b|]|e].
  - destruct (complete_inv futures p i a (Ret b) w' Hinv Hi)
      as (? & ? & ->). auto.
  - destruct (active_attempts a) as [|attempt rest] eqn:Hatt;
      [by destruct Hloop|].
    destruct Hinv as [Horder Honce Hcalls Hbusy Hbound].
    split; [split|split]; simpl; try done.
    + rewrite list_fmap_insert. simpl.
      rewrite list_insert_id; [done|]. by rewrite list_lookup_fmap, Hi.
    + apply Forall_insert; [done|]. simpl.
      apply (Forall_lookup_1 _ _ _ _ Hcalls Hi).
    + intros Hnil. apply (f_equal length) in Hnil.
      rewrite length_insert in Hnil.
      apply Hbusy. by destruct (workers p).
    + by rewrite length_insert.
    + unfold steps_left. simpl.
      rewrite insert_take_drop by (by eapply lookup_lt_Some).
      rewrite <- (take_drop_middle _ _ _ Hi) at 3.
      rewrite !sum_list_with_app. simpl. rewrite Hatt. simpl. lia.
  - destruct (complete_inv futures p i a (Raise e) w' Hinv Hi)
      as (? & ? & ->). auto.
Qed.

(** A scheduling decision keeps the invariant; it uses up a step unless
    every call has completed. *)
Lemma pool_step_inv futures choice p :
  pool_inv cfg futures p ->
  pool_inv cfg futures (pool_step cfg lib choice p)
  /\ (steps_left cfg (pool_step cfg lib choice p) < steps_left cfg p
      \/ workers p = [])%nat
  /\ (steps_left cfg (pool_step cfg lib choice p) <= steps_left cfg p)%nat
  /\ extends_by cfg futures (pool_world p)
       (pool_world (pool_step cfg lib choice p)).
Proof.
  intros Hinv. unfold pool_step.
  destruct (workers p) as [|a0 ws] eqn:Hws.
  - split; [done|]. split; [by right|]. split; [lia|].
    apply extends_by_refl.
  - rewrite <- Hws.
    assert (Hlt : (choice mod length (workers p) < length (workers p))%nat).
    { apply Nat.mod_upper_bound. by rewrite Hws. }
    apply lookup_lt_is_Some_2 in Hlt as [a Ha].
    destruct (worker_step_inv futures p _ a Hinv Ha) as (? & ? & ?).
    split; [done|]. split; [by left|]. split; [lia|done].
Qed.

Lemma run_pool_inv futures sched steps : forall t p,
  pool_inv cfg futures p ->
  pool_inv cfg futures (run_pool cfg lib sched t steps p)
  /\ (steps_left cfg (run_pool cfg lib sched t steps p) + steps
        <= steps_left cfg p
      \/ workers (run_pool cfg lib sched t steps p) = [])%nat
  /\ extends_by cfg futures (pool_world p)
       (pool_world (run_pool cfg lib sched t steps p)).
Proof.
  induction steps as [|steps IH]; intros t p Hinv; simpl.
  - split; [done|]. split; [left; lia|apply extends_by_refl].
  - destruct (pool_step_inv futures (sched t) p Hinv)
      as (Hinv' & Hless & Hle & Hext).
    destruct (IH (S t) _ Hinv') as (Hinv'' & Hsteps & Hext').
    split; [done|]. split; [|by eapply extends_by_trans].
    destruct Hsteps as [Hsteps|Hdone]; [|by right].
    destruct Hless as [Hless|Hnil]; [left; lia|].
    right. clear -Hnil.
    assert (Hfix : forall c q, workers q = [] ->
                     pool_step cfg lib c q = q).
    { intros c q Hq. unfold pool_step. by rewrite Hq. }
    rewrite (Hfix _ _ Hnil).
    revert t. induction steps as [|n IHn]; intros t; simpl; [done|].
    by rewrite (Hfix _ _ Hnil).
Qed.

(** ** The executor from submission to shutdown *)

Lemma numbered_fst (futures : list task) :
  map fst (numbered futures) = seq 0 (length futures).
Proof.
  unfold numbered.
  change (map fst (imap (fun i t => (i, t)) futures))
    with (fst <$> imap (fun i (t : task) => (i, t)) futures).
  rewrite fmap_imap.
  rewrite (imap_ext _ (fun i _ => id i)) by done.
  by rewrite imap_seq_0, list_fmap_id.
Qed.

Lemma submitted_pool_inv futures w :
  pool_inv cfg futures (submitted_pool cfg futures w)
  /\ steps_left cfg (submitted_pool cfg futures w)
     = enough_steps cfg futures
  /\ pool_world (submitted_pool cfg futures w) = w.
Proof.
  unfold submitted_pool. split; [|split].
  - apply dispatch_free_inv; simpl; [done|done|constructor|lia].
  - unfold dispatch_free. rewrite steps_left_dispatch.
    unfold steps_left, enough_steps, numbered. simpl.
    by rewrite length_imap.
  - unfold dispatch_free. by rewrite dispatch_take.
Qed.

Lemma no_steps_left p : steps_left cfg p = 0%nat -> workers p = [].
Proof.
  unfold steps_left. destruct (workers p); [done|]. simpl. lia.
Qed.

(** When the [with] block is left, every submitted call has been begun
    once, in submission order, and has completed once; the world has
    grown by records and library calls of these calls only. *)
Lemma final_pool_complete sched futures w :
  let p := final_pool cfg lib sched futures w in
  queue p = [] /\ workers p = []
  /\ started p = numbered futures
  /\ map fst (finished p) ≡ₚ seq 0 (length futures)
  /\ extends_by cfg futures w (pool_world p).
Proof.
  intros p. subst p. unfold final_pool.
  destruct (submitted_pool_inv futures w) as (Hinv0 & Hsteps0 & Hw0).
  destruct (run_pool_inv futures sched (enough_steps cfg futures) 0 _ Hinv0)
    as (Hinv & Hsteps & Hext).
  rewrite Hw0 in Hext.
  set (p := run_pool _ _ _ _ _ _) in *.
  assert (Hidle : workers p = []).
  { destruct Hsteps as [Hsteps|]; [|done].
    apply no_steps_left. lia. }
  destruct Hinv as [Horder Honce Hcalls Hbusy Hbound].
  specialize (Hbusy Hidle).
  rewrite Hbusy, app_nil_r in Horder.
  rewrite Hidle, Horder, numbered_fst in Honce.
  auto.
Qed.

End Executor.

(** The calls submitted are the truthy entries, in order, each with the
    output path. *)
Lemma submissions_truthy (videos : list (option (gmap str str)))
    (output_path : str) :
  map (fun t => Some (task_video t)) (submissions videos output_path)
  = List.filter truthy videos
  /\ Forall (fun t => task_path t = output_path)
       (submissions videos output_path).
Proof.
  unfold submissions.
  induction videos as [|video rest [IHv IHp]]; [by split|].
  cbn [omap list_omap List.filter].
  fold (omap (submit output_path) rest).
  destruct video as [d|]; [|done].
  unfold submit. destruct (truthy (Some d)); [|done].
  simpl. split; [by f_equal | by constructor].
Qed.



(** The entries [[A, None, B]] on the default pool of four threads: two
    calls are submitted and begun, one for [A] and one for [B]; with a
    library that always succeeds each makes one download call, and
    nothing is logged. *)
Example download_videos_A_None_B :
  let videos := [Some video_abc123; None; Some video_xyz789] in
  let p := final_pool config working_library round_robin
             (submissions videos (py "/tmp")) empty_world in
  submissions videos (py "/tmp")
    = [mkTask video_abc123 (py "/tmp"); mkTask video_xyz789 (py "/tmp")]
  /\ started p
     = [(0%nat, mkTask video_abc123 (py "/tmp"));
        (1%nat, mkTask video_xyz789 (py "/tmp"))]
  /\ finished p = [(0%nat, Ret true); (1%nat, Ret true)]
  /\ events (pool_world p)
     = [EvDownload (download_opts config (py "/tmp"))
          [py "https://www.youtube.com/watch?v=abc123"];
        EvDownload (download_opts config (py "/tmp"))
          [py "https://www.youtube.com/watch?v=xyz789"]]
  /\ logs (pool_world p) = [].
Proof. vm_compute. repeat split. Qed.

(** The same entries with a library that always fails: each of the two
    calls makes its five attempts, interleaved by the scheduler, and logs
    five warnings and the exhaustion record. *)
Example download_videos_A_None_B_failing :
  let videos := [Some video_abc123; None; Some video_xyz789] in
  let p := final_pool config failing_library round_robin
             (submissions videos (py "/tmp")) empty_world in
  finished p = [(0%nat, Ret false); (1%nat, Ret false)]
  /\ length (events (pool_world p)) = 10%nat
  /\ length (logs (pool_world p)) = 12%nat
  /\ collect_results (finished p) = Ret tt.
Proof. vm_compute. repeat split. Qed.

(** The run of [test_download_videos]: two entries, every download
    succeeding. *)
Example test_download_videos :
  let videos := [Some ({[ py "id" := py "video1" ]} : gmap str str);
                 Some ({[ py "id" := py "video2" ]} : gmap str str)] in
  let '(r, w) := download_videos config working_library first_thread videos
                   (py "/tmp") empty_world in
  r = Ret tt /\ length (events w) = 2%nat /\ logs w = [].
Proof. vm_compute. repeat split. Qed.

(** ** A single busy thread *)

Section SingleThread.

Variable cfg : DownloadConfig.
Variable lib : YoutubeDL.

Lemma run_pool_idle sched steps : forall t p,
  workers p = [] -> run_pool cfg lib sched t steps p = p.
Proof.
  induction steps as [|steps IH]; intros t p Hidle; [done|].
  simpl. unfold pool_step. rewrite Hidle. by apply IH.
Qed.

Lemma dispatch_free_empty_queue ws begun completed w :
  dispatch_free cfg (mkPool [] ws begun completed w)
  = mkPool [] ws begun completed w.
Proof. unfold dispatch_free. by destruct (_ - _)%nat. Qed.

Lemma pool_step_single choice q a begun completed w :
  pool_step cfg lib choice (mkPool q [a] begun completed w)
  = worker_step cfg lib 0 (mkPool q [a] begun completed w).
Proof.
  unfold pool_step. cbn [workers length]. by rewrite Nat.mod_1_r.
Qed.

End SingleThread.

(** The scheduler has one thread to choose from: unfold its step. *)
Ltac single_thread_step :=
  cbn [run_pool for_each]; rewrite pool_step_single; unfold worker_step;
  cbn [workers lookup list_lookup active_attempts task_step active_task
       active_future queue started finished pool_world delete list_delete].

(** ** A batch of one entry is one call of [download_video] *)

Section SingleCall.

Variable cfg : DownloadConfig.
Variable lib : YoutubeDL.
Variable sched : nat -> nat.

(** A lone call steps through the retry loop of [download_video]. *)
Lemma run_pool_single_call (c : task) begun attempts : forall steps t w,
  (length attempts < steps)%nat ->
  run_pool cfg lib sched t steps
    (mkPool [] [mkActive 0 c attempts] begun [] w)
  = let '(r, w') :=
      for_each attempts
        (attempt_body cfg lib (task_video c) (task_path c))
        (attempts_exhausted cfg (task_video c)) w in
    mkPool [] [] begun [(0%nat, r)] w'.
Proof.
  induction attempts as [|attempt rest IH]; intros steps t w Hsteps;
    (destruct steps as [|steps]; [simpl in Hsteps; lia|]);
    single_thread_step.
  - unfold attempts_exhausted, bind, logger, ret.
    by rewrite dispatch_free_empty_queue, run_pool_idle.
  - simpl in Hsteps. unfold bind.
    destruct (attempt_body cfg lib (task_video c) (task_path c) attempt w)
      as [[[b|]|e] w'].
    + by rewrite dispatch_free_empty_queue, run_pool_idle.
    + cbn [tail]. simpl insert. apply IH. lia.
    + by rewrite dispatch_free_empty_queue, run_pool_idle.
Qed.

Lemma download_videos_single (video : gmap str str) (output_path : str)
    (w : world) :
  max_workers cfg <> 0%nat ->
  truthy (Some video) = true ->
  download_videos cfg lib sched [Some video] output_path w
  = let '(r, w') := download_video cfg lib video output_path w in
    (match r with Ret _ => Ret tt | Raise e => Raise e end, w').
Proof.
  intros Hworkers Htruthy. unfold download_videos.
  rewrite bool_decide_eq_false_2 by done.
  unfold submissions. cbn [omap list_omap]. unfold submit.
  rewrite Htruthy. cbv zeta. unfold final_pool, submitted_pool,
    dispatch_free, enough_steps. cbn [workers length numbered imap].
  rewrite Nat.sub_0_r.
  destruct (max_workers cfg) as [|n]; [done|]. cbn [dispatch queue].
  assert (Hd : forall k q, queue q = [] -> dispatch cfg k q = q).
  { intros [|k] q Hq; simpl; by rewrite ?Hq. }
  rewrite Hd by done. cbn [workers started finished pool_world app].
  rewrite run_pool_single_call
    by (unfold range; rewrite length_seq; lia).
  unfold download_video. cbn [task_video task_path].
  destruct (for_each _ _ _ w) as [[b|e] w']; reflexivity.
Qed.

End SingleCall.

(** ** A pool of one thread runs the calls in turn *)

Section OneWorker.

Variable cfg : DownloadConfig.
Variable lib : YoutubeDL.
Variable sched : nat -> nat.
Hypothesis one_worker : max_workers cfg = 1%nat.

Local Abbreviation loop c attempts :=
  (for_each attempts (attempt_body cfg lib (task_video c) (task_path c))
     (attempts_exhausted cfg (task_video c))).




End OneWorker.

(** The flow on a playlist of two entries, every call succeeding: the
    directory named after the playlist is created under the storage root
    and both entries are downloaded into it. *)
Example download_playlist_two_entries :
  let '(r, w) :=
    download_playlist (fun _ => false) config working_library makedirs_ok
      first_thread playlist_url_abc123 (py "/downloads") empty_world in
  r = Ret tt
  /\ dirs w = {[ py "/downloads/Test Playlist" ]}
  /\ map is_download (events w) = [false; true; true]
  /\ map log_level (logs w) = [INFO; INFO].
Proof. vm_compute. repeat split. Qed.

(* ===================================================================== *)
(** * Properties of the numbers: quotients of byte counts are floats *)
(* ===================================================================== *)

Section FloatRange.

Local Open Scope Z_scope.
















End FloatRange.

(* ===================================================================== *)
(** * Properties of the Progress Reporter *)
(* ===================================================================== *)

Lemma percentage_ints (a b : Z) (q : float) (w : world) :
  int_true_divide a b w = (Ret q, w) ->
  percentage (PyInt a) (PyInt b) w
  = (Ret (float_mul q (float_of_int 100)), w).
Proof.
  intros Hq. unfold percentage, as_int. rewrite !bind_ret_l.
  unfold bind. by rewrite Hq.
Qed.

Lemma bind_eq {A B} (m : M A) (k : A -> M B) w a w' :
  m w = (Ret a, w') -> bind m k w = k a w'.
Proof. intros Hm. unfold bind. by rewrite Hm. Qed.



(** The two calls of [test_progress_hook]: the second dictionary is the
    first with its status changed. *)
Example test_progress_hook :
  tty (snd (progress_hook progress_downloading empty_world))
  = [(py "Downloading file.mp4: 50.0%", [13])]
  /\ tty (snd (progress_hook
                 (<[ py "status" := PyStr (py "finished") ]>
                    progress_downloading) empty_world))
     = [([line_feed] ++ py "Finished downloading file.mp4", [line_feed])].
Proof. vm_compute. repeat split. Qed.

(** Percentages as printed; the last one lies beyond the floats. *)
Example percentages_printed :
  let printed a b :=
    match percentage (PyInt a) (PyInt b) empty_world with
    | (Ret x, _) => Some (format_f1 x)
    | (Raise _, _) => None
    end in
  printed 500%Z 1000%Z = Some (py "50.0")
  /\ printed 1%Z 3%Z = Some (py "33.3")
  /\ printed 2%Z 3%Z = Some (py "66.7")
  /\ printed 1000%Z 1000%Z = Some (py "100.0")
  /\ printed 1%Z 2000%Z = Some (py "0.1")
  /\ printed (10 ^ 400)%Z 1%Z = None.
Proof. vm_compute. repeat split. Qed.

(* ===================================================================== *)
(** * Further properties of the Single-Item Downloader *)
(* ===================================================================== *)

Section RetryLoopCases.

Variable cfg : DownloadConfig.
Variable lib : YoutubeDL.
Variable video_info : gmap str str.
Variable output_path : str.

Local Abbreviation outcome :=
  (attempt_outcome cfg lib video_info output_path).

(** An attempt either fails with the download error or it does not. *)
Lemma fails_with_download_error_dec (r : result unit) :
  fails_with_download_error r \/ ~ fails_with_download_error r.
Proof.
  destruct r as [[]|e].
  - right. by intros (e & [=] & _).
  - destruct (isinstance e DownloadError) eqn:He.
    + left. by exists e.
    + right. intros (e' & [= <-] & He'). congruence.
Qed.

(** The first attempt, if any, that does not fail with the download
    error. *)
Lemma first_attempt_not_failing w n :
  exists k, (k <= n)%nat
    /\ (forall j, (j < k)%nat -> fails_with_download_error (outcome w j))
    /\ (k = n \/ ~ fails_with_download_error (outcome w k)).
Proof.
  induction n as [|n (k & Hk & Hfail & Hstop)].
  - exists 0%nat. split; [lia|]. split; [intros j Hj; lia|by left].
  - destruct Hstop as [->|Hstop].
    + destruct (fails_with_download_error_dec (outcome w n)) as [Hn|Hn].
      * exists (S n). split; [lia|]. split; [|by left].
        intros j Hj. destruct (decide (j = n)) as [->|]; [done|].
        apply Hfail. lia.
      * exists n. split; [lia|]. split; [done|by right].
    + exists k. split; [lia|]. split; [done|by right].
Qed.

(** Every run of [download_video] is of one of three kinds: all attempts
    fail with the download error; or, after [k] such failures, the download
    call of the next attempt completes; or that attempt raises something
    else. *)
Lemma download_video_cases w :
  exists k, (k <= max_retries cfg)%nat
    /\ (forall j, (j < k)%nat -> fails_with_download_error (outcome w j))
    /\ ( (k = max_retries cfg
          /\ download_video cfg lib video_info output_path w
             = (Ret false,
                emit (exhaustion_record cfg video_info)
                  (after_failed_attempts cfg lib video_info output_path w
                     k)))
        \/ ((k < max_retries cfg)%nat
            /\ outcome w k = Ret tt
            /\ download_video cfg lib video_info output_path w
               = (Ret true,
                  after_attempts cfg lib video_info output_path w k (S k)))
        \/ ((k < max_retries cfg)%nat
            /\ exists e, outcome w k = Raise e
                 /\ isinstance e DownloadError = false
                 /\ download_video cfg lib video_info output_path w
                    = (Raise e,
                       after_attempts cfg lib video_info output_path w k
                         (S k))) ).
Proof.
  destruct (first_attempt_not_failing w (max_retries cfg))
    as (k & Hk & Hfail & Hstop).
  exists k. split; [done|]. split; [done|].
  assert (Hid : k <> 0%nat -> is_Some (video_info !! py "id")).
  { intros Hk0. destruct (Hfail 0%nat) as (e & He & Hde); [lia|].
    unfold attempt_outcome in He.
    destruct (video_info !! py "id"); [eauto|].
    inversion He; subst. discriminate. }
  destruct (decide (k = max_retries cfg)) as [Heq|Hne].
  - left. split; [done|].
    rewrite (download_video_after_failures _ _ _ _ w k 0) by (auto with lia).
    reflexivity.
  - destruct Hstop as [?|Hstop]; [done|]. right.
    assert (Hlt : (k < max_retries cfg)%nat) by lia.
    assert (Hid' : k = 0%nat \/ is_Some (video_info !! py "id")).
    { destruct k; [by left|right; apply Hid; lia]. }
    rewrite (download_video_after_failures _ _ _ _ w k (max_retries cfg - k))
      by (auto with lia).
    destruct (max_retries cfg - k)%nat as [|m] eqn:Hm; [lia|].
    cbn [seq for_each]. unfold bind.
    destruct (outcome w k) as [[]|e] eqn:Hout.
    + left. split; [done|]. split; [done|].
      by rewrite (attempt_body_succeeds _ _ _ _ w k Hout).
    + right. split; [done|]. exists e.
      assert (Hde : isinstance e DownloadError = false).
      { destruct (isinstance e DownloadError) eqn:He; [|done].
        destruct Hstop. by exists e. }
      split; [done|]. split; [done|].
      by rewrite (attempt_body_fatal _ _ _ _ w k e Hid' Hout Hde).
Qed.

End RetryLoopCases.



(** X1. What the result of [download_video] tells: [False] is returned
    only when each of the [max_retries] attempts failed with the download
    error, and [True] only when the download call of some attempt
    completed, the attempts before it having failed with the download
    error. *)
Theorem download_video_result_inversion
    (cfg : DownloadConfig) (lib : YoutubeDL) (video_info : gmap str str)
    (output_path : str) (w : world) :
  (fst (download_video cfg lib video_info output_path w) = Ret false ->
   forall j, (j < max_retries cfg)%nat ->
     fails_with_download_error
       (attempt_outcome cfg lib video_info output_path w j))
  /\
  (fst (download_video cfg lib video_info output_path w) = Ret true ->
   exists k, (k < max_retries cfg)%nat
     /\ attempt_outcome cfg lib video_info output_path w k = Ret tt
     /\ forall j, (j < k)%nat ->
          fails_with_download_error
            (attempt_outcome cfg lib video_info output_path w j)).
Proof.
  destruct (download_video_cases cfg lib video_info output_path w)
    as (k & Hk & Hfail & [(-> & ->) | [(Hlt & Hok & ->)
                                      | (Hlt & e & He & Hde & ->)]]);
    split; simpl; try discriminate; intros _; eauto.
Qed.

Lemma download_video_result_inversion_witness :
  (forall j, (j < 5)%nat ->
     fails_with_download_error
       (attempt_outcome config failing_library video_abc123 (py "/tmp")
          empty_world j))
  /\ exists k, (k < 5)%nat
       /\ attempt_outcome config third_time_lucky video_abc123 (py "/tmp")
            empty_world k = Ret tt
       /\ forall j, (j < k)%nat ->
            fails_with_download_error
              (attempt_outcome config third_time_lucky video_abc123
                 (py "/tmp") empty_world j).
Proof.
  split.
  - apply (proj1 (download_video_result_inversion config failing_library
                    video_abc123 (py "/tmp") empty_world)).
    vm_compute. reflexivity.
  - apply (proj2 (download_video_result_inversion config third_time_lucky
                    video_abc123 (py "/tmp") empty_world)).
    vm_compute. reflexivity.
Defined.

(** X2. [download_video] never raises an instance of the download error:
    each one is caught by the retry loop. *)
Theorem download_video_never_raises_download_error
    (cfg : DownloadConfig) (lib : YoutubeDL) (video_info : gmap str str)
    (output_path : str) (w : world) (e : exn) :
  fst (download_video cfg lib video_info output_path w) = Raise e ->
  isinstance e DownloadError = false.
Proof.
  destruct (download_video_cases cfg lib video_info output_path w)
    as (k & Hk & Hfail & [(-> & ->) | [(Hlt & Hok & ->)
                                      | (Hlt & e' & He & Hde & ->)]]);
    simpl; try discriminate.
  by intros [= <-].
Qed.

Lemma download_video_never_raises_download_error_witness :
  isinstance (mkExn OSError (py "No space left on device")) DownloadError
  = false.
Proof.
  apply (download_video_never_raises_download_error config
           disk_full_library video_abc123 (py "/tmp") empty_world).
  vm_compute. reflexivity.
Defined.


(* ===================================================================== *)
(** * Further properties of the Metadata Fetchers *)
(* ===================================================================== *)

(** X4. Both fetchers hand back a successful answer of [extract_info]
    unchanged, logging nothing; and no exception of the classes a fetcher
    names in its [except] clauses ever leaves it: [get_playlist_info]
    raises no library error, [get_video_info] no instance of the download
    or of the extractor error. *)
Theorem metadata_fetchers_pass_through
    (lib : YoutubeDL) (url : str) (w : world) :
  (forall info,
     extract_info lib (length (events w)) playlist_info_opts url = Ret info ->
     get_playlist_info lib url w
     = (Ret info, record_event (EvExtractInfo playlist_info_opts url) w))
  /\ (forall info,
        extract_info lib (length (events w)) video_info_opts url = Ret info ->
        get_video_info lib url w
        = (Ret info, record_event (EvExtractInfo video_info_opts url) w))
  /\ (forall e,
        fst (get_playlist_info lib url w) = Raise e ->
        isinstance e YoutubeDLError = false)
  /\ (forall e,
        fst (get_video_info lib url w) = Raise e ->
        isinstance e DownloadError = false
        /\ isinstance e ExtractorError = false).
Proof.
  repeat split.
  - intros info Hinfo. unfold get_playlist_info, try_except, ydl_extract_info.
    by rewrite Hinfo.
  - intros info Hinfo. unfold get_video_info, try_except, ydl_extract_info.
    by rewrite Hinfo.
  - intros e. unfold get_playlist_info, try_except, ydl_extract_info.
    destruct (extract_info lib _ _ _) as [info|e']; [discriminate|].
    unfold find_handler, isinstance_any. cbn [existsb].
    rewrite !orb_false_r.
    destruct (isinstance e' ExtractorError); [discriminate|].
    destruct (isinstance e' YoutubeDLError) eqn:Hy; [discriminate|].
    by intros [= <-].
  - revert H. unfold get_video_info, try_except, ydl_extract_info.
    destruct (extract_info lib _ _ _) as [info|e']; [discriminate|].
    unfold find_handler, isinstance_any. cbn [existsb].
    rewrite !orb_false_r.
    destruct (isinstance e' DownloadError) eqn:Hd; [discriminate|].
    destruct (isinstance e' ExtractorError) eqn:Hx; [discriminate|].
    by intros [= <-].
  - revert H. unfold get_video_info, try_except, ydl_extract_info.
    destruct (extract_info lib _ _ _) as [info|e']; [discriminate|].
    unfold find_handler, isinstance_any. cbn [existsb].
    rewrite !orb_false_r.
    destruct (isinstance e' DownloadError) eqn:Hd; [discriminate|].
    destruct (isinstance e' ExtractorError) eqn:Hx; [discriminate|].
    by intros [= <-].
Qed.

Lemma metadata_fetchers_pass_through_witness :
  get_playlist_info working_library playlist_url_abc123 empty_world
  = (extract_info working_library 0 playlist_info_opts playlist_url_abc123,
     record_event (EvExtractInfo playlist_info_opts playlist_url_abc123)
       empty_world)
  /\ isinstance (mkExn YoutubeDLError (py "Test error")) DownloadError = false
  /\ isinstance (mkExn YoutubeDLError (py "Test error")) ExtractorError
     = false.
Proof.
  split.
  - apply (proj1 (metadata_fetchers_pass_through working_library
                    playlist_url_abc123 empty_world)).
    reflexivity.
  - apply (proj2 (proj2 (proj2
             (metadata_fetchers_pass_through general_error_library
                video_url_example empty_world)))).
    reflexivity.
Defined.

(* ===================================================================== *)
(** * Further properties of the Batch Orchestrator *)
(* ===================================================================== *)

Section ExecutorRuns.

Variable cfg : DownloadConfig.
Variable lib : YoutubeDL.

(** What holds initially and is kept by every step of a busy thread holds
    after any number of scheduling decisions. *)
Lemma run_pool_preserves (P : pool -> Prop) sched :
  (forall i p a, P p -> workers p !! i = Some a ->
     P (worker_step cfg lib i p)) ->
  forall steps t p, P p -> P (run_pool cfg lib sched t steps p).
Proof.
  intros Hstep. induction steps as [|steps IH]; intros t p HP; [done|].
  simpl. apply IH. unfold pool_step.
  destruct (workers p) as [|a0 ws] eqn:Hws; [done|].
  rewrite <- Hws.
  assert (Hlt : (sched t mod length (workers p) < length (workers p))%nat).
  { apply Nat.mod_upper_bound. by rewrite Hws. }
  apply lookup_lt_is_Some_2 in Hlt as [a Ha]. by eapply Hstep.
Qed.


(** A step of a call raises no instance of the download error. *)
Lemma task_step_raises a w e w' :
  task_step cfg lib a w = (Raise e, w') ->
  isinstance e DownloadError = false.
Proof.
  unfold task_step. destruct (active_attempts a) as [|attempt rest].
  - unfold attempts_exhausted, bind, logger, ret. discriminate.
  - pose proof (attempt_body_cases cfg lib (task_video (active_task a))
                  (task_path (active_task a)) attempt w) as Hcases.
    intros Hbody.
    destruct (task_video (active_task a) !! py "id") as [id|].
    + cbv zeta in Hcases. destruct (download lib _ _ _) as [[]|e'];
        [|destruct (isinstance e' DownloadError) eqn:He'];
        rewrite Hcases in Hbody; try discriminate.
      by injection Hbody as <- <-.
    + rewrite Hcases in Hbody. by injection Hbody as <- <-.
Qed.

(** With an identifier at hand and a library that fails softly, a step of
    a call raises nothing. *)
Lemma task_step_returns a w r w' :
  download_fails_softly lib ->
  is_Some (task_video (active_task a) !! py "id") ->
  task_step cfg lib a w = (r, w') ->
  exists o, r = Ret o.
Proof.
  intros Hsoft [id Hid]. unfold task_step.
  destruct (active_attempts a) as [|attempt rest].
  - unfold attempts_exhausted, bind, logger, ret. intros [= <- <-]. eauto.
  - pose proof (attempt_body_cases cfg lib (task_video (active_task a))
                  (task_path (active_task a)) attempt w) as Hcases.
    intros Hbody. rewrite Hid in Hcases. cbv zeta in Hcases.
    destruct (download lib _ _ _) as [[]|e] eqn:Hd.
    + rewrite Hcases in Hbody. injection Hbody as <- <-. eauto.
    + rewrite (Hsoft _ _ _ _ Hd) in Hcases.
      rewrite Hcases in Hbody. injection Hbody as <- <-. eauto.
Qed.

Lemma calls_left_dispatch free p :
  calls_left cfg (dispatch cfg free p) = calls_left cfg p.
Proof.
  rewrite dispatch_take. unfold calls_left. simpl.
  set (k := min free (length (queue p))).
  rewrite sum_list_with_app, length_drop.
  assert (Hk : (k <= length (queue p))%nat) by lia.
  assert (Hsum : sum_list_with (fun a => length (active_attempts a))
                   (map (begin_call cfg) (take k (queue p)))
                 = (k * max_retries cfg)%nat).
  { rewrite <- (length_take_le (queue p) k) at 2 by lia.
    induction (take k (queue p)) as [|it l IHl]; [done|].
    simpl. unfold range. rewrite length_seq, IHl. lia. }
  rewrite Hsum. nia.
Qed.


Lemma worker_step_finished i p a :
  workers p !! i = Some a ->
  finished (worker_step cfg lib i p) = finished p
  \/ exists r w',
       task_step cfg lib a (pool_world p) = (r, w')
       /\ finished (worker_step cfg lib i p)
          = finished p
            ++ [(active_future a,
                 match r with
                 | Ret (Some b) => Ret b
                 | Ret None => Ret false
                 | Raise e => Raise e
                 end)]
       /\ r <> Ret None.
Proof.
  intros Hi. unfold worker_step. rewrite Hi.
  destruct (task_step cfg lib a (pool_world p)) as [[[b|]|e] w'] eqn:Hstep.
  - right. exists (Ret (Some b)), w'. split; [done|].
    unfold dispatch_free. rewrite dispatch_take. by split.
  - by left.
  - right. exists (Raise e), w'. split; [done|].
    unfold dispatch_free. rewrite dispatch_take. by split.
Qed.

Lemma worker_step_no_download_error i p a :
  no_download_error_raised (finished p) ->
  workers p !! i = Some a ->
  no_download_error_raised (finished (worker_step cfg lib i p)).
Proof.
  intros Hfin Hi.
  destruct (worker_step_finished i p a Hi)
    as [-> | (r & w' & Hstep & -> & Hr)]; [done|].
  apply Forall_app. split; [done|]. repeat constructor. simpl.
  intros e He. destruct r as [[b|]|e']; try discriminate.
  injection He as ->. by eapply task_step_raises.
Qed.

End ExecutorRuns.

Section ExecutorInvariants.

Variable cfg : DownloadConfig.
Variable lib : YoutubeDL.

Lemma dispatch_free_saturated p :
  (length (workers p) <= max_workers cfg)%nat ->
  pool_saturated cfg (dispatch_free cfg p).
Proof.
  intros Hbound. unfold dispatch_free, pool_saturated.
  rewrite dispatch_take. simpl.
  rewrite length_app, length_map, length_take.
  split; [lia|]. intros Hq.
  destruct (decide (max_workers cfg - length (workers p)
                    <= length (queue p))%nat); [lia|].
  destruct Hq. apply nil_length_inv. rewrite length_drop. lia.
Qed.

Lemma worker_step_saturated i p a :
  pool_saturated cfg p ->
  workers p !! i = Some a ->
  pool_saturated cfg (worker_step cfg lib i p).
Proof.
  intros [Hbound Hfull] Hi. unfold worker_step. rewrite Hi.
  assert (Hdel : (length (delete i (workers p)) <= max_workers cfg)%nat).
  { rewrite length_delete by eauto. lia. }
  destruct (task_step cfg lib a (pool_world p)) as [[[b|]|e] w'].
  - by apply dispatch_free_saturated.
  - unfold pool_saturated. simpl. by rewrite length_insert.
  - by apply dispatch_free_saturated.
Qed.

Lemma dispatch_free_returning p :
  pool_returning p -> pool_returning (dispatch_free cfg p).
Proof.
  intros (Hws & Hq & Hfin). unfold dispatch_free, pool_returning.
  rewrite dispatch_take. simpl. repeat split; [|by apply Forall_drop|done].
  apply Forall_app. split; [done|].
  apply Forall_fmap. by apply Forall_take.
Qed.

Lemma worker_step_returning i p a :
  download_fails_softly lib ->
  pool_returning p ->
  workers p !! i = Some a ->
  pool_returning (worker_step cfg lib i p).
Proof.
  intros Hsoft (Hws & Hq & Hfin) Hi. unfold worker_step. rewrite Hi.
  pose proof (Forall_lookup_1 _ _ _ _ Hws Hi) as Hid.
  destruct (task_step cfg lib a (pool_world p)) as [r w'] eqn:Hstep.
  destruct (task_step_returns cfg lib _ _ _ _ Hsoft Hid Hstep) as [o ->].
  destruct o as [b|].
  - apply dispatch_free_returning. repeat split; simpl; [|done|].
    + by apply Forall_delete.
    + apply Forall_app. split; [done|]. repeat constructor. by exists b.
  - repeat split; simpl; [|done|done]. by apply Forall_insert.
Qed.

(** The executor once the futures are submitted. *)
Lemma submitted_pool_world futures w :
  pool_world (submitted_pool cfg futures w) = w
  /\ finished (submitted_pool cfg futures w) = []
  /\ calls_left cfg (submitted_pool cfg futures w)
     = (length futures * max_retries cfg)%nat.
Proof.
  unfold submitted_pool, dispatch_free.
  rewrite calls_left_dispatch, dispatch_take. repeat split.
  unfold calls_left, numbered. simpl. by rewrite length_imap.
Qed.

Lemma submitted_pool_returning futures w :
  Forall identified futures ->
  pool_returning (submitted_pool cfg futures w).
Proof.
  intros Hid. apply dispatch_free_returning.
  repeat split; simpl; [constructor| |constructor].
  apply Forall_forall. intros [i t] Hit. simpl.
  apply list_elem_of_lookup in Hit as (j & Hj).
  unfold numbered in Hj. rewrite list_lookup_imap in Hj.
  destruct (futures !! j) as [t'|] eqn:Ht; [|discriminate].
  injection Hj as <- <-. by eapply (Forall_lookup_1 _ _ _ _ Hid).
Qed.

(** The exception [collect_results] raises is that of a completed
    future; it raises none when every future returned. *)
Lemma collect_results_raise completed e :
  collect_results completed = Raise e ->
  exists i, (i, Raise e) ∈ completed.
Proof.
  induction completed as [|[i [b|e']] rest IH]; simpl; [discriminate| |].
  - intros Hraise. destruct (IH Hraise) as [j Hj].
    exists j. by apply list_elem_of_further.
  - intros [= ->]. exists i. apply list_elem_of_here.
Qed.

Lemma collect_results_returned completed :
  all_returned completed -> collect_results completed = Ret tt.
Proof.
  induction 1 as [|[i r] rest [b Hb] _ IH]; [done|].
  simpl in Hb. subst r. exact IH.
Qed.

End ExecutorInvariants.

(** X5. However the worker threads are scheduled, at every moment of the
    run of the executor at most [max_workers] calls of [download_video]
    are in progress, and a call waits in the queue only while all
    [max_workers] threads are busy. *)
Theorem download_videos_bounded_concurrency
    (cfg : DownloadConfig) (lib : YoutubeDL) (sched : nat -> nat)
    (futures : list task) (w : world) (steps : nat) :
  let p := run_pool cfg lib sched 0 steps (submitted_pool cfg futures w) in
  (length (workers p) <= max_workers cfg)%nat
  /\ (queue p <> [] -> length (workers p) = max_workers cfg).
Proof.
  apply (run_pool_preserves cfg lib (pool_saturated cfg)).
  - apply worker_step_saturated.
  - apply dispatch_free_saturated. simpl. lia.
Qed.


(** X7. [download_videos] never raises an instance of the download error:
    the exception it raises, if any, is one that a call of
    [download_video] raised, and those are never download errors. *)
Theorem download_videos_never_raises_download_error
    (cfg : DownloadConfig) (lib : YoutubeDL) (sched : nat -> nat)
    (videos : list (option (gmap str str))) (output_path : str) (w : world)
    (e : exn) :
  fst (download_videos cfg lib sched videos output_path w) = Raise e ->
  isinstance e DownloadError = false.
Proof.
  unfold download_videos. case_bool_decide; [by intros [= <-]|].
  cbv zeta. cbn [fst]. intros Hraise.
  apply collect_results_raise in Hraise as [i Hi].
  set (futures := submissions videos output_path) in *.
  pose proof
    (run_pool_preserves cfg lib
       (fun p => no_download_error_raised (finished p))
       sched (worker_step_no_download_error cfg lib)
       (enough_steps cfg futures) 0 (submitted_pool cfg futures w)) as Hrun.
  simpl in Hrun.
  rewrite (proj1 (proj2 (submitted_pool_world cfg futures w))) in Hrun.
  specialize (Hrun ltac:(constructor)).
  unfold no_download_error_raised in Hrun.
  rewrite Forall_forall in Hrun. by apply (Hrun _ Hi e).
Qed.

Lemma download_videos_never_raises_download_error_witness :
  isinstance (mkExn KeyError (py "'id'")) DownloadError = false.
Proof.
  apply (download_videos_never_raises_download_error config failing_library
           round_robin [Some video_without_id] (py "/tmp") empty_world).
  vm_compute. reflexivity.
Defined.

(** When every truthy entry has an identifier and the library fails
    softly, no call raises and [download_videos] returns. *)
Lemma download_videos_all_returned
    (cfg : DownloadConfig) (lib : YoutubeDL) (sched : nat -> nat)
    (videos : list (option (gmap str str))) (output_path : str) (w : world) :
  max_workers cfg <> 0%nat ->
  download_fails_softly lib ->
  (forall d, Some d ∈ videos -> d <> ∅ -> is_Some (d !! py "id")) ->
  fst (download_videos cfg lib sched videos output_path w) = Ret tt.
Proof.
  intros Hworkers Hsoft Hids. unfold download_videos.
  rewrite bool_decide_eq_false_2 by done. cbv zeta. cbn [fst].
  apply collect_results_returned.
  set (futures := submissions videos output_path).
  assert (Hid : Forall identified futures).
  { apply Forall_forall. intros t Ht. unfold futures, submissions in Ht.
    apply list_elem_of_omap in Ht as (video & Hvideo & Hsub).
    unfold submit in Hsub. destruct (truthy video) eqn:Htruthy; [|done].
    destruct video as [d|]; [|done]. injection Hsub as <-.
    unfold identified. simpl. apply Hids; [done|].
    simpl in Htruthy. intros ->. by rewrite bool_decide_eq_true_2 in Htruthy. }
  apply (run_pool_preserves cfg lib pool_returning sched
           (fun i p a => worker_step_returning cfg lib i p a Hsoft)
           (enough_steps cfg futures) 0 (submitted_pool cfg futures w)
           (submitted_pool_returning cfg futures w Hid)).
Qed.


(** X8. A batch whose downloads all fail is not an error for
    [download_videos]: when every truthy entry has an ["id"] and the
    library's [download] fails with the download error only,
    [download_videos] returns [None], whatever the outcome of the
    single calls and however the threads are scheduled. *)
Theorem download_videos_returns_despite_failures
    (cfg : DownloadConfig) (lib : YoutubeDL) (sched : nat -> nat)
    (videos : list (option (gmap str str))) (output_path : str) (w : world) :
  max_workers cfg <> 0%nat ->
  download_fails_softly lib ->
  (forall d, Some d ∈ videos -> d <> ∅ -> is_Some (d !! py "id")) ->
  fst (download_videos cfg lib sched videos output_path w) = Ret tt.
Proof. apply download_videos_all_returned. Qed.

Lemma download_videos_returns_despite_failures_witness :
  fst (download_videos config failing_library round_robin
         [Some video_abc123; None; Some video_xyz789] (py "/tmp")
         empty_world) = Ret tt.
Proof.
  apply (download_videos_returns_despite_failures config failing_library
           round_robin [Some video_abc123; None; Some video_xyz789]
           (py "/tmp") empty_world).
  - simpl. lia.
  - intros n opts urls e [= <-]. reflexivity.
  - intros d Hd _. rewrite !elem_of_cons, elem_of_nil in Hd.
    destruct Hd as [[= ->] | [[=] | [[= ->] | []]]];
      vm_compute; eauto.
Defined.

(** X9. The edges of [download_videos]: with no truthy entry (an empty
    list, or only [None] and empty dictionaries) it returns [None] and
    leaves the world as it was; with an executor of no thread it raises
    [ValueError] before any call is submitted, whatever the entries. *)
Theorem download_videos_edges
    (cfg : DownloadConfig) (lib : YoutubeDL) (sched : nat -> nat)
    (videos : list (option (gmap str str))) (output_path : str) (w : world) :
  (max_workers cfg <> 0%nat -> List.filter truthy videos = [] ->
   download_videos cfg lib sched videos output_path w = (Ret tt, w))
  /\ (max_workers cfg = 0%nat ->
      download_videos cfg lib sched videos output_path w
      = (Raise (mkExn ValueError (py "max_workers must be greater than 0")),
         w)).
Proof.
  split.
  - intros Hworkers Hnone. unfold download_videos.
    rewrite bool_decide_eq_false_2 by done. cbv zeta.
    assert (Hsub : submissions videos output_path = []).
    { pose proof (proj1 (submissions_truthy videos output_path)) as Hmap.
      rewrite Hnone in Hmap. by destruct (submissions videos output_path). }
    rewrite Hsub. unfold final_pool, enough_steps. simpl.
    unfold submitted_pool. simpl.
    by rewrite dispatch_free_empty_queue.
  - intros Hzero. unfold download_videos.
    by rewrite bool_decide_eq_true_2.
Qed.

Lemma download_videos_edges_witness :
  download_videos config failing_library round_robin [None; Some ∅; None]
    (py "/tmp") empty_world = (Ret tt, empty_world).
Proof.
  apply (proj1 (download_videos_edges config failing_library round_robin
                  [None; Some ∅; None] (py "/tmp") empty_world)).
  - simpl. lia.
  - reflexivity.
Defined.


(* ===================================================================== *)
(** * Further properties of the Collection-level Download Flow *)
(* ===================================================================== *)

(** ** The name of the playlist directory *)







(** ** The flow once the metadata holds entries *)

(** [download_videos] adds records and library calls of its calls only. *)
Lemma download_videos_extends
    (cfg : DownloadConfig) (lib : YoutubeDL) (sched : nat -> nat)
    (videos : list (option (gmap str str))) (output_path : str) (w : world) :
  extends_by cfg (submissions videos output_path) w
    (snd (download_videos cfg lib sched videos output_path w)).
Proof.
  unfold download_videos. case_bool_decide as Hworkers.
  - apply extends_by_refl.
  - cbv zeta. cbn [snd].
    by destruct (final_pool_complete cfg lib Hworkers sched
                   (submissions videos output_path) w) as (_ & _ & _ & _ & ?).
Qed.


Section PlaylistFlowProperties.

Variable unicode_isalnum : N -> bool.
Variable cfg : DownloadConfig.
Variable lib : YoutubeDL.
Variable makedirs : str -> result unit.
Variable sched : nat -> nat.

Local Abbreviation flow :=
  (download_playlist unicode_isalnum cfg lib makedirs sched).

(** The flow after a metadata fetch that gave entries and a title that is
    a string. *)
Lemma download_playlist_with_entries url storage w w1 info entries title :
  get_playlist_info lib url w = (Ret (Some info), w1) ->
  info !! py "entries" = Some entries ->
  dict_get info "title" (PyStr (py "Untitled Playlist")) = PyStr title ->
  let playlist_path :=
    os_path_join storage (create_safe_filename unicode_isalnum title) in
  flow url storage w
  = match makedirs playlist_path with
    | Ret _ =>
        (run logger INFO "Downloading playlist: %s" [ LStr title ];
         run download_entries cfg lib sched entries playlist_path;
         logger INFO "Playlist download complete!" [])
          (add_dir playlist_path w1)
    | Raise e =>
        if isinstance e OSError
        then (Ret tt, emit (directory_failure playlist_path e) w1)
        else (Raise e, w1)
    end.
Proof.
  intros Hfetch Hentries Htitle playlist_path.
  unfold download_playlist. rewrite (bind_eq _ _ _ _ _ Hfetch).
  assert (Htruthy : info_truthy (Some info) = true).
  { simpl. apply negb_true_iff, bool_decide_eq_false_2.
    intros ->. by rewrite lookup_empty in Hentries. }
  rewrite Htruthy, Hentries, Htitle. cbn [safe_title].
  rewrite bind_ret_l. fold playlist_path.
  unfold bind at 1. unfold try_except, bind at 1, os_makedirs.
  destruct (makedirs playlist_path) as [[]|e]; [reflexivity|].
  unfold find_handler, isinstance_any. cbn [existsb].
  rewrite orb_false_r. by destruct (isinstance e OSError).
Qed.

End PlaylistFlowProperties.




(** X14. A playlist whose downloads all fail is still reported as
    complete: when the metadata holds a list of entries, each truthy one
    with an ["id"], the directory can be created and the library's
    [download] fails with the download error only, [download_playlist]
    returns [None], the directory exists afterwards and the last record
    logged is "Playlist download complete!", whatever the outcome of the
    single downloads. *)
Theorem download_playlist_completes_despite_failures
    (unicode_isalnum : N -> bool) (cfg : DownloadConfig) (lib : YoutubeDL)
    (makedirs : str -> result unit) (sched : nat -> nat)
    (playlist_url storage_location : str) (w w1 : world)
    (info : gmap str pyval) (videos : list (option (gmap str str)))
    (title : str) :
  max_workers cfg <> 0%nat ->
  download_fails_softly lib ->
  get_playlist_info lib playlist_url w = (Ret (Some info), w1) ->
  info !! py "entries" = Some (PyEntries videos) ->
  (forall d, Some d ∈ videos -> d <> ∅ -> is_Some (d !! py "id")) ->
  dict_get info "title" (PyStr (py "Untitled Playlist")) = PyStr title ->
  makedirs (os_path_join storage_location
              (create_safe_filename unicode_isalnum title)) = Ret tt ->
  let '(r, w') :=
    download_playlist unicode_isalnum cfg lib makedirs sched playlist_url
      storage_location w in
  r = Ret tt
  /\ last (logs w') = Some playlist_complete
  /\ os_path_join storage_location
       (create_safe_filename unicode_isalnum title) ∈ dirs w'.
Proof.
  intros Hworkers Hsoft Hfetch Hentries Hids Htitle Hmk.
  rewrite (download_playlist_with_entries unicode_isalnum cfg lib makedirs
             sched _ storage_location _ _ _ _ _ Hfetch Hentries Htitle).
  rewrite Hmk.
  set (playlist_path := os_path_join storage_location _).
  unfold bind at 1, logger at 1. unfold bind at 1. cbn [download_entries].
  set (w2 := emit _ (add_dir playlist_path w1)).
  pose proof (download_videos_all_returned cfg lib sched videos playlist_path
                w2 Hworkers Hsoft Hids) as Hret.
  pose proof (download_videos_extends cfg lib sched videos playlist_path w2)
    as (? & ? & _ & _ & _ & _ & Hdirs & _).
  destruct (download_videos cfg lib sched videos playlist_path w2)
    as [r w3]. simpl in Hret, Hdirs. subst r.
  unfold logger. split; [done|]. split.
  - simpl. by rewrite last_snoc.
  - change (playlist_path ∈ dirs w3). rewrite Hdirs. subst w2. simpl.
    by apply elem_of_union_l, elem_of_singleton.
Qed.

Lemma download_playlist_completes_despite_failures_witness :
  let '(r, w') :=
    download_playlist (fun _ => false) config unreachable_library
      makedirs_ok round_robin playlist_url_abc123 (py "/downloads")
      empty_world in
  r = Ret tt
  /\ last (logs w') = Some playlist_complete
  /\ os_path_join (py "/downloads")
       (create_safe_filename (fun _ => false) (py "Test Playlist"))
     ∈ dirs w'.
Proof.
  eapply (download_playlist_completes_despite_failures (fun _ => false)
            config unreachable_library makedirs_ok round_robin
            playlist_url_abc123 (py "/downloads") empty_world).
  - simpl. lia.
  - intros n opts urls e [= <-]. reflexivity.
  - reflexivity.
  - vm_compute. reflexivity.
  - intros d Hd _. rewrite !elem_of_cons, elem_of_nil in Hd.
    destruct Hd as [[= ->] | [[= ->] | []]]; vm_compute; eauto.
  - vm_compute. reflexivity.
  - reflexivity.
Defined.

(** The run of the witness: ten failed download calls, and the flow ends
    with the completion record. *)
Example download_playlist_unreachable :
  let '(r, w') :=
    download_playlist (fun _ => false) config unreachable_library
      makedirs_ok round_robin playlist_url_abc123 (py "/downloads")
      empty_world in
  r = Ret tt
  /\ length (List.filter is_download (events w')) = 10%nat
  /\ map log_level (logs w')
     = [INFO; WARNING; WARNING; WARNING; WARNING; WARNING; WARNING;
        WARNING; WARNING; WARNING; WARNING; ERROR; ERROR; INFO].
Proof. vm_compute. repeat split. Qed.

(* ===================================================================== *)
(** * Further properties of the Filename Sanitizer and the URL Validator *)
(* ===================================================================== *)

Lemma safe_char_fixed (unicode_isalnum : N -> bool) (c : N) :
  safe_char unicode_isalnum c = c <-> allowed_char unicode_isalnum c = true.
Proof.
  split; [|apply safe_char_fixes_allowed].
  intros <-. apply safe_char_allowed.
Qed.

(** X15. [create_safe_filename] returns its argument unchanged exactly
    when every character of it is alphanumeric, a space, a hyphen or an
    underscore; and the name of a concatenation is the concatenation of
    the names. *)
Theorem create_safe_filename_fixed_points
    (unicode_isalnum : N -> bool) (filename rest : str) :
  (create_safe_filename unicode_isalnum filename = filename
   <-> Forall (fun c => allowed_char unicode_isalnum c = true) filename)
  /\ create_safe_filename unicode_isalnum (filename ++ rest)
     = create_safe_filename unicode_isalnum filename
       ++ create_safe_filename unicode_isalnum rest.
Proof.
  rewrite !create_safe_filename_map. split; [|apply map_app].
  induction filename as [|c s IH]; cbn [map].
  - split; [constructor|reflexivity].
  - rewrite Forall_cons, <- IH, <- safe_char_fixed. split.
    + by intros [= Hc Hs].
    + by intros [-> ->].
Qed.

(** X16. [validate_url] looks at the beginning of the string only: a
    string it accepts is accepted with anything appended, and its first
    character is [h], [w] or [y], so that a URL typed with a leading
    space is rejected. *)
Theorem validate_url_prefix_only (s : str) :
  validate_url s = true ->
  (forall t, validate_url (s ++ t) = true)
  /\ exists c rest, s = c :: rest /\ c ∈ [chr "h"; chr "w"; chr "y"].
Proof.
  intros Hs. apply validate_url_accepts in Hs.
  destruct Hs as (c & rest & Hc & scheme & www & host & Hs & Hw & Hh & ->).
  split.
  - intros t. apply validate_url_accepts.
    exists c, (rest ++ t). split; [done|].
    exists scheme, www, host. repeat split; try done.
    by rewrite <- !app_assoc.
  - unfold scheme_prefixes, www_prefixes, host_tokens in Hs, Hw, Hh.
    repeat match goal with
           | H : _ ∈ _ :: _ |- _ => apply elem_of_cons in H as [->|H]
           | H : _ ∈ [] |- _ => by apply elem_of_nil in H
           end;
      eexists _, _; (split; [reflexivity|]);
      rewrite !elem_of_cons; auto.
Qed.

Lemma validate_url_prefix_only_witness :
  (forall t, validate_url (py "https://youtu.be/ID" ++ t) = true)
  /\ exists c rest,
       py "https://youtu.be/ID" = c :: rest
       /\ c ∈ [chr "h"; chr "w"; chr "y"].
Proof.
  apply (validate_url_prefix_only (py "https://youtu.be/ID")).
  vm_compute. reflexivity.
Defined.

(** A leading space, and a host other than the two tokens. *)
Example validate_url_rejections :
  validate_url (py " https://www.youtube.com/watch?v=ID") = false
  /\ validate_url (py "https://m.youtube.com/watch?v=ID") = false
  /\ validate_url (py "HTTPS://WWW.YOUTUBE.COM/watch?v=ID") = false
  /\ validate_url (py "https://youtube.com/x and more") = true.
Proof. repeat split; vm_compute; reflexivity. Qed.

(* ===================================================================== *)
(** * Further properties of the Progress Reporter *)
(* ===================================================================== *)

Lemma int_true_divide_world (a b : Z) (w : world) :
  snd (int_true_divide a b w) = w.
Proof.
  unfold int_true_divide. destruct (b =? 0)%Z; [reflexivity|].
  cbv zeta. by destruct (is_infinite _).
Qed.

Lemma int_true_divide_raises (a b : Z) (w w' : world) (e : exn) :
  int_true_divide a b w = (Raise e, w') ->
  (b = 0%Z /\ exn_class_of e = Subclass "ZeroDivisionError" ArithmeticError)
  \/ exn_class_of e = OverflowError.
Proof.
  unfold int_true_divide. destruct (b =? 0)%Z eqn:Hb.
  - intros [= <- <-]. left. split; [by apply Z.eqb_eq|reflexivity].
  - cbv zeta. destruct (is_infinite _); [|discriminate].
    intros [= <- <-]. by right.
Qed.

Lemma percentage_world (a b : pyval) (w : world) :
  snd (percentage a b w) = w.
Proof.
  unfold percentage, as_int.
  destruct a, b; try reflexivity; rewrite !bind_ret_l; unfold bind;
    match goal with
    | |- context [int_true_divide ?x ?y w] =>
        pose proof (int_true_divide_world x y w) as Hw;
        destruct (int_true_divide x y w) as [[q|e] w1]; simpl in Hw;
        by subst w1
    end.
Qed.

Lemma percentage_raises (a b : pyval) (w w' : world) (e : exn) :
  py_truthy b = true ->
  percentage a b w = (Raise e, w') ->
  exn_class_of e ∈ [TypeError; OverflowError].
Proof.
  intros Hb. unfold percentage, as_int.
  assert (Hdiv : forall x y, y <> 0%Z ->
            (do q <- int_true_divide x y;
             ret (float_mul q (float_of_int 100))) w = (Raise e, w') ->
            exn_class_of e ∈ [TypeError; OverflowError]).
  { intros x y Hy. unfold bind.
    destruct (int_true_divide x y w) as [[q|e'] w1] eqn:Hq; [discriminate|].
    intros [= <- <-].
    destruct (int_true_divide_raises _ _ _ _ _ Hq) as [[? _] | ->];
      [done|]. rewrite !elem_of_cons. auto. }
  assert (Htype : forall w1,
            (@Raise float
               (mkExn TypeError (py "unsupported operand type(s) for /")),
             w1) = (Raise e, w') ->
            exn_class_of e ∈ [TypeError; OverflowError]).
  { intros w1 [= <- <-]. rewrite !elem_of_cons. auto. }
  destruct a as [|x|x|x|x], b as [|y|y|y|y]; try discriminate Hb;
    rewrite ?bind_ret_l; try apply Htype; try apply Hdiv;
    simpl in Hb; try (by destruct y);
    try (apply negb_true_iff, Z.eqb_neq in Hb; exact Hb).
Qed.

(** What [progress_hook] leaves untouched, and what it can raise. *)
Lemma progress_hook_world (d : gmap str pyval) (w : world) :
  let '(r, w') := progress_hook d w in
  logs w' = logs w /\ events w' = events w /\ dirs w' = dirs w
  /\ (tty w' = tty w
      \/ r = Ret tt /\ exists s e, tty w' = tty w ++ [(s, e)])
  /\ forall e, r = Raise e ->
       w' = w /\ exn_class_of e ∈ [KeyError; TypeError; OverflowError].
Proof.
  assert (Hwrite : forall (file : M pyval) (text : str -> str) (e0 : str),
            ((exists v, file w = (Ret v, w))
             \/ exists e, file w = (Raise e, w)
                          /\ exn_class_of e = KeyError) ->
            let '(r, w') :=
              (do f <- file; do filename <- basename_of f;
               tqdm_write (text filename) e0) w in
            logs w' = logs w /\ events w' = events w /\ dirs w' = dirs w
            /\ (tty w' = tty w
                \/ r = Ret tt /\ exists s e, tty w' = tty w ++ [(s, e)])
            /\ forall e, r = Raise e ->
                 w' = w
                 /\ exn_class_of e ∈ [KeyError; TypeError; OverflowError]).
  { intros file text e0 Hfile. unfold bind at 1.
    destruct Hfile as [[v ->] | (e & -> & He)].
    - destruct v; simpl; (do 3 (split; [reflexivity|])); split; eauto;
        try discriminate;
        intros ? [= <-]; (split; [done|]); rewrite !elem_of_cons; auto.
    - do 4 (split; [auto|]). intros ? [= <-]. split; [done|].
      rewrite He, !elem_of_cons. auto. }
  assert (Hfile : (exists v, subscript d "filename" w = (Ret v, w))
                  \/ exists e, subscript d "filename" w = (Raise e, w)
                               /\ exn_class_of e = KeyError).
  { unfold subscript.
    destruct (d !! py "filename"); [left|right]; eauto. }
  unfold progress_hook, subscript at 1.
  destruct (d !! py "status") as [status|] eqn:Hs.
  2: { simpl. do 4 (split; [auto|]). intros ? [= <-]. split; [done|].
       rewrite !elem_of_cons. auto. }
  rewrite bind_ret_l. case_bool_decide as Hstatus.
  - cbv zeta. destruct (py_truthy _) eqn:Htotal.
    2: { simpl. do 4 (split; [auto|]). discriminate. }
    unfold bind at 1.
    pose proof (percentage_world (dict_get d "downloaded_bytes" (PyInt 0))
                  (dict_get d "total_bytes" PyNone) w) as Hw.
    destruct (percentage _ _ w) as [[progress|e] w1] eqn:Hp;
      simpl in Hw; subst w1.
    + apply (Hwrite (subscript d "filename")
               (fun filename => py "Downloading " ++ filename ++ py ": "
                                  ++ format_f1 progress ++ py "%")).
      exact Hfile.
    + do 4 (split; [auto|]). intros ? [= <-]. split; [done|].
      pose proof (percentage_raises _ _ _ _ _ Htotal Hp) as He. simpl.
      apply elem_of_cons. by right.
  - unfold subscript at 1. rewrite Hs, bind_ret_l. case_bool_decide.
    + apply (Hwrite (subscript d "filename")
               (fun filename => [line_feed] ++ py "Finished downloading "
                                  ++ filename)).
      exact Hfile.
    + simpl. do 4 (split; [auto|]). discriminate.
Qed.

(** X17. Whatever dictionary it is given, [progress_hook] logs nothing,
    calls the library not at all and creates no directory; it makes at
    most one [tqdm.write] call, and none when it raises.  What it can
    raise is a [KeyError], a [TypeError] or an [OverflowError]: it never
    divides by zero. *)
Theorem progress_hook_frame (d : gmap str pyval) (w : world) :
  let '(r, w') := progress_hook d w in
  logs w' = logs w /\ events w' = events w /\ dirs w' = dirs w
  /\ (tty w' = tty w
      \/ r = Ret tt /\ exists s e, tty w' = tty w ++ [(s, e)])
  /\ forall e, r = Raise e ->
       w' = w /\ exn_class_of e ∈ [KeyError; TypeError; OverflowError].
Proof. exact (progress_hook_world d w). Qed.

(** X18. While the size of the download is unknown (no ["total_bytes"],
    or [None], or zero under it) [progress_hook] writes nothing and
    returns, whatever else the dictionary holds or lacks. *)
Theorem progress_hook_unknown_total (d : gmap str pyval) (w : world) :
  d !! py "status" = Some (PyStr (py "downloading")) ->
  py_truthy (dict_get d "total_bytes" PyNone) = false ->
  progress_hook d w = (Ret tt, w).
Proof.
  intros Hstatus Htotal. unfold progress_hook, subscript.
  rewrite Hstatus, bind_ret_l, bool_decide_eq_true_2 by done.
  cbv zeta. by rewrite Htotal.
Qed.

Lemma progress_hook_unknown_total_witness :
  progress_hook
    {[ py "status" := PyStr (py "downloading");
       py "downloaded_bytes" := PyInt 500 ]} empty_world
  = (Ret tt, empty_world).
Proof.
  apply progress_hook_unknown_total; vm_compute; reflexivity.
Defined.

(** A number divided by itself is the float [1.0], whatever its size. *)
Lemma SFdiv_same (s : bool) (m : positive) :
  SFdiv float_prec float_emax (S754_finite s m 0) (S754_finite s m 0)
  = S754_finite false (2 ^ 52) (-52).
Proof.
  unfold SFdiv, SFdiv_core_binary.
  replace (Zdigits2 (Z.pos m) + 0 - (Zdigits2 (Z.pos m) + 0))%Z with 0%Z
    by lia.
  change (Z.min (fexp float_prec float_emax 0) (0 - 0)) with (-53)%Z.
  change (0 - 0 - -53)%Z with 53%Z. cbv iota.
  assert (Hdiv : Z.div_eucl (Z.shiftl (Z.pos m) 53) (Z.pos m)
                 = ((2 ^ 53)%Z, 0%Z)).
  { rewrite Z.shiftl_mul_pow2 by lia.
    pose proof (Z.div_mul (2 ^ 53) (Z.pos m) ltac:(lia)) as Hq.
    pose proof (Z.mod_mul (2 ^ 53) (Z.pos m) ltac:(lia)) as Hr.
    rewrite Z.mul_comm in Hq, Hr.
    unfold Z.div, Z.modulo in Hq, Hr.
    destruct (Z.div_eucl _ _) as [q r]. simpl in Hq, Hr. congruence. }
  rewrite Hdiv.
  assert (Hloc : new_location (Z.pos m) 0 = loc_Exact).
  { unfold new_location. by destruct (Z.even _). }
  rewrite Hloc. destruct s; vm_compute; reflexivity.
Qed.

Lemma int_true_divide_same (a : Z) (w : world) :
  a <> 0%Z ->
  int_true_divide a a w = (Ret (S754_finite false (2 ^ 52) (-52)), w).
Proof.
  intros Ha. unfold int_true_divide.
  apply Z.eqb_neq in Ha as Hnz. rewrite Hnz.
  destruct a as [|p|p]; [done| |]; cbv zeta;
    change (Z.to_pos (Z.abs _)) with p; rewrite SFdiv_same; reflexivity.
Qed.

(** X19. The two ends of the scale.  When ["downloaded_bytes"] equals a
    non-zero ["total_bytes"], of any size, [progress_hook] prints
    [100.0%]; when ["downloaded_bytes"] is zero or absent and the total is
    positive, it prints [0.0%]. *)
Theorem progress_hook_extremes
    (d : gmap str pyval) (w : world) (total : Z) (file : str) :
  d !! py "status" = Some (PyStr (py "downloading")) ->
  d !! py "total_bytes" = Some (PyInt total) ->
  d !! py "filename" = Some (PyStr file) ->
  (total <> 0%Z ->
   d !! py "downloaded_bytes" = Some (PyInt total) ->
   progress_hook d w
   = (Ret tt,
      add_tty (py "Downloading " ++ os_path_basename file ++ py ": 100.0%")
        [13] w))
  /\ ((0 < total)%Z ->
      d !! py "downloaded_bytes" = None
      \/ d !! py "downloaded_bytes" = Some (PyInt 0) ->
      progress_hook d w
      = (Ret tt,
         add_tty (py "Downloading " ++ os_path_basename file ++ py ": 0.0%")
           [13] w)).
Proof.
  intros Hs Ht Hf. split.
  - intros Hnz Hd.
    unfold progress_hook, subscript, dict_get. rewrite Hs, Ht, Hd, Hf.
    rewrite bind_ret_l, bool_decide_eq_true_2 by done.
    cbn [py_truthy]. apply Z.eqb_neq in Hnz as Hz. rewrite Hz. cbn [negb].
    rewrite (bind_eq _ _ _ _ _
               (percentage_ints _ _ _ _ (int_true_divide_same total w Hnz))).
    reflexivity.
  - intros Hpos Hd.
    assert (Hzero : dict_get d "downloaded_bytes" (PyInt 0) = PyInt 0).
    { unfold dict_get. by destruct Hd as [-> | ->]. }
    assert (Hq : int_true_divide 0 total w = (Ret (S754_zero false), w)).
    { unfold int_true_divide.
      assert ((total =? 0)%Z = false) as -> by lia.
      assert ((total <? 0)%Z = false) as -> by lia. reflexivity. }
    unfold progress_hook, subscript. rewrite Hs, Hf, Hzero.
    unfold dict_get. rewrite Ht.
    rewrite bind_ret_l, bool_decide_eq_true_2 by done.
    cbn [py_truthy]. assert ((total =? 0)%Z = false) as -> by lia.
    cbn [negb].
    rewrite (bind_eq _ _ _ _ _ (percentage_ints _ _ _ _ Hq)).
    reflexivity.
Qed.

Lemma progress_hook_extremes_witness :
  progress_hook
    (<[ py "downloaded_bytes" := PyInt 1000 ]> progress_downloading)
    empty_world
  = (Ret tt,
     add_tty (py "Downloading " ++ os_path_basename (py "/x/file.mp4")
                ++ py ": 100.0%") [13] empty_world)
  /\ progress_hook (delete (py "downloaded_bytes") progress_downloading)
       empty_world
     = (Ret tt,
        add_tty (py "Downloading " ++ os_path_basename (py "/x/file.mp4")
                   ++ py ": 0.0%") [13] empty_world).
Proof.
  split.
  - destruct (progress_hook_extremes
                (<[ py "downloaded_bytes" := PyInt 1000 ]>
                   progress_downloading)
                empty_world 1000%Z (py "/x/file.mp4")) as [Hfull _];
      [vm_compute; reflexivity ..|].
    apply Hfull; [discriminate | vm_compute; reflexivity].
  - destruct (progress_hook_extremes
                (delete (py "downloaded_bytes") progress_downloading)
                empty_world 1000%Z (py "/x/file.mp4")) as [_ Hnone];
      [vm_compute; reflexivity ..|].
    apply Hnone; [reflexivity | left; vm_compute; reflexivity].
Defined.

(** A negative total with nothing downloaded prints a negative zero. *)
Example progress_hook_negative_total :
  tty (snd (progress_hook
              (<[ py "downloaded_bytes" := PyInt 0 ]>
                 (<[ py "total_bytes" := PyInt (-1000) ]>
                    progress_downloading)) empty_world))
  = [(py "Downloading file.mp4: -0.0%", [13])].
Proof. vm_compute. reflexivity. Qed.

(* ===================================================================== *)
(** * An entry without identifier aborts the batch *)
(* ===================================================================== *)

Section MissingIdentifier.

Variable cfg : DownloadConfig.
Variable lib : YoutubeDL.
Hypothesis has_attempts : max_retries cfg <> 0%nat.
Hypothesis soft : download_fails_softly lib.

(** A step of a call raises the missing key only, and raises it when the
    call has no identifier and attempts left. *)
Lemma task_step_missing_id a w r w' :
  task_step cfg lib a w = (r, w') ->
  (forall e, r = Raise e -> e = missing_id)
  /\ (unidentified (active_task a) -> active_attempts a <> [] ->
      exists e, r = Raise e).
Proof.
  unfold task_step, unidentified.
  destruct (active_attempts a) as [|attempt rest].
  - unfold attempts_exhausted, bind, logger, ret. intros [= <- <-].
    split; [discriminate|done].
  - pose proof (attempt_body_cases cfg lib (task_video (active_task a))
                  (task_path (active_task a)) attempt w) as Hcases.
    intros Hbody.
    destruct (task_video (active_task a) !! py "id") as [id|].
    + cbv zeta in Hcases. destruct (download lib _ _ _) as [[]|e'] eqn:Hd.
      * rewrite Hcases in Hbody. injection Hbody as <- <-.
        split; [discriminate|done].
      * rewrite (soft _ _ _ _ Hd) in Hcases.
        rewrite Hcases in Hbody. injection Hbody as <- <-.
        split; [discriminate|done].
    + rewrite Hcases in Hbody. injection Hbody as <- <-.
      split; [by intros e [= <-] | eauto].
Qed.

Lemma dispatch_free_raising futures p :
  pool_raising futures p -> pool_raising futures (dispatch_free cfg p).
Proof.
  intros (Hws & Hq & Hfin). unfold dispatch_free, pool_raising.
  rewrite dispatch_take. simpl. repeat split; [|by apply Forall_drop|done].
  apply Forall_app. split; [done|].
  apply Forall_fmap, Forall_take.
  eapply Forall_impl; [exact Hq|]. intros [i t] Hit. simpl in *.
  split; [done|]. intros _. unfold range.
  destruct (max_retries cfg); [done|discriminate].
Qed.

Lemma worker_step_raising futures i p a :
  pool_raising futures p ->
  workers p !! i = Some a ->
  pool_raising futures (worker_step cfg lib i p).
Proof.
  intros (Hws & Hq & Hfin) Hi. unfold worker_step. rewrite Hi.
  destruct (Forall_lookup_1 _ _ _ _ Hws Hi) as [Hfuture Hleft].
  destruct (task_step cfg lib a (pool_world p)) as [r w'] eqn:Hstep.
  destruct (task_step_missing_id _ _ _ _ Hstep) as [Hkey Hraise].
  assert (Hdone : forall r0 : result bool,
            (forall e, r0 = Raise e -> e = missing_id) ->
            (unidentified (active_task a) -> exists e, r0 = Raise e) ->
            pool_raising futures
              (dispatch_free cfg
                 (mkPool (queue p) (delete i (workers p)) (started p)
                    (finished p ++ [(active_future a, r0)]) w'))).
  { intros r0 Hkey0 Hraise0. apply dispatch_free_raising.
    repeat split; simpl; [by apply Forall_delete|done|].
    apply Forall_app. split; [done|]. repeat constructor; simpl; [done|].
    intros t Ht. rewrite Hfuture in Ht. injection Ht as <-. exact Hraise0. }
  destruct r as [[b|]|e].
  - apply Hdone; [discriminate|].
    intros Hbad. destruct (Hraise Hbad (Hleft Hbad)) as [e [=]].
  - repeat split; simpl; [|done|done].
    apply Forall_insert; [done|]. simpl. split; [done|].
    intros Hbad. destruct (Hraise Hbad (Hleft Hbad)) as [e [=]].
  - apply Hdone; [|by eauto].
    intros e' [= <-]. by apply Hkey.
Qed.

Lemma submitted_pool_raising futures w :
  pool_raising futures (submitted_pool cfg futures w).
Proof.
  apply dispatch_free_raising.
  repeat split; simpl; [constructor| |constructor].
  apply Forall_forall. intros [i t] Hit. simpl.
  apply list_elem_of_lookup in Hit as (j & Hj).
  rewrite list_lookup_imap in Hj.
  destruct (futures !! j) as [t'|] eqn:Ht; [|discriminate].
  by injection Hj as <- <-.
Qed.

End MissingIdentifier.

Lemma collect_results_all_returned completed :
  collect_results completed = Ret tt -> all_returned completed.
Proof.
  induction completed as [|[i [b|e]] rest IH]; simpl; intros Hret.
  - constructor.
  - constructor; [by exists b | by apply IH].
  - discriminate.
Qed.

(** An entry without identifier makes the batch raise the missing key. *)
Lemma download_videos_raises_missing_id
    (cfg : DownloadConfig) (lib : YoutubeDL) (sched : nat -> nat)
    (videos : list (option (gmap str str))) (output_path : str) (w : world)
    (d : gmap str str) :
  max_workers cfg <> 0%nat ->
  max_retries cfg <> 0%nat ->
  download_fails_softly lib ->
  Some d ∈ videos -> d <> ∅ -> d !! py "id" = None ->
  fst (download_videos cfg lib sched videos output_path w) = Raise missing_id.
Proof.
  intros Hworkers Hattempts Hsoft Hd Hne Hid. unfold download_videos.
  rewrite bool_decide_eq_false_2 by done. cbv zeta. cbn [fst].
  set (futures := submissions videos output_path).
  pose proof (run_pool_preserves cfg lib (pool_raising futures) sched
                (fun i p a => worker_step_raising cfg lib Hattempts Hsoft
                                futures i p a)
                (enough_steps cfg futures) 0 (submitted_pool cfg futures w)
                (submitted_pool_raising cfg Hattempts futures w))
    as (_ & _ & Hfin).
  destruct (final_pool_complete cfg lib Hworkers sched futures w)
    as (_ & _ & _ & Hall & _).
  fold (final_pool cfg lib sched futures w) in Hfin.
  set (p := final_pool cfg lib sched futures w) in *.
  assert (Hin : mkTask d output_path ∈ futures).
  { apply list_elem_of_omap. exists (Some d). split; [done|].
    unfold submit, truthy. by rewrite bool_decide_eq_false_2. }
  apply list_elem_of_lookup in Hin as [j Hj].
  assert (Hjin : j ∈ map fst (finished p)).
  { rewrite Hall. apply list_elem_of_In, in_seq.
    apply lookup_lt_Some in Hj. lia. }
  apply list_elem_of_fmap in Hjin as ([j' r] & -> & Hjr). simpl in Hj.
  destruct (collect_results (finished p)) as [[]|e] eqn:Hcollect.
  - apply collect_results_all_returned in Hcollect.
    pose proof (proj1 (Forall_forall _ _) Hcollect _ Hjr) as [b Hb].
    pose proof (proj1 (Forall_forall _ _) Hfin _ Hjr) as [_ Hraise].
    destruct (Hraise _ Hj Hid) as [e He]. simpl in Hb, He. congruence.
  - apply collect_results_raise in Hcollect as [i Hi].
    pose proof (proj1 (Forall_forall _ _) Hfin _ Hi) as [Hkey _].
    f_equal. by apply Hkey.
Qed.

(** X20. One entry without identifier makes the whole batch end with a
    [KeyError]: when some truthy entry has no ["id"], at least one attempt
    is allowed and the library's [download] fails with the download error
    only, [download_videos] raises [KeyError('id')], wherever the entry
    stands in the list and however the threads are scheduled. *)
Theorem download_videos_missing_id
    (cfg : DownloadConfig) (lib : YoutubeDL) (sched : nat -> nat)
    (videos : list (option (gmap str str))) (output_path : str) (w : world)
    (d : gmap str str) :
  max_workers cfg <> 0%nat ->
  max_retries cfg <> 0%nat ->
  download_fails_softly lib ->
  Some d ∈ videos -> d <> ∅ -> d !! py "id" = None ->
  fst (download_videos cfg lib sched videos output_path w) = Raise missing_id.
Proof. apply download_videos_raises_missing_id. Qed.

Lemma download_videos_missing_id_witness :
  fst (download_videos config failing_library round_robin
         [Some video_abc123; Some video_without_id; Some video_xyz789]
         (py "/tmp") empty_world)
  = Raise missing_id.
Proof.
  apply (download_videos_missing_id config failing_library round_robin
           [Some video_abc123; Some video_without_id; Some video_xyz789]
           (py "/tmp") empty_world video_without_id).
  - simpl. lia.
  - simpl. lia.
  - intros n opts urls e [= <-]. reflexivity.
  - apply list_elem_of_further, list_elem_of_here.
  - vm_compute. discriminate.
  - vm_compute. reflexivity.
Defined.

(* ===================================================================== *)
(** * Properties of the entry point of the playlist script *)
(* ===================================================================== *)

Section PlaylistMainProperties.

Variable unicode_isalnum : N -> bool.
Variable cfg : DownloadConfig.
Variable lib : YoutubeDL.
Variable makedirs : str -> result unit.
Variable sched : nat -> nat.
Variable isdir : str -> bool.

Local Abbreviation playlist_main :=
  (youtube_playlist_downloader.main unicode_isalnum cfg lib makedirs sched
     isdir).

(** [main] once both answers are read and the location exists: the flow
    under the five handlers. *)
Lemma playlist_main_flow (url location : str) (w : world) :
  isdir (strip location) = true ->
  playlist_main (Ret url) (Ret location) w
  = match download_playlist unicode_isalnum cfg lib makedirs sched
            (strip url) (strip location) (playlist_prompted w) with
    | (Ret _, w') => (Ret tt, w')
    | (Raise e, w') =>
        if isinstance e KeyboardInterrupt
        then (Ret tt, emit (mkLog INFO "Download interrupted by user." []) w')
        else if isinstance e DownloadError
        then (Ret tt,
              emit (mkLog ERROR "A download error occurred: %s"
                      [LStr (exn_str e)]) w')
        else if isinstance e ExtractorError
        then (Ret tt,
              emit (mkLog ERROR "An extractor error occurred: %s"
                      [LStr (exn_str e)]) w')
        else if isinstance e YoutubeDLError
        then (Ret tt,
              emit (mkLog ERROR "A YouTube-DL error occurred: %s"
                      [LStr (exn_str e)]) w')
        else if isinstance e OSError
        then (Ret tt,
              emit (mkLog ERROR "An OS error occurred: %s"
                      [LStr (exn_str e)]) w')
        else (Raise e, w')
    end.
Proof.
  intros Hdir. unfold youtube_playlist_downloader.main.
  unfold print, input, bind at 1 2 3 4. cbv zeta. rewrite Hdir. cbn [negb].
  fold (playlist_prompted w). unfold try_except.
  destruct (download_playlist _ _ _ _ _ _ _ _) as [[[]|e] w']; [done|].
  unfold find_handler, isinstance_any. cbn [existsb].
  rewrite !orb_false_r.
  repeat (match goal with
          | |- context [if isinstance e ?c then _ else _] =>
              destruct (isinstance e c)
          end; try reflexivity).
Qed.

End PlaylistMainProperties.

(** X21. Both entry points stop before any library call when the storage
    location typed is not an existing directory: one error record is
    logged after the banner and the prompts, nothing is created, and
    [main] returns.  The playlist script tests the answer stripped of
    surrounding white space, the video script the answer as typed. *)
Theorem mains_reject_missing_directory
    (unicode_isalnum : N -> bool) (cfg : DownloadConfig) (lib : YoutubeDL)
    (makedirs : str -> result unit) (sched : nat -> nat)
    (progress_reports : nat -> ydl_opts -> list str -> list (gmap str pyval))
    (repr_entries : list (option (gmap str str)) -> str)
    (isdir : str -> bool) (url location quality : str) (w : world) :
  (isdir (strip location) = false ->
   youtube_playlist_downloader.main unicode_isalnum cfg lib makedirs sched
     isdir (Ret url) (Ret location) w
   = (Ret tt,
      emit (mkLog ERROR
              "Invalid download location. Please provide an existing directory."
              [])
        (playlist_prompted w)))
  /\ (isdir location = false ->
      youtube_video_downloader.main lib progress_reports repr_entries isdir
        (Ret url) (Ret location) (Ret quality) w
      = (Ret tt,
         emit (mkLog ERROR "Invalid storage location: %s" [LStr location])
           (video_prompted w))).
Proof.
  split; intros Hdir.
  - unfold youtube_playlist_downloader.main.
    unfold print, input, bind. cbv zeta. by rewrite Hdir.
  - unfold youtube_video_downloader.main.
    unfold print, input, bind. by rewrite Hdir.
Qed.

Lemma mains_reject_missing_directory_witness :
  youtube_playlist_downloader.main (fun _ => false) config working_library
    makedirs_ok round_robin isdir_never
    (Ret playlist_url_abc123) (Ret (py "/nowhere")) empty_world
  = (Ret tt,
     emit (mkLog ERROR
             "Invalid download location. Please provide an existing directory."
             [])
       (playlist_prompted empty_world))
  /\ youtube_video_downloader.main working_library no_reports repr_elided
       isdir_never
       (Ret video_url_example) (Ret (py "/nowhere")) (Ret default_quality)
       empty_world
     = (Ret tt,
        emit (mkLog ERROR "Invalid storage location: %s"
                [LStr (py "/nowhere")])
          (video_prompted empty_world)).
Proof.
  destruct (mains_reject_missing_directory (fun _ => false) config
              working_library makedirs_ok round_robin no_reports repr_elided
              isdir_never playlist_url_abc123 (py "/nowhere") default_quality
              empty_world) as [Hplaylist Hvideo].
  split; [apply Hplaylist | apply Hvideo]; reflexivity.
Defined.

(** X22. Once both answers are read, [main] of the playlist script ends
    with no interrupt, no error of the library and no error of the
    operating system: an exception of [download_playlist] that is an
    instance of [KeyboardInterrupt], [YoutubeDLError] (the download and
    extractor errors among them) or [OSError] is logged and [main]
    returns; what [main] raises is an exception of another kind. *)
Theorem playlist_main_contains_library_errors
    (unicode_isalnum : N -> bool) (cfg : DownloadConfig) (lib : YoutubeDL)
    (makedirs : str -> result unit) (sched : nat -> nat)
    (isdir : str -> bool) (url location : str) (w w' : world) (e : exn) :
  youtube_playlist_downloader.main unicode_isalnum cfg lib makedirs sched
    isdir (Ret url) (Ret location) w = (Raise e, w') ->
  isinstance e KeyboardInterrupt = false
  /\ isinstance e YoutubeDLError = false
  /\ isinstance e OSError = false.
Proof.
  destruct (isdir (strip location)) eqn:Hdir.
  - rewrite playlist_main_flow by done.
    destruct (download_playlist _ _ _ _ _ _ _ _) as [[[]|e0] w0];
      [discriminate|].
    destruct (isinstance e0 KeyboardInterrupt) eqn:Hkbd; [discriminate|].
    destruct (isinstance e0 DownloadError); [discriminate|].
    destruct (isinstance e0 ExtractorError); [discriminate|].
    destruct (isinstance e0 YoutubeDLError) eqn:Hlib; [discriminate|].
    destruct (isinstance e0 OSError) eqn:Hos; [discriminate|].
    by intros [= <- <-].
  - unfold youtube_playlist_downloader.main.
    unfold print, input, bind. cbv zeta. rewrite Hdir. discriminate.
Qed.

(** X23. A playlist with one entry without identifier ends the playlist
    script with an uncaught [KeyError]: when the location exists, the
    metadata holds a title and a list of entries one of which is truthy
    and has no ["id"], the directory can be created, at least one thread
    and one attempt are configured and downloads fail with the download
    error only, [main] raises [KeyError('id')], which none of its
    handlers catches, and the directory of the playlist is left
    behind. *)
Theorem playlist_main_missing_id_crashes
    (unicode_isalnum : N -> bool) (cfg : DownloadConfig) (lib : YoutubeDL)
    (makedirs : str -> result unit) (sched : nat -> nat)
    (isdir : str -> bool) (url location : str) (w w1 : world)
    (info : gmap str pyval) (videos : list (option (gmap str str)))
    (title : str) (d : gmap str str) :
  isdir (strip location) = true ->
  max_workers cfg <> 0%nat ->
  max_retries cfg <> 0%nat ->
  download_fails_softly lib ->
  get_playlist_info lib (strip url) (playlist_prompted w)
  = (Ret (Some info), w1) ->
  info !! py "entries" = Some (PyEntries videos) ->
  dict_get info "title" (PyStr (py "Untitled Playlist")) = PyStr title ->
  makedirs (os_path_join (strip location)
              (create_safe_filename unicode_isalnum title)) = Ret tt ->
  Some d ∈ videos -> d <> ∅ -> d !! py "id" = None ->
  let '(r, w') :=
    youtube_playlist_downloader.main unicode_isalnum cfg lib makedirs sched
      isdir (Ret url) (Ret location) w in
  r = Raise missing_id
  /\ os_path_join (strip location)
       (create_safe_filename unicode_isalnum title) ∈ dirs w'.
Proof.
  intros Hdir Hworkers Hattempts Hsoft Hfetch Hentries Htitle Hmk Hd Hne Hid.
  rewrite playlist_main_flow by done.
  rewrite (download_playlist_with_entries unicode_isalnum cfg lib makedirs
             sched _ _ _ _ _ _ _ Hfetch Hentries Htitle).
  rewrite Hmk.
  set (playlist_path := os_path_join (strip location) _).
  unfold bind at 1, logger at 1. unfold bind at 1. cbn [download_entries].
  set (w2 := emit _ (add_dir playlist_path w1)).
  pose proof (download_videos_raises_missing_id cfg lib sched videos
                playlist_path w2 d Hworkers Hattempts Hsoft Hd Hne Hid)
    as Hraise.
  pose proof (download_videos_extends cfg lib sched videos playlist_path w2)
    as (_ & _ & _ & _ & _ & _ & Hdirs & _).
  destruct (download_videos cfg lib sched videos playlist_path w2)
    as [r w3]. simpl in Hraise, Hdirs. subst r.
  change (isinstance missing_id KeyboardInterrupt) with false.
  change (isinstance missing_id DownloadError) with false.
  change (isinstance missing_id ExtractorError) with false.
  change (isinstance missing_id YoutubeDLError) with false.
  change (isinstance missing_id OSError) with false.
  cbv iota. split; [done|].
  rewrite Hdirs. subst w2. simpl.
  by apply elem_of_union_l, elem_of_singleton.
Qed.

Lemma playlist_main_missing_id_crashes_witness :
  let '(r, w') :=
    youtube_playlist_downloader.main (fun _ => false) config
      library_with_unidentified_entry makedirs_ok round_robin isdir_always
      (Ret (py " https://www.youtube.com/playlist?list=abc123 "))
      (Ret (py "/downloads ")) empty_world in
  r = Raise missing_id
  /\ os_path_join (strip (py "/downloads "))
       (create_safe_filename (fun _ => false) (py "Test Playlist"))
     ∈ dirs w'.
Proof.
  eapply (playlist_main_missing_id_crashes (fun _ => false) config
            library_with_unidentified_entry makedirs_ok round_robin
            isdir_always
            (py " https://www.youtube.com/playlist?list=abc123 ")
            (py "/downloads ") empty_world _ _ _ (py "Test Playlist")
            video_without_id).
  - reflexivity.
  - simpl. lia.
  - simpl. lia.
  - intros n opts urls e [=].
  - reflexivity.
  - vm_compute. reflexivity.
  - vm_compute. reflexivity.
  - reflexivity.
  - apply list_elem_of_further, list_elem_of_here.
  - vm_compute. discriminate.
  - vm_compute. reflexivity.
Defined.

Lemma playlist_main_contains_library_errors_witness :
  isinstance missing_id KeyboardInterrupt = false
  /\ isinstance missing_id YoutubeDLError = false
  /\ isinstance missing_id OSError = false.
Proof.
  eapply (playlist_main_contains_library_errors (fun _ => false) config
            library_with_unidentified_entry makedirs_ok round_robin
            isdir_always playlist_url_abc123 (py "/downloads") empty_world).
  vm_compute. reflexivity.
Defined.

(** A library error that [get_playlist_info] lets through, here an
    interrupt during the metadata fetch, is caught by [main]. *)
Example playlist_main_interrupted :
  let interrupted :=
    {| extract_info := fun _ _ _ =>
         Raise (mkExn KeyboardInterrupt []);
       download := fun _ _ _ => Ret tt |} in
  let '(r, w') :=
    youtube_playlist_downloader.main (fun _ => false) config interrupted
      makedirs_ok round_robin isdir_always
      (Ret playlist_url_abc123) (Ret (py "/downloads")) empty_world in
  r = Ret tt
  /\ logs w' = [mkLog INFO "Download interrupted by user." []]
  /\ dirs w' = ∅.
Proof. vm_compute. repeat split. Qed.

(* ===================================================================== *)
(** * Properties of the Single-Content Downloader *)
(* ===================================================================== *)

(** [get_video_info] makes one [extract_info] call, creates no directory
    and writes nothing to the terminal. *)
Lemma get_video_info_world (lib : YoutubeDL) (url : str) (w w1 : world)
    (r : result (option (gmap str pyval))) :
  get_video_info lib url w = (r, w1) ->
  events w1 = events w ++ [content_fetch url]
  /\ dirs w1 = dirs w /\ tty w1 = tty w.
Proof.
  unfold get_video_info, try_except, ydl_extract_info.
  destruct (extract_info lib _ _ _) as [info|e].
  - intros [= <- <-]. auto.
  - unfold find_handler, isinstance_any. cbn [existsb].
    rewrite !orb_false_r.
    destruct (isinstance e DownloadError || isinstance e ExtractorError);
      intros [= <- <-]; auto.
Qed.

Section ContentDownloaderProperties.

Variable lib : YoutubeDL.
Variable progress_reports :
  nat -> ydl_opts -> list str -> list (gmap str pyval).
Variable repr_entries : list (option (gmap str str)) -> str.

Local Abbreviation content :=
  (download_youtube_content lib progress_reports repr_entries).
Local Abbreviation library_call :=
  (ydl_download_reporting lib progress_reports).

(** Reporting to [progress_hook] touches the terminal only. *)
Lemma call_hooks_world (status : gmap str pyval) (w : world) :
  let '(r, w') := call_hooks [progress_hook] status w in
  logs w' = logs w /\ events w' = events w /\ dirs w' = dirs w.
Proof.
  unfold call_hooks. cbn [for_each]. unfold bind at 1. unfold bind at 1.
  pose proof (progress_hook_world status w) as Hhook.
  destruct (progress_hook status w) as [[[]|e] w'];
    destruct Hhook as (? & ? & ? & _); simpl; auto.
Qed.

Lemma reports_world (reports : list (gmap str pyval)) : forall w,
  let '(r, w') :=
    for_each reports
      (fun status => run call_hooks [progress_hook] status; ret (@None unit))
      (ret tt) w in
  logs w' = logs w /\ events w' = events w /\ dirs w' = dirs w.
Proof.
  induction reports as [|status rest IH]; intros w; [done|].
  cbn [for_each]. unfold bind at 1. unfold bind at 1.
  pose proof (call_hooks_world status w) as Hhooks.
  destruct (call_hooks [progress_hook] status w) as [[[]|e] w1];
    [|exact Hhooks].
  unfold bind at 1, ret at 1. cbv beta iota. specialize (IH w1).
  destruct (for_each rest _ _ w1) as [r w2].
  destruct IH as (-> & -> & ->). exact Hhooks.
Qed.

(** The library call of [download_youtube_content] records one download
    call and touches nothing else but the terminal. *)
Lemma library_call_world (output_location quality url : str) (w : world) :
  let '(r, w') :=
    library_call (content_opts output_location quality) [url] w in
  logs w' = logs w
  /\ events w' = events w ++ [content_download url output_location quality]
  /\ dirs w' = dirs w.
Proof.
  unfold ydl_download_reporting. cbv zeta. unfold bind at 1.
  change (progress_hooks (content_opts output_location quality))
    with [progress_hook].
  set (w0 := record_event _ w).
  pose proof (reports_world
                (progress_reports (length (events w))
                   (plain_entries (content_opts output_location quality))
                   [url]) w0) as Hreports.
  destruct (for_each _ _ _ w0) as [[[]|e] w1]; exact Hreports.
Qed.

(** The function once the URL is accepted and titled metadata is at hand:
    the library call under the three handlers. *)
Lemma download_youtube_content_flow
    (url output_location quality : str) (w w1 : world)
    (info : gmap str pyval) (title : pyval) :
  validate_url url = true ->
  get_video_info lib url w = (Ret (Some info), w1) ->
  info !! py "title" = Some title ->
  content url output_location quality w
  = match library_call (content_opts output_location quality) [url]
            (emit (mkLog INFO "Preparing to download %s: %s"
                     [LStr (content_kind info); shown repr_entries title])
               w1) with
    | (Ret _, w') =>
        (Ret tt,
         emit (mkLog INFO "%s download complete!"
                 [LStr (capitalize (content_kind info))]) w')
    | (Raise e, w') =>
        if isinstance e DownloadError
        then (Ret tt,
              emit (mkLog ERROR "A download error occurred: %s"
                      [LStr (exn_str e)]) w')
        else if isinstance e ExtractorError
        then (Ret tt,
              emit (mkLog ERROR "An extractor error occurred: %s"
                      [LStr (exn_str e)]) w')
        else if isinstance e OSError
        then (Ret tt,
              emit (mkLog ERROR "An OS error occurred: %s"
                      [LStr (exn_str e)]) w')
        else (Raise e, w')
    end.
Proof.
  intros Hvalid Hfetch Htitle. unfold download_youtube_content.
  rewrite Hvalid. cbn [negb]. rewrite (bind_eq _ _ _ _ _ Hfetch).
  assert (Htruthy : info_truthy (Some info) = true).
  { simpl. apply negb_true_iff, bool_decide_eq_false_2.
    intros ->. by rewrite lookup_empty in Htitle. }
  rewrite Htruthy. cbv zeta. unfold subscript. rewrite Htitle.
  rewrite bind_ret_l. unfold bind at 1, logger at 1.
  fold (content_kind info). unfold try_except, bind at 1.
  destruct (ydl_download_reporting _ _ _ _ _) as [[[]|e] w']; [done|].
  unfold find_handler, isinstance_any. cbn [existsb].
  rewrite !orb_false_r.
  repeat (match goal with
          | |- context [if isinstance e ?c then _ else _] =>
              destruct (isinstance e c)
          end; try reflexivity).
Qed.

End ContentDownloaderProperties.

(** [get_video_info] logs at most one record, and none when it returns
    metadata. *)
Lemma get_video_info_logs (lib : YoutubeDL) (url : str) (w w1 : world)
    (r : result (option (gmap str pyval))) :
  get_video_info lib url w = (r, w1) ->
  logs w1 = logs w
  \/ r = Ret None /\ exists record, logs w1 = logs w ++ [record].
Proof.
  unfold get_video_info, try_except, ydl_extract_info.
  destruct (extract_info lib _ _ _) as [info|e].
  - intros [= <- <-]. by left.
  - unfold find_handler, isinstance_any. cbn [existsb].
    rewrite !orb_false_r.
    destruct (isinstance e DownloadError || isinstance e ExtractorError);
      intros [= <- <-]; [right|left]; eauto.
Qed.

Lemma content_rejected
    (lib : YoutubeDL)
    (progress_reports : nat -> ydl_opts -> list str -> list (gmap str pyval))
    (repr_entries : list (option (gmap str str)) -> str)
    (url output_location quality : str) (w : world) :
  validate_url url = false ->
  download_youtube_content lib progress_reports repr_entries
    url output_location quality w
  = (Ret tt,
     emit (mkLog ERROR "Invalid YouTube URL provided: %s" [LStr url]) w).
Proof.
  intros Hinvalid. unfold download_youtube_content. by rewrite Hinvalid.
Qed.

(** X24. For a URL that [validate_url] rejects, [download_youtube_content]
    logs one error record naming the URL and returns: the library is not
    called, for metadata or for a download. *)
Theorem download_youtube_content_invalid_url
    (lib : YoutubeDL)
    (progress_reports : nat -> ydl_opts -> list str -> list (gmap str pyval))
    (repr_entries : list (option (gmap str str)) -> str)
    (url output_location quality : str) (w : world) :
  validate_url url = false ->
  download_youtube_content lib progress_reports repr_entries
    url output_location quality w
  = (Ret tt,
     emit (mkLog ERROR "Invalid YouTube URL provided: %s" [LStr url]) w).
Proof. apply content_rejected. Qed.

Lemma download_youtube_content_invalid_url_witness :
  download_youtube_content video_library two_reports repr_elided
    (py "https://www.youtube.com") (py "/downloads") default_quality
    empty_world
  = (Ret tt,
     emit (mkLog ERROR "Invalid YouTube URL provided: %s"
             [LStr (py "https://www.youtube.com")]) empty_world).
Proof.
  apply download_youtube_content_invalid_url. vm_compute. reflexivity.
Defined.

Lemma content_without_metadata
    (lib : YoutubeDL)
    (progress_reports : nat -> ydl_opts -> list str -> list (gmap str pyval))
    (repr_entries : list (option (gmap str str)) -> str)
    (url output_location quality : str) (w w1 : world)
    (r : result (option (gmap str pyval))) :
  validate_url url = true ->
  get_video_info lib url w = (r, w1) ->
  match r with
  | Ret info => info_truthy info = false
  | Raise _ => True
  end ->
  download_youtube_content lib progress_reports repr_entries
    url output_location quality w
  = (match r with Ret _ => Ret tt | Raise e => Raise e end, w1).
Proof.
  intros Hvalid Hfetch Hnone. unfold download_youtube_content.
  rewrite Hvalid. cbn [negb]. unfold bind at 1. rewrite Hfetch.
  destruct r as [[info|]|e]; [|done|done]. by rewrite Hnone.
Qed.

(** X25. Without metadata nothing is downloaded: when [get_video_info]
    returns [None] or an empty dictionary, [download_youtube_content]
    returns at once, and when it raises, the exception leaves
    [download_youtube_content]; in both cases the world is as the
    metadata fetch left it. *)
Theorem download_youtube_content_without_metadata
    (lib : YoutubeDL)
    (progress_reports : nat -> ydl_opts -> list str -> list (gmap str pyval))
    (repr_entries : list (option (gmap str str)) -> str)
    (url output_location quality : str) (w w1 : world)
    (r : result (option (gmap str pyval))) :
  validate_url url = true ->
  get_video_info lib url w = (r, w1) ->
  match r with
  | Ret info => info_truthy info = false
  | Raise _ => True
  end ->
  download_youtube_content lib progress_reports repr_entries
    url output_location quality w
  = (match r with Ret _ => Ret tt | Raise e => Raise e end, w1).
Proof. apply content_without_metadata. Qed.

Lemma download_youtube_content_without_metadata_witness :
  download_youtube_content empty_library two_reports repr_elided
    video_url_example (py "/downloads") default_quality empty_world
  = (Ret tt, record_event (content_fetch video_url_example) empty_world).
Proof.
  apply (download_youtube_content_without_metadata empty_library two_reports
           repr_elided video_url_example (py "/downloads") default_quality
           empty_world _ (Ret None));
    [vm_compute; reflexivity | reflexivity | reflexivity].
Defined.

Lemma content_missing_title
    (lib : YoutubeDL)
    (progress_reports : nat -> ydl_opts -> list str -> list (gmap str pyval))
    (repr_entries : list (option (gmap str str)) -> str)
    (url output_location quality : str) (w w1 : world)
    (info : gmap str pyval) :
  validate_url url = true ->
  get_video_info lib url w = (Ret (Some info), w1) ->
  info <> ∅ ->
  info !! py "title" = None ->
  download_youtube_content lib progress_reports repr_entries
    url output_location quality w
  = (Raise missing_title, w1)
  /\ events w1 = events w ++ [content_fetch url]
  /\ logs w1 = logs w.
Proof.
  intros Hvalid Hfetch Hne Htitle. split; [|split].
  - unfold download_youtube_content.
    rewrite Hvalid. cbn [negb]. rewrite (bind_eq _ _ _ _ _ Hfetch).
    cbn [info_truthy]. rewrite bool_decide_eq_false_2 by done. cbn [negb].
    cbv zeta. unfold subscript. rewrite Htitle. reflexivity.
  - by destruct (get_video_info_world _ _ _ _ _ Hfetch) as (? & _).
  - by destruct (get_video_info_logs _ _ _ _ _ Hfetch)
      as [? | [[=] _]].
Qed.

(** X26. Metadata without a ["title"] makes [download_youtube_content]
    raise [KeyError('title')] before it logs anything or starts the
    download: the only library call made is the metadata fetch. *)
Theorem download_youtube_content_missing_title
    (lib : YoutubeDL)
    (progress_reports : nat -> ydl_opts -> list str -> list (gmap str pyval))
    (repr_entries : list (option (gmap str str)) -> str)
    (url output_location quality : str) (w w1 : world)
    (info : gmap str pyval) :
  validate_url url = true ->
  get_video_info lib url w = (Ret (Some info), w1) ->
  info <> ∅ ->
  info !! py "title" = None ->
  download_youtube_content lib progress_reports repr_entries
    url output_location quality w
  = (Raise missing_title, w1)
  /\ events w1 = events w ++ [content_fetch url]
  /\ logs w1 = logs w.
Proof. apply content_missing_title. Qed.

Lemma download_youtube_content_missing_title_witness :
  download_youtube_content untitled_library two_reports repr_elided
    video_url_example (py "/downloads") default_quality empty_world
  = (Raise missing_title,
     record_event (content_fetch video_url_example) empty_world)
  /\ events (record_event (content_fetch video_url_example) empty_world)
     = events empty_world ++ [content_fetch video_url_example]
  /\ logs (record_event (content_fetch video_url_example) empty_world)
     = logs empty_world.
Proof.
  apply (download_youtube_content_missing_title untitled_library two_reports
           repr_elided video_url_example (py "/downloads") default_quality
           empty_world _ {[ py "id" := PyStr (py "abc123") ]});
    [vm_compute; reflexivity | reflexivity | vm_compute; discriminate
    | vm_compute; reflexivity].
Defined.

(** X27. Whatever the inputs and the answers of the library,
    [download_youtube_content] creates no directory and makes at most two
    library calls: the metadata fetch, made for a URL that [validate_url]
    accepts only, and after it at most one download call, for that URL
    alone and with the options the quality selects.  No call is
    repeated, and at most two records are logged. *)
Theorem download_youtube_content_calls
    (lib : YoutubeDL)
    (progress_reports : nat -> ydl_opts -> list str -> list (gmap str pyval))
    (repr_entries : list (option (gmap str str)) -> str)
    (url output_location quality : str) (w : world) :
  let '(r, w') :=
    download_youtube_content lib progress_reports repr_entries
      url output_location quality w in
  dirs w' = dirs w
  /\ (length (logs w') <= length (logs w) + 2)%nat
  /\ exists calls,
       events w' = events w ++ calls
       /\ (calls = []
           \/ validate_url url = true
              /\ (calls = [content_fetch url]
                  \/ calls = [content_fetch url;
                              content_download url output_location quality])).
Proof.
  pattern (download_youtube_content lib progress_reports repr_entries
             url output_location quality w).
  set (bounded := fun rw : result unit * world => _).
  destruct (validate_url url) eqn:Hvalid.
  2: { rewrite content_rejected by done. subst bounded.
       simpl. split; [done|]. split; [rewrite length_app; simpl; lia|].
       exists []. split; [by rewrite app_nil_r | by left]. }
  destruct (get_video_info lib url w) as [r w1] eqn:Hfetch.
  destruct (get_video_info_world _ _ _ _ _ Hfetch) as (Hevents & Hdirs & _).
  assert (Hstop : forall r0 : result unit, bounded (r0, w1)).
  { intros r0. subst bounded. simpl. split; [done|]. split.
    - destruct (get_video_info_logs _ _ _ _ _ Hfetch)
        as [-> | [_ [record ->]]]; [lia|].
      rewrite length_app. simpl. lia.
    - exists [content_fetch url]. split; [done|]. right. auto. }
  assert (Hnone : match r with
                  | Ret info => info_truthy info = false
                  | Raise _ => True
                  end -> bounded (download_youtube_content lib
                                    progress_reports repr_entries url
                                    output_location quality w)).
  { intros Hn.
    rewrite (content_without_metadata lib progress_reports repr_entries
               url output_location quality w w1 r Hvalid Hfetch Hn).
    apply Hstop. }
  destruct r as [[info|]|e]; [|by apply Hnone|by apply Hnone].
  destruct (decide (info = ∅)) as [Hempty|Hne].
  { apply Hnone. simpl. by rewrite bool_decide_eq_true_2. }
  destruct (info !! py "title") as [title|] eqn:Htitle.
  2: { destruct (content_missing_title lib progress_reports repr_entries
                   url output_location quality w w1 info
                   Hvalid Hfetch Hne Htitle) as (-> & _).
       apply Hstop. }
  rewrite (download_youtube_content_flow lib progress_reports
             repr_entries url output_location quality w w1 info title
             Hvalid Hfetch Htitle).
  set (w2 := emit _ w1).
  pose proof (library_call_world lib progress_reports output_location
                quality url w2) as Hcall.
  destruct (ydl_download_reporting _ _ _ _ w2) as [r3 w3].
  destruct Hcall as (Hlogs3 & Hevents3 & Hdirs3).
  assert (Hlogs1 : logs w1 = logs w).
  { by destruct (get_video_info_logs _ _ _ _ _ Hfetch) as [? | [[=] _]]. }
  assert (Hend : forall (r0 : result unit) (w' : world),
            dirs w' = dirs w3 -> events w' = events w3 ->
            (length (logs w') <= length (logs w3) + 1)%nat ->
            bounded (r0, w')).
  { intros r0 w' Hd He Hl. subst bounded. simpl.
    split; [by rewrite Hd, Hdirs3|]. split.
    - rewrite Hlogs3 in Hl. subst w2. simpl in Hl.
      rewrite length_app, Hlogs1 in Hl. simpl in Hl. lia.
    - exists [content_fetch url;
              content_download url output_location quality].
      split; [|right; auto].
      rewrite He, Hevents3. subst w2. simpl. rewrite Hevents.
      by rewrite <- app_assoc. }
  assert (Hemit : forall (r0 : result unit) (record : log_record),
            bounded (r0, emit record w3)).
  { intros r0 record. apply Hend; simpl; [done|done|].
    rewrite length_app. simpl. lia. }
  destruct r3 as [[]|e]; [apply Hemit|].
  destruct (isinstance e DownloadError); [apply Hemit|].
  destruct (isinstance e ExtractorError); [apply Hemit|].
  destruct (isinstance e OSError); [apply Hemit|].
  apply Hend; [done|done|lia].
Qed.

(** X28. A download that fails is reported, not retried and not
    propagated: when the library call of [download_youtube_content] raises
    an instance of [DownloadError], [ExtractorError] or [OSError],
    the function logs one error record carrying the text of the exception
    and returns, the download call having been made once.  So, once the
    metadata is fetched, what [download_youtube_content] raises is never
    an instance of these three classes. *)
Theorem download_youtube_content_failure_handled
    (lib : YoutubeDL)
    (progress_reports : nat -> ydl_opts -> list str -> list (gmap str pyval))
    (repr_entries : list (option (gmap str str)) -> str)
    (url output_location quality : str) (w w1 w3 : world)
    (info : gmap str pyval) (title : pyval) (r : result unit) :
  validate_url url = true ->
  get_video_info lib url w = (Ret (Some info), w1) ->
  info !! py "title" = Some title ->
  ydl_download_reporting lib progress_reports
    (content_opts output_location quality) [url]
    (emit (mkLog INFO "Preparing to download %s: %s"
             [LStr (content_kind info); shown repr_entries title]) w1)
  = (r, w3) ->
  let '(r', w') :=
    download_youtube_content lib progress_reports repr_entries
      url output_location quality w in
  (forall e,
     r = Raise e ->
     isinstance_any e [DownloadError; ExtractorError; OSError] = true ->
     r' = Ret tt
     /\ (exists fmt, w' = emit (mkLog ERROR fmt [LStr (exn_str e)]) w3)
     /\ events w'
        = events w ++ [content_fetch url;
                       content_download url output_location quality])
  /\ (forall e,
        r' = Raise e ->
        isinstance_any e [DownloadError; ExtractorError; OSError] = false).
Proof.
  intros Hvalid Hfetch Htitle Hcall.
  rewrite (download_youtube_content_flow lib progress_reports repr_entries
             url output_location quality w w1 info title
             Hvalid Hfetch Htitle).
  pose proof (library_call_world lib progress_reports output_location
                quality url
                (emit (mkLog INFO "Preparing to download %s: %s"
                         [LStr (content_kind info);
                          shown repr_entries title]) w1)) as Hworld.
  rewrite Hcall in Hworld |- *. destruct Hworld as (_ & Hevents3 & _).
  destruct (get_video_info_world _ _ _ _ _ Hfetch) as (Hevents1 & _).
  simpl in Hevents3. rewrite Hevents1, <- app_assoc in Hevents3.
  destruct r as [[]|e0].
  - split; [discriminate|discriminate].
  - unfold isinstance_any. cbn [existsb].
    destruct (isinstance e0 DownloadError) eqn:Hd;
      [|destruct (isinstance e0 ExtractorError) eqn:He;
        [|destruct (isinstance e0 OSError) eqn:Ho]];
      (split; [intros e [= <-] Hclass | intros e [= <-]]);
      try (rewrite Hd, He, Ho in Hclass; discriminate Hclass);
      try (rewrite Hd, He, Ho; reflexivity);
      (split; [reflexivity|]);
      (split; [eexists; reflexivity | exact Hevents3]).
Qed.

Lemma download_youtube_content_failure_handled_witness :
  let '(r', w') :=
    download_youtube_content video_library_disk_full two_reports
      repr_elided video_url_example (py "/downloads") (py "720")
      empty_world in
  r' = Ret tt
  /\ last (logs w')
     = Some (mkLog ERROR "An OS error occurred: %s"
               [LStr (py "[Errno 28] No space left on device")])
  /\ events w'
     = [content_fetch video_url_example;
        content_download video_url_example (py "/downloads") (py "720")].
Proof.
  pose proof (download_youtube_content_failure_handled
                video_library_disk_full two_reports repr_elided
                video_url_example (py "/downloads") (py "720")
                empty_world _ _ _ (PyStr (py "Test Video")) _
                ltac:(vm_compute; reflexivity) eq_refl
                ltac:(vm_compute; reflexivity) eq_refl) as Hhandled.
  destruct (download_youtube_content _ _ _ _ _ _ _) as [r' w'] eqn:Hrun.
  destruct Hhandled as [Hhandled _].
  destruct (Hhandled _ eq_refl eq_refl) as (-> & _ & ->).
  vm_compute in Hrun. injection Hrun as <-. repeat split.
Defined.

(** X29. When the library call returns, [download_youtube_content] logs
    the completion with the kind of content capitalised, ["Playlist
    download complete!"] for metadata with an ["entries"] key and ["Video
    download complete!"] otherwise, and returns; the download call was
    made once. *)
Theorem download_youtube_content_success
    (lib : YoutubeDL)
    (progress_reports : nat -> ydl_opts -> list str -> list (gmap str pyval))
    (repr_entries : list (option (gmap str str)) -> str)
    (url output_location quality : str) (w w1 w3 : world)
    (info : gmap str pyval) (title : pyval) :
  validate_url url = true ->
  get_video_info lib url w = (Ret (Some info), w1) ->
  info !! py "title" = Some title ->
  ydl_download_reporting lib progress_reports
    (content_opts output_location quality) [url]
    (emit (mkLog INFO "Preparing to download %s: %s"
             [LStr (content_kind info); shown repr_entries title]) w1)
  = (Ret tt, w3) ->
  download_youtube_content lib progress_reports repr_entries
    url output_location quality w
  = (Ret tt,
     emit (mkLog INFO "%s download complete!"
             [LStr (if bool_decide (is_Some (info !! py "entries"))
                    then py "Playlist" else py "Video")]) w3)
  /\ events w3
     = events w ++ [content_fetch url;
                    content_download url output_location quality].
Proof.
  intros Hvalid Hfetch Htitle Hcall.
  rewrite (download_youtube_content_flow lib progress_reports repr_entries
             url output_location quality w w1 info title
             Hvalid Hfetch Htitle).
  pose proof (library_call_world lib progress_reports output_location
                quality url
                (emit (mkLog INFO "Preparing to download %s: %s"
                         [LStr (content_kind info);
                          shown repr_entries title]) w1)) as Hworld.
  rewrite Hcall in Hworld |- *. destruct Hworld as (_ & Hevents3 & _).
  destruct (get_video_info_world _ _ _ _ _ Hfetch) as (Hevents1 & _).
  simpl in Hevents3. rewrite Hevents1, <- app_assoc in Hevents3.
  split; [|exact Hevents3].
  unfold content_kind. by case_bool_decide.
Qed.

Lemma download_youtube_content_success_witness :
  exists w3,
    download_youtube_content video_library two_reports repr_elided
      video_url_example (py "/downloads") default_quality empty_world
    = (Ret tt,
       emit (mkLog INFO "%s download complete!" [LStr (py "Video")]) w3)
    /\ events w3
       = [content_fetch video_url_example;
          content_download video_url_example (py "/downloads")
            default_quality]
    /\ tty w3
       = [(py "Downloading file.mp4: 50.0%", [13]);
          ([line_feed] ++ py "Finished downloading file.mp4", [line_feed])].
Proof.
  eexists.
  destruct (download_youtube_content_success video_library two_reports
              repr_elided video_url_example (py "/downloads")
              default_quality empty_world _ _ _
              (PyStr (py "Test Video"))
              ltac:(vm_compute; reflexivity) eq_refl
              ltac:(vm_compute; reflexivity)
              ltac:(vm_compute; reflexivity)) as [Hrun Hevents].
  split; [exact Hrun|]. split; [exact Hevents|].
  vm_compute. reflexivity.
Defined.

(** The run of [test_download_youtube_content]: the library is called
    once for the download, with the format ["best"] of the default
    quality, and with the quality ["720"] the format names the height. *)
Example test_download_youtube_content :
  let calls_with quality :=
    events (snd (download_youtube_content video_library no_reports
                   repr_elided
                   (py "https://www.youtube.com/watch?v=dQw4w9WgXcQ")
                   (py "/tmp/x") quality empty_world)) in
  List.filter is_download (calls_with default_quality)
  = [EvDownload
       [ ("format"%string, PyStr (py "best"));
         ("outtmpl"%string, PyStr (py "/tmp/x/%(title)s.%(ext)s"));
         ("quiet"%string, PyBool true);
         ("no_warnings"%string, PyBool true) ]
       [py "https://www.youtube.com/watch?v=dQw4w9WgXcQ"]]
  /\ List.filter is_download (calls_with (py "720"))
     = [EvDownload
          [ ("format"%string,
              PyStr (py "bestvideo[height<=720]+bestaudio/best"));
            ("outtmpl"%string, PyStr (py "/tmp/x/%(title)s.%(ext)s"));
            ("quiet"%string, PyBool true);
            ("no_warnings"%string, PyBool true) ]
          [py "https://www.youtube.com/watch?v=dQw4w9WgXcQ"]].
Proof. vm_compute. split; reflexivity. Qed.

(* ===================================================================== *)
(** * Properties of the entry point of the video script *)
(* ===================================================================== *)

(** X30. An interrupt ends the video script cleanly: when [main] ends with
    a [KeyboardInterrupt], raised at a prompt or during a library call,
    the script prints ["Download cancelled by user."] on a line of its own
    and exits with status 0.  So the script never ends with a
    [KeyboardInterrupt]; an exception of another kind leaves it as it
    left [main]. *)
Theorem video_script_interrupt
    (lib : YoutubeDL)
    (progress_reports : nat -> ydl_opts -> list str -> list (gmap str pyval))
    (repr_entries : list (option (gmap str str)) -> str)
    (isdir : str -> bool)
    (typed_url typed_location typed_quality : result str) (w : world) :
  let main_run :=
    youtube_video_downloader.main lib progress_reports repr_entries isdir
      typed_url typed_location typed_quality w in
  let script_run :=
    youtube_video_downloader.script lib progress_reports repr_entries isdir
      typed_url typed_location typed_quality w in
  (forall e,
     fst main_run = Raise e ->
     isinstance e KeyboardInterrupt = true ->
     script_run
     = (Raise system_exit_0,
        add_tty ([line_feed] ++ py "Download cancelled by user.")
          [line_feed] (snd main_run)))
  /\ (forall e,
        fst main_run = Raise e ->
        isinstance e KeyboardInterrupt = false ->
        script_run = main_run)
  /\ (forall e,
        fst script_run = Raise e -> isinstance e KeyboardInterrupt = false).
Proof.
  cbv zeta. unfold youtube_video_downloader.script, try_except.
  destruct (youtube_video_downloader.main _ _ _ _ _ _ _ w) as [[[]|e0] w'].
  - repeat split; discriminate.
  - unfold find_handler, isinstance_any. cbn [existsb fst snd].
    rewrite orb_false_r.
    destruct (isinstance e0 KeyboardInterrupt) eqn:Hkbd.
    + split; [|split].
      * intros e _ _. reflexivity.
      * intros e [= <-] He. congruence.
      * intros e [= <-]. reflexivity.
    + split; [|split].
      * intros e [= <-] He. congruence.
      * intros e _ _. reflexivity.
      * by intros e [= <-].
Qed.

Lemma video_script_interrupt_witness :
  youtube_video_downloader.script video_library two_reports repr_elided
    isdir_always (Ret video_url_example) (Raise interrupt)
    (Ret default_quality) empty_world
  = (Raise system_exit_0,
     add_tty ([line_feed] ++ py "Download cancelled by user.") [line_feed]
       (snd (youtube_video_downloader.main video_library two_reports
               repr_elided isdir_always (Ret video_url_example)
               (Raise interrupt) (Ret default_quality) empty_world))).
Proof.
  apply (proj1 (video_script_interrupt video_library two_reports repr_elided
                  isdir_always (Ret video_url_example) (Raise interrupt)
                  (Ret default_quality) empty_world) interrupt);
    reflexivity.
Defined.

(** The answers are taken as typed: a URL typed with a leading space is
    refused by the video script, and nothing is fetched. *)
Example video_main_leading_space :
  let '(r, w') :=
    youtube_video_downloader.main video_library two_reports repr_elided
      isdir_always (Ret (py " https://youtu.be/abc123"))
      (Ret (py "/downloads")) (Ret (py "best")) empty_world in
  r = Ret tt
  /\ events w' = []
  /\ logs w'
     = [mkLog ERROR "Invalid YouTube URL provided: %s"
          [LStr (py " https://youtu.be/abc123")]].
Proof. vm_compute. repeat split. Qed.
